(** * Mbalit: collector matching, job dispatch and wallet core

    A shallow embedding of the decision logic of the Mbalit waste-pickup
    application (TypeScript over Firebase), and the properties its
    specification states about it.

    - JavaScript [number]s are IEEE 754 binary64 values: the primitive
      [float] type, reasoned about through its [spec_float] specification.
    - [Math.sin], [Math.cos] and [Math.atan2] are implementation-approximated
      in ECMAScript: they are the fields of a [MathLib] the model is
      parameterised by.
    - The Realtime Database and Firestore are explicit stores; [async]
      functions that write are computations in a state-and-exception monad. *)

From Stdlib Require Import ZArith Bool List Lia Floats.
From stdpp Require Import gmap strings list sorting pretty.

Local Open Scope Z_scope.

(** * Definitions *)

(** ** IEEE 754 binary64: the specification of JavaScript numbers *)

(** A key whose lexicographic order is the order [SFcompare] computes on
    numbers (everything but NaN). *)
Definition SF_key (x : spec_float) : Z * Z * Z :=
  match x with
  | S754_nan => (0, 0, 0)
  | S754_zero _ => (0, 0, 0)
  | S754_infinity true => (-2, 0, 0)
  | S754_infinity false => (2, 0, 0)
  | S754_finite true m e => (-1, - e, Z.neg m)
  | S754_finite false m e => (1, e, Z.pos m)
  end.

Definition SF_lex3 (a b : Z * Z * Z) : comparison :=
  match a, b with
  | (a1, a2, a3), (b1, b2, b3) =>
      match a1 ?= b1 with
      | Eq => match a2 ?= b2 with Eq => a3 ?= b3 | c => c end
      | c => c
      end
  end.

Definition SF_is_nan (x : spec_float) : bool :=
  match x with S754_nan => true | _ => false end.

(** The numbers that are neither NaN nor infinite. *)
Definition SF_is_finite (x : spec_float) : bool :=
  match x with S754_zero _ | S754_finite _ _ _ => true | _ => false end.

(** The number 1. *)
Definition SF_one : spec_float := S754_finite false 4503599627370496 (-52).

(** ** The distance estimator (lib/maps.ts) *)

(** [Math.sin], [Math.cos], [Math.atan2]: the host's approximations. *)
Class MathLib := {
  Math_sin : float -> float;
  Math_cos : float -> float;
  Math_atan2 : float -> float -> float;
}.

(** What the proofs about distances use of the host's [Math]:
    ECMAScript fixes [Math.sin(+0) = +0] and [Math.atan2(+0, x) = +0] for
    [x > 0]; an odd sine is what the usual (fdlibm-style) implementations
    compute. *)
Class MathLaws (M : MathLib) : Prop := {
  Math_sin_odd : forall x, Math_sin (- x) = (- Math_sin x)%float;
  Math_sin_zero : Math_sin 0 = 0%float;
  Math_atan2_zero_one : Math_atan2 0 1 = 0%float;
}.

(** The small-angle approximation [sin x = x], [cos x = 1],
    [atan2 y x = y / x]: a [MathLib] that computes, used to run the model
    on concrete inputs. *)
Definition smallAngleMath : MathLib := {|
  Math_sin := fun x => x;
  Math_cos := fun _ => 1%float;
  Math_atan2 := fun y x => (y / x)%float;
|}.

#[global] Instance spec_float_eq_dec : EqDecision spec_float.
Proof. solve_decision. Defined.

(** Equality of numbers as values, bit for bit (all NaNs are one value). *)
#[global] Instance Num_eq_dec : EqDecision float.
Proof.
  intros x y. destruct (decide (Prim2SF x = Prim2SF y)) as [E|E].
  - left. now apply Prim2SF_inj.
  - right. intros ->. now apply E.
Defined.

(** [Math.sin] and [Math.cos] rounded to the nearest double at the
    arguments the antipodal example uses: [toRad(8)] and its opposite, and
    [Math.PI / 2] and its opposite (the values the fdlibm kernels, which
    V8 runs, and glibc return there). Elsewhere it is the small-angle
    approximation; [atan2] is NaN when an argument is NaN, as ECMAScript
    requires. *)
Definition roundedMath : MathLib := {|
  Math_sin := fun x =>
    if bool_decide (x = 0x1.1df46a2529d39p-3%float)
    then 0x1.1d06c968d9e19p-3%float
    else if bool_decide (x = (-0x1.1df46a2529d39p-3)%float)
    then (-0x1.1d06c968d9e19p-3)%float
    else if bool_decide (x = 0x1.921fb54442d18p+0%float) then 1%float
    else if bool_decide (x = (-0x1.921fb54442d18p+0)%float) then (-1)%float
    else x;
  Math_cos := fun x =>
    if bool_decide (x = 0x1.1df46a2529d39p-3%float)
       || bool_decide (x = (-0x1.1df46a2529d39p-3)%float)
    then 0x1.fb046a930947ap-1%float
    else 1%float;
  Math_atan2 := fun y x => (y / x)%float;
|}.

Module Maps.
Section Maps.
Context {M : MathLib}.
Local Open Scope float_scope.

Definition Math_PI : float := 0x1.921fb54442d18p+1.

(** [function toRad(deg)] *)
Definition toRad (deg : float) : float := deg * (Math_PI / 180).

(** [export function calculateDistance(lat1, lng1, lat2, lng2)]:
    haversine, Earth radius 6371 km. *)
Definition calculateDistance (lat1 lng1 lat2 lng2 : float) : float :=
  let R := 6371 in
  let dLat := toRad (lat2 - lat1) in
  let dLng := toRad (lng2 - lng1) in
  let a :=
    Math_sin (dLat / 2) * Math_sin (dLat / 2) +
    Math_cos (toRad lat1) *
    Math_cos (toRad lat2) *
    Math_sin (dLng / 2) *
    Math_sin (dLng / 2) in
  let c := 2 * Math_atan2 (sqrt a) (sqrt (1 - a)) in
  R * c.

(** The half-angle sine of a coordinate difference. *)
Definition halfSin (d : float) : float := Math_sin (toRad d / 2).

End Maps.
End Maps.

(** ** Domain types (types/index.ts, lib/realtime.ts) *)

Inductive WasteType :=
  | household | kitchen | chemical | electronic
  | construction | garden | medical | recyclable.

#[global] Instance WasteType_eq_dec : EqDecision WasteType.
Proof. solve_decision. Defined.

Inductive UserRole := role_customer | role_collector.

#[global] Instance UserRole_eq_dec : EqDecision UserRole.
Proof. solve_decision. Defined.

(** [RequestStatus], the status of a Firestore pickup request. *)
Inductive RequestStatus :=
  | req_pending | req_assigned | req_in_progress
  | req_arrived | req_completed | req_cancelled.

#[global] Instance RequestStatus_eq_dec : EqDecision RequestStatus.
Proof. solve_decision. Defined.

(** [RealtimeJob['status']], the status of a Realtime Database job. *)
Inductive JobStatus :=
  | job_pending | job_assigned | job_accepted
  | job_in_progress | job_completed | job_cancelled.

#[global] Instance JobStatus_eq_dec : EqDecision JobStatus.
Proof. solve_decision. Defined.

(** [RealtimeJob['paymentStatus']]. *)
Inductive JobPaymentStatus := pay_pending | pay_paid | pay_failed.

(** [PaymentStatus] of a Firestore payment record. *)
Inductive PaymentStatus :=
  | payment_pending | payment_processing | payment_completed
  | payment_failed | payment_refunded.

Record GeoLocation := {
  lat : float;
  lng : float;
  formattedAddress : option string;
}.

(** [Collector], as [getAvailableCollectors] builds it (the display-only
    fields email, rating, totalPickups, earnings and the dates are left
    out: nothing below reads them). *)
Record Collector := {
  c_id : string;
  c_name : string;
  c_phone : string;
  wasteTypesHandled : list WasteType;
  isAvailable : bool;
  currentLocation : option GeoLocation;
}.

(** [PickupRequest], as [getPickupRequest] builds it. *)
Record PickupRequest := {
  pr_id : string;
  pr_customerId : string;
  pr_collectorId : option string;
  pr_wasteType : WasteType;
  pr_pickupLocation : GeoLocation;
  pr_estimatedPrice : float;
  pr_distance : option float;
  pr_status : RequestStatus;
}.

(** [RealtimeJob], the job a dashboard holds in its component state. *)
Record RealtimeJob := {
  job_id : string;
  job_customerId : string;
  job_collectorId : option string;
  job_wasteType : string;
  job_amount : float;
  job_paymentStatus : JobPaymentStatus;
  job_status : JobStatus;
}.

(** ** The stores *)

(** A Firestore [GeoPoint]. *)
Record GeoPoint := { latitude : float; longitude : float }.

(** A document of the Firestore collection [users]. *)
Record UserDoc := {
  u_role : UserRole;
  u_name : string;
  u_phone : string;
  u_wasteTypesHandled : list WasteType;
  u_isAvailable : bool;
  u_currentLocation : option GeoPoint;
  u_currentRequestId : option string;
  u_updatedAt : option Z;
}.

(** A document of the Firestore collection [requests]. *)
Record RequestDoc := {
  r_customerId : string;
  r_collectorId : option string;
  r_wasteType : WasteType;
  r_pickupLocation : GeoPoint;
  r_pickupAddress : string;
  r_estimatedPrice : float;
  r_distance : option float;
  r_status : RequestStatus;
  r_assignedAt : option Z;
  r_completedAt : option Z;
  r_updatedAt : option Z;
  r_cancelReason : option string;
}.

(** The fields an [updateDoc] on a request may carry
    ([Record<string, unknown>] restricted to the fields of [RequestDoc]
    that are ever written). *)
Record RequestPatch := {
  rp_collectorId : option string;
  rp_distance : option float;
  rp_status : option RequestStatus;
  rp_assignedAt : option Z;
  rp_completedAt : option Z;
  rp_updatedAt : option Z;
  rp_cancelReason : option string;
}.

Definition emptyRequestPatch : RequestPatch :=
  {| rp_collectorId := None; rp_distance := None; rp_status := None;
     rp_assignedAt := None; rp_completedAt := None; rp_updatedAt := None;
     rp_cancelReason := None |}.

(** Object spread [{...a, ...b}]: the fields of [b] win. *)
Definition spreadRequestPatch (a b : RequestPatch) : RequestPatch :=
  {| rp_collectorId := from_option Some (rp_collectorId a) (rp_collectorId b);
     rp_distance := from_option Some (rp_distance a) (rp_distance b);
     rp_status := from_option Some (rp_status a) (rp_status b);
     rp_assignedAt := from_option Some (rp_assignedAt a) (rp_assignedAt b);
     rp_completedAt := from_option Some (rp_completedAt a) (rp_completedAt b);
     rp_updatedAt := from_option Some (rp_updatedAt a) (rp_updatedAt b);
     rp_cancelReason := from_option Some (rp_cancelReason a) (rp_cancelReason b) |}.

Definition applyRequestPatch (d : RequestDoc) (p : RequestPatch) : RequestDoc :=
  {| r_customerId := r_customerId d;
     r_collectorId := from_option Some (r_collectorId d) (rp_collectorId p);
     r_wasteType := r_wasteType d;
     r_pickupLocation := r_pickupLocation d;
     r_pickupAddress := r_pickupAddress d;
     r_estimatedPrice := r_estimatedPrice d;
     r_distance := from_option Some (r_distance d) (rp_distance p);
     r_status := default (r_status d) (rp_status p);
     r_assignedAt := from_option Some (r_assignedAt d) (rp_assignedAt p);
     r_completedAt := from_option Some (r_completedAt d) (rp_completedAt p);
     r_updatedAt := from_option Some (r_updatedAt d) (rp_updatedAt p);
     r_cancelReason := from_option Some (r_cancelReason d) (rp_cancelReason p) |}.

(** A document of the Firestore collection [wallets]; [w_balance] is absent
    when the document has no [balance] field. *)
Record WalletDoc := {
  w_balance : option float;
  w_updatedAt : Z;
}.

Inductive TransactionType := tx_credit | tx_withdraw.

(** A document of the Firestore collection [walletTransactions]. *)
Record WalletTransaction := {
  tx_walletId : string;
  tx_type : TransactionType;
  tx_amount : float;
  tx_description : string;
  tx_transactionId : option string;
  tx_paymentMethod : option string;
  tx_phoneNumber : option string;
  tx_status : option string;
  tx_balanceAfter : float;
  tx_createdAt : Z;
}.

(** A document of the Firestore collection [payments]. *)
Record PaymentDoc := {
  p_requestId : string;
  p_customerId : string;
  p_collectorId : string;
  p_amount : float;
  p_status : PaymentStatus;
}.

(** A node [jobs/{id}] of the Realtime Database: a JSON object, any field of
    which may be absent. It is also the shape of [Partial<RealtimeJob>]. *)
Record JobNode := {
  jn_customerId : option string;
  jn_collectorId : option string;
  jn_wasteType : option string;
  jn_amount : option float;
  jn_paymentStatus : option JobPaymentStatus;
  jn_status : option JobStatus;
  jn_assignedAt : option Z;
  jn_completedAt : option Z;
}.

Definition emptyJobNode : JobNode :=
  {| jn_customerId := None; jn_collectorId := None; jn_wasteType := None;
     jn_amount := None; jn_paymentStatus := None; jn_status := None;
     jn_assignedAt := None; jn_completedAt := None |}.

(** Object spread, and the merge an [update] performs on a node. *)
Definition spreadJobNode (a b : JobNode) : JobNode :=
  {| jn_customerId := from_option Some (jn_customerId a) (jn_customerId b);
     jn_collectorId := from_option Some (jn_collectorId a) (jn_collectorId b);
     jn_wasteType := from_option Some (jn_wasteType a) (jn_wasteType b);
     jn_amount := from_option Some (jn_amount a) (jn_amount b);
     jn_paymentStatus :=
       from_option Some (jn_paymentStatus a) (jn_paymentStatus b);
     jn_status := from_option Some (jn_status a) (jn_status b);
     jn_assignedAt := from_option Some (jn_assignedAt a) (jn_assignedAt b);
     jn_completedAt := from_option Some (jn_completedAt a) (jn_completedAt b) |}.

(** What the program does that is neither a read nor a write of a store. *)
Inductive Event :=
  | EvQueryAvailableCollectors (wasteType : WasteType)
  | EvSetTimeout (ms : Z).

(** The world: Firestore collections ([users] as the list of its
    documents, which a query returns in ascending order of id whatever
    their order here; the auto-id collections as lists), the Realtime
    Database paths [jobs/{id}] and [collectors/{id}/activeJob], the server
    clock and the trace of events. *)
Record World := {
  fs_requests : gmap string RequestDoc;
  fs_users : list (string * UserDoc);
  fs_wallets : gmap string WalletDoc;
  fs_walletTransactions : list (string * WalletTransaction);
  fs_payments : list (string * PaymentDoc);
  rt_jobs : gmap string JobNode;
  rt_activeJob : gmap string string;
  clock : Z;
  trace : list Event;
}.

Definition set_requests (f : gmap string RequestDoc -> gmap string RequestDoc)
    (w : World) : World :=
  {| fs_requests := f (fs_requests w); fs_users := fs_users w;
     fs_wallets := fs_wallets w;
     fs_walletTransactions := fs_walletTransactions w;
     fs_payments := fs_payments w; rt_jobs := rt_jobs w;
     rt_activeJob := rt_activeJob w; clock := clock w; trace := trace w |}.

Definition set_users (f : list (string * UserDoc) -> list (string * UserDoc))
    (w : World) : World :=
  {| fs_requests := fs_requests w; fs_users := f (fs_users w);
     fs_wallets := fs_wallets w;
     fs_walletTransactions := fs_walletTransactions w;
     fs_payments := fs_payments w; rt_jobs := rt_jobs w;
     rt_activeJob := rt_activeJob w; clock := clock w; trace := trace w |}.

Definition set_wallets (f : gmap string WalletDoc -> gmap string WalletDoc)
    (w : World) : World :=
  {| fs_requests := fs_requests w; fs_users := fs_users w;
     fs_wallets := f (fs_wallets w);
     fs_walletTransactions := fs_walletTransactions w;
     fs_payments := fs_payments w; rt_jobs := rt_jobs w;
     rt_activeJob := rt_activeJob w; clock := clock w; trace := trace w |}.

Definition set_walletTransactions
    (f : list (string * WalletTransaction) -> list (string * WalletTransaction))
    (w : World) : World :=
  {| fs_requests := fs_requests w; fs_users := fs_users w;
     fs_wallets := fs_wallets w;
     fs_walletTransactions := f (fs_walletTransactions w);
     fs_payments := fs_payments w; rt_jobs := rt_jobs w;
     rt_activeJob := rt_activeJob w; clock := clock w; trace := trace w |}.

Definition set_payments
    (f : list (string * PaymentDoc) -> list (string * PaymentDoc))
    (w : World) : World :=
  {| fs_requests := fs_requests w; fs_users := fs_users w;
     fs_wallets := fs_wallets w;
     fs_walletTransactions := fs_walletTransactions w;
     fs_payments := f (fs_payments w); rt_jobs := rt_jobs w;
     rt_activeJob := rt_activeJob w; clock := clock w; trace := trace w |}.

Definition set_jobs (f : gmap string JobNode -> gmap string JobNode)
    (w : World) : World :=
  {| fs_requests := fs_requests w; fs_users := fs_users w;
     fs_wallets := fs_wallets w;
     fs_walletTransactions := fs_walletTransactions w;
     fs_payments := fs_payments w; rt_jobs := f (rt_jobs w);
     rt_activeJob := rt_activeJob w; clock := clock w; trace := trace w |}.

Definition set_activeJob (f : gmap string string -> gmap string string)
    (w : World) : World :=
  {| fs_requests := fs_requests w; fs_users := fs_users w;
     fs_wallets := fs_wallets w;
     fs_walletTransactions := fs_walletTransactions w;
     fs_payments := fs_payments w; rt_jobs := rt_jobs w;
     rt_activeJob := f (rt_activeJob w); clock := clock w; trace := trace w |}.

Definition set_clock (f : Z -> Z) (w : World) : World :=
  {| fs_requests := fs_requests w; fs_users := fs_users w;
     fs_wallets := fs_wallets w;
     fs_walletTransactions := fs_walletTransactions w;
     fs_payments := fs_payments w; rt_jobs := rt_jobs w;
     rt_activeJob := rt_activeJob w; clock := f (clock w); trace := trace w |}.

Definition set_trace (f : list Event -> list Event) (w : World) : World :=
  {| fs_requests := fs_requests w; fs_users := fs_users w;
     fs_wallets := fs_wallets w;
     fs_walletTransactions := fs_walletTransactions w;
     fs_payments := fs_payments w; rt_jobs := rt_jobs w;
     rt_activeJob := rt_activeJob w; clock := clock w; trace := f (trace w) |}.

(** ** Asynchronous computations

    An [async] function runs against the world and either resolves to a
    value or rejects with an error; the writes made before a rejection
    stay made. *)

Inductive Outcome (A : Type) :=
  | Resolved (a : A)
  | Rejected (e : string).
Arguments Resolved {A} a.
Arguments Rejected {A} e.

Definition Async (A : Type) : Type := World -> Outcome A * World.

Definition ret {A} (a : A) : Async A := fun w => (Resolved a, w).

Definition bind {A B} (m : Async A) (k : A -> Async B) : Async B :=
  fun w =>
    match m w with
    | (Resolved a, w') => k a w'
    | (Rejected e, w') => (Rejected e, w')
    end.

Definition throw {A} (e : string) : Async A := fun w => (Rejected e, w).

(** [try { m } catch (error) { h error }] *)
Definition tryCatch {A} (m : Async A) (h : string -> Async A) : Async A :=
  fun w =>
    match m w with
    | (Resolved a, w') => (Resolved a, w')
    | (Rejected e, w') => h e w'
    end.

Definition reads {A} (f : World -> A) : Async A := fun w => (Resolved (f w), w).
Definition writes (f : World -> World) : Async unit :=
  fun w => (Resolved tt, f w).

Declare Scope async_scope.
Delimit Scope async_scope with async.
Bind Scope async_scope with Async.
Notation "'let*' x := m 'in' k" := (bind m (fun x => k))
  (at level 10, x pattern, m at level 100, k at level 200) : async_scope.
Notation "m ;; k" := (bind m (fun _ => k))
  (at level 100, k at level 200, right associativity) : async_scope.
Local Open Scope async_scope.

(** [serverTimestamp()], resolved by the server when the write lands. *)
Definition serverTimestamp : Async Z := reads clock.

(** [await new Promise((resolve) => setTimeout(resolve, ms))] *)
Definition setTimeout (ms : Z) : Async unit :=
  writes (fun w =>
    set_trace (fun t => t ++ [EvSetTimeout ms]) (set_clock (Z.add (Z.max 0 ms)) w)).

(** *** Store primitives *)

(** Realtime Database [update(ref(db, `jobs/${jobId}`), patch)]: merges the
    patch into the node, creating it when absent. *)
Definition rtdb_updateJob (jobId : string) (patch : JobNode) : Async unit :=
  writes (set_jobs (fun jobs =>
    <[jobId := spreadJobNode (default emptyJobNode (jobs !! jobId)) patch]> jobs)).

(** Realtime Database [set(ref(db, `collectors/${id}/activeJob`), value)];
    setting [null] removes the path. *)
Definition rtdb_setActiveJob (collectorId : string) (value : option string)
    : Async unit :=
  writes (set_activeJob (fun m =>
    match value with
    | Some jobId => <[collectorId := jobId]> m
    | None => delete collectorId m
    end)).

(** Firestore [updateDoc]: rejects when the document does not exist. *)
Definition firestore_updateRequest (requestId : string) (patch : RequestPatch)
    : Async unit :=
  fun w =>
    match fs_requests w !! requestId with
    | Some d =>
        (Resolved tt,
         set_requests <[requestId := applyRequestPatch d patch]> w)
    | None => (Rejected "not-found", w)
    end.

Definition hasUser (userId : string) (users : list (string * UserDoc)) : bool :=
  existsb (fun iu => bool_decide (iu.1 = userId)) users.

Definition firestore_updateUser (userId : string) (f : UserDoc -> UserDoc)
    : Async unit :=
  fun w =>
    if hasUser userId (fs_users w) then
      (Resolved tt,
       set_users (map (fun iu =>
         if bool_decide (iu.1 = userId) then (iu.1, f iu.2) else iu)) w)
    else (Rejected "not-found", w).

(** The id of [doc(collection(db, name))]: fresh in the collection. *)
Definition autoId {A} (docs : list (string * A)) : string :=
  String.append "auto-" (pretty (length docs)).

(** ** lib/realtime.ts: jobs in the Realtime Database *)

(** [export async function updateJobStatus(jobId, status, additionalData?)] *)
Definition updateJobStatus (jobId : string) (status : JobStatus)
    (additionalData : option JobNode) : Async unit :=
  let* t := serverTimestamp in
  rtdb_updateJob jobId
    (spreadJobNode
       (spreadJobNode
          {| jn_customerId := None; jn_collectorId := None;
             jn_wasteType := None; jn_amount := None;
             jn_paymentStatus := None; jn_status := Some status;
             jn_assignedAt := None; jn_completedAt := None |}
          (default emptyJobNode additionalData))
       (if decide (status = job_completed)
        then {| jn_customerId := None; jn_collectorId := None;
                jn_wasteType := None; jn_amount := None;
                jn_paymentStatus := None; jn_status := None;
                jn_assignedAt := None; jn_completedAt := Some t |}
        else emptyJobNode)).

(** [export async function assignCollectorToJob(jobId, collectorId)] *)
Definition assignCollectorToJob (jobId collectorId : string) : Async unit :=
  let* t := serverTimestamp in
  rtdb_updateJob jobId
    {| jn_customerId := None; jn_collectorId := Some collectorId;
       jn_wasteType := None; jn_amount := None; jn_paymentStatus := None;
       jn_status := Some job_assigned; jn_assignedAt := Some t;
       jn_completedAt := None |} ;;
  rtdb_setActiveJob collectorId (Some jobId).

(** [export async function clearCollectorActiveJob(collectorId)] *)
Definition clearCollectorActiveJob (collectorId : string) : Async unit :=
  rtdb_setActiveJob collectorId None.

(** ** lib/firestore.ts: requests, collectors and wallets *)

(** [export async function getPickupRequest(requestId)] *)
Definition getPickupRequest (requestId : string) : Async (option PickupRequest) :=
  reads (fun w =>
    match fs_requests w !! requestId with
    | None => None
    | Some data =>
        Some {| pr_id := requestId;
                pr_customerId := r_customerId data;
                pr_collectorId := r_collectorId data;
                pr_wasteType := r_wasteType data;
                pr_pickupLocation :=
                  {| lat := latitude (r_pickupLocation data);
                     lng := longitude (r_pickupLocation data);
                     formattedAddress := Some (r_pickupAddress data) |};
                pr_estimatedPrice := r_estimatedPrice data;
                pr_distance := r_distance data;
                pr_status := r_status data |}
    end).

(** [export async function updateRequestStatus(requestId, status,
    additionalData?)] *)
Definition updateRequestStatus (requestId : string) (status : RequestStatus)
    (additionalData : option RequestPatch) : Async unit :=
  let* t := serverTimestamp in
  let updateData :=
    spreadRequestPatch
      {| rp_collectorId := None; rp_distance := None;
         rp_status := Some status; rp_assignedAt := None;
         rp_completedAt := None; rp_updatedAt := Some t;
         rp_cancelReason := None |}
      (default emptyRequestPatch additionalData) in
  let updateData :=
    if decide (status = req_assigned) then
      spreadRequestPatch updateData
        {| rp_collectorId := None; rp_distance := None; rp_status := None;
           rp_assignedAt := Some t; rp_completedAt := None;
           rp_updatedAt := None; rp_cancelReason := None |}
    else if decide (status = req_completed) then
      spreadRequestPatch updateData
        {| rp_collectorId := None; rp_distance := None; rp_status := None;
           rp_assignedAt := None; rp_completedAt := Some t;
           rp_updatedAt := None; rp_cancelReason := None |}
    else updateData in
  firestore_updateRequest requestId updateData.

(** The documents the query of [getAvailableCollectors] selects:
    [role == 'collector'], [isAvailable == true] and
    [wasteTypesHandled array-contains wasteType]. *)
Definition matchesQuery (wasteType : WasteType) (data : UserDoc) : bool :=
  bool_decide (u_role data = role_collector)
  && u_isAvailable data
  && bool_decide (wasteType ∈ u_wasteTypesHandled data).

Definition toCollector (docId : string) (data : UserDoc) : Collector :=
  {| c_id := docId;
     c_name := u_name data;
     c_phone := u_phone data;
     wasteTypesHandled := u_wasteTypesHandled data;
     isAvailable := u_isAvailable data;
     currentLocation :=
       match u_currentLocation data with
       | Some g => Some {| lat := latitude g; lng := longitude g;
                           formattedAddress := None |}
       | None => None
       end |}.

(** Document ids compare as byte strings. *)
Definition idLe {A} (x y : string * A) : Prop := String.leb x.1 y.1 = true.

#[global] Instance idLe_dec {A} : RelDecision (@idLe A).
Proof. intros x y. unfold idLe. apply _. Defined.

(** The order in which Firestore returns the documents of a query that has
    no [orderBy]: ascending document id. *)
Definition queryOrder {A} (docs : list (string * A)) : list (string * A) :=
  merge_sort idLe docs.

(** [snapshot.docs.map(...)] on the result of the query. *)
Definition availableCollectors (wasteType : WasteType) (w : World)
    : list Collector :=
  map (fun iu => toCollector iu.1 iu.2)
      (filter (fun iu => matchesQuery wasteType iu.2 = true)
              (queryOrder (fs_users w))).

(** [export async function getAvailableCollectors(wasteType)] *)
Definition getAvailableCollectors (wasteType : WasteType)
    : Async (list Collector) :=
  writes (set_trace (fun t => t ++ [EvQueryAvailableCollectors wasteType])) ;;
  reads (availableCollectors wasteType).

(** [{ collector: Collector; distance: number }] *)
Record Nearest := { n_collector : Collector; n_distance : float }.

(** [{ success; error?; transactionId? }] *)
Record WithdrawResult := {
  wr_success : bool;
  wr_error : option string;
  wr_transactionId : option string;
}.

Section Program.
Context {M : MathLib}.

(** One turn of the loop of [findNearestCollector]. *)
Definition nearestStep (customerLocation : GeoLocation)
    (nearest : option Nearest) (collector : Collector) : option Nearest :=
  match currentLocation collector with
  | None => nearest
  | Some loc =>
      let distance :=
        Maps.calculateDistance (lat customerLocation) (lng customerLocation)
          (lat loc) (lng loc) in
      match nearest with
      | None => Some {| n_collector := collector; n_distance := distance |}
      | Some n =>
          if (distance <? n_distance n)%float
          then Some {| n_collector := collector; n_distance := distance |}
          else nearest
      end
  end.

(** The body of [findNearestCollector] once the collectors are fetched. *)
Definition nearestOf (customerLocation : GeoLocation)
    (collectors : list Collector) : option Nearest :=
  if bool_decide (length collectors = 0%nat) then None
  else fold_left (nearestStep customerLocation) collectors None.

(** [export async function findNearestCollector(customerLocation,
    wasteType)] *)
Definition findNearestCollector (customerLocation : GeoLocation)
    (wasteType : WasteType) : Async (option Nearest) :=
  let* collectors := getAvailableCollectors wasteType in
  ret (nearestOf customerLocation collectors).

(** [export async function assignCollectorToRequest(requestId, collectorId,
    distance)] *)
Definition assignCollectorToRequest (requestId collectorId : string)
    (distance : float) : Async unit :=
  let* t := serverTimestamp in
  firestore_updateRequest requestId
    {| rp_collectorId := Some collectorId; rp_distance := Some distance;
       rp_status := Some req_assigned; rp_assignedAt := Some t;
       rp_completedAt := None; rp_updatedAt := Some t;
       rp_cancelReason := None |} ;;
  firestore_updateUser collectorId (fun u =>
    {| u_role := u_role u; u_name := u_name u; u_phone := u_phone u;
       u_wasteTypesHandled := u_wasteTypesHandled u;
       u_isAvailable := false;
       u_currentLocation := u_currentLocation u;
       u_currentRequestId := Some requestId;
       u_updatedAt := Some t |}).

End Program.

(** *** Vocabulary of the matching properties *)

(** A collector document is eligible for a waste type when the query
    selects it and it has reported a location. *)
Definition eligible (wasteType : WasteType) (data : UserDoc) : bool :=
  matchesQuery wasteType data && bool_decide (is_Some (u_currentLocation data)).

(** The distance [findNearestCollector] computes for a candidate, if the
    candidate has a location. *)
Definition distanceTo {M : MathLib} (customerLocation : GeoLocation)
    (c : Collector) : option float :=
  match currentLocation c with
  | Some loc =>
      Some (Maps.calculateDistance (lat customerLocation) (lng customerLocation)
              (lat loc) (lng loc))
  | None => None
  end.

(** What the loop of [findNearestCollector] has established once it went
    through [processed]: [nearest] is [null] only if no candidate so far has
    a location; otherwise it is a processed candidate, at some index [i],
    with its distance, no processed candidate is strictly closer, and every
    processed candidate at an equal distance ([==], or the same value bit
    for bit, NaN included) comes at [i] or later. *)
Definition nearestInv {M : MathLib} (customerLocation : GeoLocation)
    (processed : list Collector) (nearest : option Nearest) : Prop :=
  match nearest with
  | None => forall c, c ∈ processed -> currentLocation c = None
  | Some n =>
      exists i : nat,
        processed !! i = Some (n_collector n) /\
        distanceTo customerLocation (n_collector n) = Some (n_distance n) /\
        forall (j : nat) c d,
          processed !! j = Some c ->
          distanceTo customerLocation c = Some d ->
          (d <? n_distance n)%float = false /\
          ((d =? n_distance n)%float = true \/ d = n_distance n ->
           (i <= j)%nat)
  end.

(** ** The dispatcher: [autoMatchCollector] and [retryMatch] *)

(** [MatchResult]. Its [estimatedArrival], a display text computed from the
    distance with [Math.round] and [Math.floor], is left out. *)
Record MatchResult := {
  success : bool;
  mr_collector : option Collector;
  mr_distance : option float;
  error : option string;
}.

Definition matchFailure (message : string) : MatchResult :=
  {| success := false; mr_collector := None; mr_distance := None;
     error := Some message |}.

Section Dispatcher.
Context {M : MathLib}.

(** [export async function autoMatchCollector(requestId, customerLocation,
    wasteType)] *)
Definition autoMatchCollector (requestId : string)
    (customerLocation : GeoLocation) (wasteType : WasteType)
    : Async MatchResult :=
  tryCatch
    (let* found := findNearestCollector customerLocation wasteType in
     match found with
     | None =>
         ret (matchFailure
                "No collectors available for this waste type right now")
     | Some {| n_collector := collector; n_distance := distance |} =>
         assignCollectorToRequest requestId (c_id collector) distance ;;
         ret {| success := true; mr_collector := Some collector;
                mr_distance := Some distance; error := None |}
     end)
    (fun _ => ret (matchFailure "Failed to match with a collector")).

(** The [for (let i = 0; i < maxRetries; i++)] loop of [retryMatch], from
    index [i] with [fuel] turns left; [Some] is the early [return match]. *)
Fixpoint retryLoop (requestId : string) (request : PickupRequest)
    (maxRetries retryDelayMs : Z) (fuel : nat) (i : Z)
    : Async (option MatchResult) :=
  match fuel with
  | O => ret None
  | S fuel' =>
      let* result :=
        autoMatchCollector requestId (pr_pickupLocation request)
          (pr_wasteType request) in
      if success result then ret (Some result)
      else
        (if i <? maxRetries - 1 then setTimeout retryDelayMs else ret tt) ;;
        retryLoop requestId request maxRetries retryDelayMs fuel' (i + 1)
  end.

(** [export async function retryMatch(requestId, maxRetries = 3,
    retryDelayMs = 30000)]; the loop runs for [i = 0 .. maxRetries - 1]. *)
Definition retryMatch (requestId : string) (maxRetries retryDelayMs : Z)
    : Async MatchResult :=
  let* request := getPickupRequest requestId in
  match request with
  | Some request =>
      if decide (pr_status request = req_pending) then
        let* matched :=
          retryLoop requestId request maxRetries retryDelayMs
            (Z.to_nat maxRetries) 0 in
        match matched with
        | Some result => ret result
        | None =>
            updateRequestStatus requestId req_cancelled
              (Some {| rp_collectorId := None; rp_distance := None;
                       rp_status := None; rp_assignedAt := None;
                       rp_completedAt := None; rp_updatedAt := None;
                       rp_cancelReason :=
                         Some "No collectors available after multiple attempts" |}) ;;
            ret (matchFailure
                   "No collectors available. Please try again later.")
        end
      else ret (matchFailure "Request not found or already processed")
  | None => ret (matchFailure "Request not found or already processed")
  end.

Definition defaultMaxRetries : Z := 3.
Definition defaultRetryDelayMs : Z := 30000.

End Dispatcher.

(** *** Vocabulary of the dispatch properties *)

(** [n] matching attempts with a wait of [delay] between consecutive ones. *)
Fixpoint attemptsWithDelays (wasteType : WasteType) (delay : Z) (n : nat)
    : list Event :=
  match n with
  | O => []
  | S n' =>
      EvQueryAvailableCollectors wasteType ::
      match n' with
      | O => []
      | S _ => EvSetTimeout delay :: attemptsWithDelays wasteType delay n'
      end
  end.

Definition isAttempt (e : Event) : bool :=
  match e with EvQueryAvailableCollectors _ => true | EvSetTimeout _ => false end.

Definition isWait (delay : Z) (e : Event) : bool :=
  match e with
  | EvSetTimeout ms => bool_decide (ms = delay)
  | EvQueryAvailableCollectors _ => false
  end.

Definition countEvents (p : Event -> bool) (events : list Event) : nat :=
  length (List.filter p events).

(** A computation neither reads nor writes the [payments] collection:
    replacing the collection beforehand changes nothing but the collection
    afterwards. *)
Definition ignoresPayments {A} (m : Async A) : Prop :=
  forall payments w,
    m (set_payments (fun _ => payments) w)
    = (fst (m w), set_payments (fun _ => payments) (snd (m w))).

(** ** Wallets *)

(** [walletDoc.data().balance || 0]: an absent field, NaN and both zeros are
    falsy. *)
Definition balanceOrZero (balance : option float) : float :=
  match balance with
  | Some b => if is_nan b || is_zero b then 0%float else b
  | None => 0%float
  end.

(** [export async function creditWallet(collectorId, amount, description,
    transactionId?)]. The wallet is written first. [setDoc] then refuses a
    field that is [undefined], which [transactionId] is when the argument
    is omitted: the call rejects with the new balance stored and no
    transaction recorded. *)
Definition creditWallet (collectorId : string) (amount : float)
    (description : string) (transactionId : option string) : Async unit :=
  let* walletDoc := reads (fun w => fs_wallets w !! collectorId) in
  let* t := serverTimestamp in
  let currentBalance :=
    match walletDoc with
    | Some d => balanceOrZero (w_balance d)
    | None => 0%float
    end in
  let newBalance := (currentBalance + amount)%float in
  writes (set_wallets
    <[collectorId := {| w_balance := Some newBalance; w_updatedAt := t |}]>) ;;
  match transactionId with
  | Some _ =>
      writes (set_walletTransactions (fun txs =>
        txs ++ [(autoId txs,
                 {| tx_walletId := collectorId; tx_type := tx_credit;
                    tx_amount := amount; tx_description := description;
                    tx_transactionId := transactionId;
                    tx_paymentMethod := None; tx_phoneNumber := None;
                    tx_status := None; tx_balanceAfter := newBalance;
                    tx_createdAt := t |})]))
  | None => throw "invalid-argument"
  end.

(** [export async function withdrawFromWallet(collectorId, amount,
    paymentMethod, phoneNumber)] *)
Definition withdrawFromWallet (collectorId : string) (amount : float)
    (paymentMethod phoneNumber : string) : Async WithdrawResult :=
  let* walletDoc := reads (fun w => fs_wallets w !! collectorId) in
  match walletDoc with
  | None =>
      ret {| wr_success := false; wr_error := Some "Wallet not found";
             wr_transactionId := None |}
  | Some data =>
      let currentBalance := balanceOrZero (w_balance data) in
      if (currentBalance <? amount)%float then
        ret {| wr_success := false; wr_error := Some "Insufficient balance";
               wr_transactionId := None |}
      else if (amount <? 50)%float then
        ret {| wr_success := false;
               wr_error := Some "Minimum withdrawal is 50 GMD";
               wr_transactionId := None |}
      else
        let newBalance := (currentBalance - amount)%float in
        let* t := serverTimestamp in
        writes (set_wallets
          <[collectorId := {| w_balance := Some newBalance;
                              w_updatedAt := t |}]>) ;;
        let* transactionId := reads (fun w => autoId (fs_walletTransactions w)) in
        writes (set_walletTransactions (fun txs =>
          txs ++ [(transactionId,
                   {| tx_walletId := collectorId; tx_type := tx_withdraw;
                      tx_amount := (- amount)%float;
                      tx_description :=
                        String.append "Withdrawal to "
                          (String.append paymentMethod
                             (String.append " ("
                                (String.append phoneNumber ")")));
                      tx_transactionId := None;
                      tx_paymentMethod := Some paymentMethod;
                      tx_phoneNumber := Some phoneNumber;
                      tx_status := Some "pending";
                      tx_balanceAfter := newBalance;
                      tx_createdAt := t |})])) ;;
        ret {| wr_success := true; wr_error := None;
               wr_transactionId := Some transactionId |}
  end.

(** ** The collector dashboard (app/collector/dashboard) *)

(** The component state the handlers read and set. *)
Record Dashboard := {
  d_collectorId : string;
  d_activeJob : option RealtimeJob;
  d_incomingJob : option RealtimeJob;
  d_walletBalance : float;
  d_remainingCapacity : float;
}.

(** [Math.max(0, x)] *)
Definition Math_max0 (x : float) : float :=
  if is_nan x then nan else if (0 <? x)%float then x else 0%float.

(** [const handleAcceptJob = async () => ...] *)
Definition handleAcceptJob (d : Dashboard) : Async Dashboard :=
  match d_incomingJob d with
  | Some incomingJob =>
      tryCatch
        (assignCollectorToJob (job_id incomingJob) (d_collectorId d) ;;
         updateJobStatus (job_id incomingJob) job_accepted None ;;
         ret {| d_collectorId := d_collectorId d;
                d_activeJob :=
                  Some {| job_id := job_id incomingJob;
                          job_customerId := job_customerId incomingJob;
                          job_collectorId := Some (d_collectorId d);
                          job_wasteType := job_wasteType incomingJob;
                          job_amount := job_amount incomingJob;
                          job_paymentStatus := job_paymentStatus incomingJob;
                          job_status := job_accepted |};
                d_incomingJob := None;
                d_walletBalance := d_walletBalance d;
                d_remainingCapacity := d_remainingCapacity d |})
        (fun _ => ret d)
  | None => ret d
  end.

(** [const handleCompleteJob = async () => ...] *)
Definition handleCompleteJob (d : Dashboard) : Async Dashboard :=
  match d_activeJob d with
  | Some activeJob =>
      tryCatch
        (updateJobStatus (job_id activeJob) job_completed None ;;
         clearCollectorActiveJob (d_collectorId d) ;;
         ret {| d_collectorId := d_collectorId d;
                d_activeJob := None;
                d_incomingJob := d_incomingJob d;
                d_walletBalance :=
                  (d_walletBalance d + job_amount activeJob)%float;
                d_remainingCapacity :=
                  Math_max0 (d_remainingCapacity d - 20)%float |})
        (fun _ => ret d)
  | None => ret d
  end.

(** ** Example worlds

    Bakau and Serrekunda coordinates around the pickup point
    (13.4549, -16.5790) of the specification's scenario. *)

Definition emptyWorld : World :=
  {| fs_requests := ∅; fs_users := []; fs_wallets := ∅;
     fs_walletTransactions := []; fs_payments := [];
     rt_jobs := ∅; rt_activeJob := ∅; clock := 1700000000000; trace := [] |}.

Definition exampleJobNode (status : JobStatus) (payment : JobPaymentStatus)
    (collectorId : option string) : JobNode :=
  {| jn_customerId := Some "awa@example.gm"; jn_collectorId := collectorId;
     jn_wasteType := Some "household"; jn_amount := Some 150%float;
     jn_paymentStatus := Some payment; jn_status := Some status;
     jn_assignedAt := None; jn_completedAt := None |}.

(** Collector [c1] is busy with job [j1]; job [j2] is pending. *)
Definition busyCollectorWorld : World :=
  set_activeJob (fun _ => {["c1" := "j1"]})
    (set_jobs (fun _ =>
       {["j1" := exampleJobNode job_assigned pay_paid (Some "c1");
         "j2" := exampleJobNode job_pending pay_paid None]})
       emptyWorld).

(** Job [j1] was completed by collector [c1]. *)
Definition completedJobWorld : World :=
  set_jobs (fun _ =>
    {["j1" := exampleJobNode job_completed pay_paid (Some "c1")]}) emptyWorld.

Definition pickupPoint : GeoPoint :=
  {| latitude := 0x1.ae8e8a71de69bp+3; longitude := -0x1.094395810624ep+4 |}.

Definition exampleCollectorDoc (name : string) (handled : list WasteType)
    (available : bool) (location : option GeoPoint) : UserDoc :=
  {| u_role := role_collector; u_name := name; u_phone := "2200000";
     u_wasteTypesHandled := handled; u_isAvailable := available;
     u_currentLocation := location; u_currentRequestId := None;
     u_updatedAt := None |}.

Definition exampleRequestDoc (wasteType : WasteType) (status : RequestStatus)
    (collectorId : option string) : RequestDoc :=
  {| r_customerId := "awa@example.gm"; r_collectorId := collectorId;
     r_wasteType := wasteType; r_pickupLocation := pickupPoint;
     r_pickupAddress := "Kairaba Avenue"; r_estimatedPrice := 150%float;
     r_distance := None; r_status := status; r_assignedAt := None;
     r_completedAt := None; r_updatedAt := None; r_cancelReason := None |}.

(** Request [r1] is assigned to collector [c1], who is marked unavailable;
    request [r2] is pending. *)
Definition assignedRequestWorld : World :=
  set_users (fun _ =>
    [("c1", {| u_role := role_collector; u_name := "Lamin";
               u_phone := "2200001";
               u_wasteTypesHandled := [household; electronic];
               u_isAvailable := false;
               u_currentLocation :=
                 Some {| latitude := 0x1.aeb851eb851ecp+3;
                         longitude := -0x1.0947ae147ae14p+4 |};
               u_currentRequestId := Some "r1"; u_updatedAt := None |})])
    (set_requests (fun _ =>
       {["r1" := exampleRequestDoc household req_assigned (Some "c1");
         "r2" := exampleRequestDoc household req_pending None]})
       emptyWorld).

Definition pickupLocation : GeoLocation :=
  {| lat := latitude pickupPoint; lng := longitude pickupPoint;
     formattedAddress := Some "Kairaba Avenue" |}.

(** The specification's scenario: a request for [electronic] waste at
    (13.4549, -16.5790); collector [near-household] at (13.456, -16.579)
    handles household waste only; collector [far-electronic] at
    (13.46, -16.58) handles electronic and household waste. *)
Definition scenarioWorld : World :=
  set_users (fun _ =>
    [("far-electronic",
      exampleCollectorDoc "Fatou" [electronic; household] true
        (Some {| latitude := 0x1.aeb851eb851ecp+3;
                 longitude := -0x1.0947ae147ae14p+4 |}));
     ("near-household",
      exampleCollectorDoc "Modou" [household] true
        (Some {| latitude := 0x1.ae978d4fdf3b6p+3;
                 longitude := -0x1.094395810624ep+4 |}))])
    (set_requests (fun _ =>
       {["r1" := exampleRequestDoc electronic req_pending None]}) emptyWorld).

(** Two available collectors at the same place. *)
Definition tiePoint : GeoPoint :=
  {| latitude := 0x1.aeb851eb851ecp+3; longitude := -0x1.0947ae147ae14p+4 |}.

Definition tieWorld : World :=
  set_users (fun _ =>
    [("c-alpha", exampleCollectorDoc "Alpha" [household] true (Some tiePoint));
     ("c-beta", exampleCollectorDoc "Beta" [household] true (Some tiePoint))])
    emptyWorld.

(** A customer at (8, 0); collector [a-far] at the antipode (-8, 180) and
    collector [b-near] at the customer's own position. *)
Definition antipodalCustomer : GeoLocation :=
  {| lat := 8%float; lng := 0%float; formattedAddress := None |}.

Definition antipodalWorld : World :=
  set_users (fun _ =>
    [("a-far",
      exampleCollectorDoc "Awa" [household] true
        (Some {| latitude := (-8)%float; longitude := 180%float |}));
     ("b-near",
      exampleCollectorDoc "Binta" [household] true
        (Some {| latitude := 8%float; longitude := 0%float |}))])
    emptyWorld.

(** Request [r1] is pending and its payment is still pending; collector
    [c1] is available. *)
Definition unpaidWorld : World :=
  set_payments (fun _ =>
    [("pay1", {| p_requestId := "r1"; p_customerId := "awa@example.gm";
                 p_collectorId := ""; p_amount := 150%float;
                 p_status := payment_pending |})])
    (set_users (fun _ =>
       [("c1", exampleCollectorDoc "Lamin" [household] true (Some tiePoint))])
       (set_requests (fun _ =>
          {["r1" := exampleRequestDoc household req_pending None]})
          emptyWorld)).

(** Request [r1] is pending and paid; the only collector handles garden
    waste, so no collector is eligible for it. *)
Definition noCollectorWorld : World :=
  set_users (fun _ =>
    [("c1", exampleCollectorDoc "Lamin" [garden] true (Some tiePoint));
     ("c2", exampleCollectorDoc "Isatou" [household] false (Some tiePoint));
     ("c3", exampleCollectorDoc "Ebrima" [household] true None)])
    (set_requests (fun _ =>
       {["r1" := exampleRequestDoc household req_pending None]}) emptyWorld).

Definition exampleJob (status : JobStatus) (payment : JobPaymentStatus)
    (collectorId : option string) : RealtimeJob :=
  {| job_id := "j1"; job_customerId := "awa@example.gm";
     job_collectorId := collectorId; job_wasteType := "household";
     job_amount := 150%float; job_paymentStatus := payment;
     job_status := status |}.

(** A job whose payment is still pending, as the pending-jobs subscription
    offers it to the dashboard of collector [c1]. *)
Definition unpaidJobWorld : World :=
  set_jobs (fun _ => {["j1" := exampleJobNode job_pending pay_pending None]})
    emptyWorld.

Definition unpaidJobDashboard : Dashboard :=
  {| d_collectorId := "c1"; d_activeJob := None;
     d_incomingJob := Some (exampleJob job_pending pay_pending None);
     d_walletBalance := 0%float; d_remainingCapacity := 100%float |}.

(** Collector [c1] has a wallet holding 200 GMD. *)
Definition walletWorld : World :=
  set_wallets (fun _ =>
    {["c1" := {| w_balance := Some 200%float; w_updatedAt := 0 |}]}) emptyWorld.

(** Collector [c1] has accepted the paid job [j1] (150 GMD) and holds an
    empty wallet; the dashboard shows the job as active and a balance of 0. *)
Definition activeJobWorld : World :=
  set_wallets (fun _ =>
    {["c1" := {| w_balance := Some 0%float; w_updatedAt := 0 |}]})
    (set_activeJob (fun _ => {["c1" := "j1"]})
       (set_jobs (fun _ =>
          {["j1" := exampleJobNode job_accepted pay_paid (Some "c1")]})
          emptyWorld)).

Definition activeJobDashboard : Dashboard :=
  {| d_collectorId := "c1";
     d_activeJob := Some (exampleJob job_accepted pay_paid (Some "c1"));
     d_incomingJob := None;
     d_walletBalance := 0%float; d_remainingCapacity := 100%float |}.

(** Requests [r1] and [r2] are pending and collector [c1] is the only
    available collector. *)
Definition twoRequestsWorld : World :=
  set_users (fun _ =>
    [("c1", exampleCollectorDoc "Lamin" [household] true (Some tiePoint))])
    (set_requests (fun _ =>
       {["r1" := exampleRequestDoc household req_pending None;
         "r2" := exampleRequestDoc household req_pending None]})
       emptyWorld).

(** ** The rest of the wallet (lib/firestore.ts) and its caller *)

(** [export async function getWalletBalance(collectorId)] *)
Definition getWalletBalance (collectorId : string) : Async float :=
  let* walletDoc := reads (fun w => fs_wallets w !! collectorId) in
  match walletDoc with
  | Some data => ret (balanceOrZero (w_balance data))
  | None =>
      let* t := serverTimestamp in
      writes (set_wallets
        <[collectorId := {| w_balance := Some 0%float; w_updatedAt := t |}]>) ;;
      ret 0%float
  end.

(** [result.error || 'Withdrawal failed']: an absent and an empty text are
    falsy. *)
Definition errorOr (fallback : string) (message : option string) : string :=
  match message with
  | Some e => if bool_decide (e = "") then fallback else e
  | None => fallback
  end.

(** [const handleWithdraw = async () => ...] of the collector dashboard.
    [amount] is [parseFloat(withdrawAmount)]; the result is the text of the
    [alert] and the component state. A text is a sequence of code units
    below 256, so that [String.length] is [.length]. *)
Definition handleWithdraw (d : Dashboard) (amount : float)
    (withdrawPhone : string) : Async (string * Dashboard) :=
  if is_nan amount || (amount <=? 0)%float then
    ret ("Please enter a valid amount", d)
  else if bool_decide (withdrawPhone = "")
          || (String.length withdrawPhone <? 7)%nat then
    ret ("Please enter a valid phone number", d)
  else
    tryCatch
      (let* result :=
         withdrawFromWallet (d_collectorId d) amount "wave" withdrawPhone in
       if wr_success result then
         ret ("Withdrawal request submitted! You will receive your funds shortly.",
              {| d_collectorId := d_collectorId d;
                 d_activeJob := d_activeJob d;
                 d_incomingJob := d_incomingJob d;
                 d_walletBalance := (d_walletBalance d - amount)%float;
                 d_remainingCapacity := d_remainingCapacity d |})
       else ret (errorOr "Withdrawal failed" (wr_error result), d))
      (fun _ => ret ("Failed to process withdrawal", d)).

(** *** Vocabulary of the wallet properties *)

(** The latest transaction recorded for a wallet. *)
Definition lastTransaction (collectorId : string)
    (txs : list (string * WalletTransaction)) : option WalletTransaction :=
  snd <$> last (filter (fun tx => tx_walletId tx.2 = collectorId) txs).

(** The ledger agrees with the wallets: the balance a wallet stores is the
    [balanceAfter] of the latest transaction recorded for it. *)
Definition ledgerAgrees (w : World) : Prop :=
  forall collectorId tx,
    lastTransaction collectorId (fs_walletTransactions w) = Some tx ->
    w_balance <$> fs_wallets w !! collectorId = Some (Some (tx_balanceAfter tx)).

(** *** Vocabulary of the dispatch properties, continued *)

(** The world after [assignCollectorToRequest] on an existing request and
    collector document. *)
Definition assignedWorld (requestId collectorId : string) (distance : float)
    (request : RequestDoc) (w : World) : World :=
  set_users (map (fun iu : string * UserDoc =>
    if bool_decide (iu.1 = collectorId) then
      (iu.1,
       {| u_role := u_role iu.2; u_name := u_name iu.2;
          u_phone := u_phone iu.2;
          u_wasteTypesHandled := u_wasteTypesHandled iu.2;
          u_isAvailable := false;
          u_currentLocation := u_currentLocation iu.2;
          u_currentRequestId := Some requestId;
          u_updatedAt := Some (clock w) |})
    else iu))
    (set_requests
       <[requestId :=
           applyRequestPatch request
             {| rp_collectorId := Some collectorId;
                rp_distance := Some distance;
                rp_status := Some req_assigned;
                rp_assignedAt := Some (clock w);
                rp_completedAt := None; rp_updatedAt := Some (clock w);
                rp_cancelReason := None |}]> w).

(** ** What the dashboards are shown (lib/realtime.ts, the dashboard) *)

(** A text that is [undefined] or empty is falsy. *)
Definition truthy (s : option string) : bool :=
  match s with
  | Some t => negb (bool_decide (t = ""))
  | None => false
  end.

(** The array [subscribeToPendingJobs] hands to its callback on a snapshot
    of [jobs]: the jobs whose status is [pending] or [assigned], each with
    its key. The snapshot is walked in key order; the list is in the order
    [map_to_list] enumerates the nodes, and only membership is stated of
    it. *)
Definition subscribeToPendingJobs (jobs : gmap string JobNode)
    : list (string * JobNode) :=
  filter (fun kn => jn_status kn.2 = Some job_pending
                    \/ jn_status kn.2 = Some job_assigned)
         (map_to_list jobs).

(** The pending-jobs effect of the dashboard,
    [useEffect(() => { if (isOnline && !activeJob) { ... } })]: the
    dashboard is subscribed to the pending jobs only while the collector is
    online and it holds no active job. On a snapshot of [jobs] its callback
    then keeps as [pendingJobs] the jobs that carry no collector or this
    one, [jobs.filter(j => !j.collectorId || j.collectorId ===
    collectorId)], and makes the first of them the incoming job when it
    holds none (the order of the list is not modelled). The result is
    [None] when the dashboard is not subscribed: no callback runs and
    [pendingJobs] stays as it was. [isOnline] is the component state of
    this name. *)
Definition pendingJobsEffect (isOnline : bool) (d : Dashboard)
    (jobs : gmap string JobNode) : option (list (string * JobNode)) :=
  if isOnline && match d_activeJob d with Some _ => false | None => true end
  then
    Some (filter (fun kn => truthy (jn_collectorId kn.2) = false
                            \/ jn_collectorId kn.2 = Some (d_collectorId d))
                 (subscribeToPendingJobs jobs))
  else None.

(** The job [subscribeToCollectorActiveJob] hands to its callback: the node
    [collectors/{id}/activeJob] names, or [null] when the path is empty. *)
Definition subscribeToCollectorActiveJob (collectorId : string) (w : World)
    : option JobNode :=
  if truthy (rt_activeJob w !! collectorId) then
    rt_activeJob w !! collectorId ≫= fun jobId => rt_jobs w !! jobId
  else None.

(** The dashboard's callback: [job && job.status !== 'completed'] keeps the
    job as the active one. *)
Definition shownActiveJob (job : option JobNode) : option JobNode :=
  match job with
  | Some n => if decide (jn_status n = Some job_completed) then None else Some n
  | None => None
  end.

(** ** Collector presence in the Realtime Database (lib/realtime.ts) *)

(** The node [collectors/{id}/location]. *)
Record LocationNode := {
  loc_lat : float;
  loc_lng : float;
  loc_formattedAddress : option string;
  loc_timestamp : Z;
}.

(** The node [collectors/{id}/status]. *)
Record StatusNode := {
  st_online : bool;
  st_lastSeen : Z;
}.

(** The children [location] and [status] of the nodes [collectors/{id}];
    their child [activeJob] is [rt_activeJob] of the world. *)
Record Presence := {
  rt_location : gmap string LocationNode;
  rt_status : gmap string StatusNode;
}.

(** The Realtime Database stores no NaN and no infinity: [set] throws on
    a value that holds one. *)
Definition validNumber (x : float) : bool := is_finite x.

Module Realtime.

(** [export async function updateCollectorLocation(collectorId, location)];
    the server time is the clock of the world. *)
Definition updateCollectorLocation (collectorId : string)
    (location : GeoLocation) (w : World) (p : Presence)
    : Outcome unit * Presence :=
  if validNumber (lat location) && validNumber (lng location) then
    (Resolved tt,
     {| rt_location :=
          <[collectorId :=
              {| loc_lat := lat location; loc_lng := lng location;
                 loc_formattedAddress :=
                   Some (default "" (formattedAddress location));
                 loc_timestamp := clock w |}]> (rt_location p);
        rt_status := rt_status p |})
  else (Rejected "set failed: value argument contains an invalid number", p).

(** [export async function setCollectorOnlineStatus(collectorId, isOnline)] *)
Definition setCollectorOnlineStatus (collectorId : string) (isOnline : bool)
    (w : World) (p : Presence) : Presence :=
  {| rt_location := rt_location p;
     rt_status :=
       <[collectorId := {| st_online := isOnline; st_lastSeen := clock w |}]>
         (rt_status p) |}.

(** [export async function getOnlineCollectors()]: the collectors whose
    node has [status.online], a [location] and no [activeJob], each with
    its location. The snapshot is walked in key order; the list is in the
    order [map_to_list] enumerates the located collectors, and only
    membership is stated of it. *)
Definition getOnlineCollectors (w : World) (p : Presence)
    : list (string * GeoLocation) :=
  omap (fun kl : string * LocationNode =>
          if from_option st_online false (rt_status p !! kl.1)
             && negb (truthy (rt_activeJob w !! kl.1))
          then Some (kl.1,
                     {| lat := loc_lat kl.2; lng := loc_lng kl.2;
                        formattedAddress := loc_formattedAddress kl.2 |})
          else None)
       (map_to_list (rt_location p)).

End Realtime.

(** ** Requests and locations in Firestore (lib/firestore.ts) *)

(** [WasteSize] *)
Inductive WasteSize :=
  | size_small | size_medium | size_large | size_extra_large.

#[global] Instance WasteSize_eq_dec : EqDecision WasteSize.
Proof. solve_decision. Defined.

(** [new GeoPoint(latitude, longitude)] throws unless the latitude is a
    finite number between -90 and 90 and the longitude one between -180
    and 180. *)
Definition validGeoPoint (latitude longitude : float) : bool :=
  (is_finite latitude && negb (latitude <? -90) && negb (90 <? latitude)
   && (is_finite longitude && negb (longitude <? -180)
       && negb (180 <? longitude)))%float.

(** [export async function createPickupRequest(customerId, wasteType,
    wasteSize, pickupLocation, estimatedPrice)]. [requestId] is the id
    [doc(collection(db, 'requests'))] draws. The fields [wasteSize] and
    [createdAt] of the document are not among those a [RequestDoc]
    carries. *)
Definition createPickupRequest (requestId customerId : string)
    (wasteType : WasteType) (wasteSize : WasteSize)
    (pickupLocation : GeoLocation) (estimatedPrice : float) : Async string :=
  if validGeoPoint (lat pickupLocation) (lng pickupLocation) then
    writes (set_requests
      <[requestId :=
          {| r_customerId := customerId; r_collectorId := None;
             r_wasteType := wasteType;
             r_pickupLocation :=
               {| latitude := lat pickupLocation;
                  longitude := lng pickupLocation |};
             r_pickupAddress := default "" (formattedAddress pickupLocation);
             r_estimatedPrice := estimatedPrice; r_distance := None;
             r_status := req_pending; r_assignedAt := None;
             r_completedAt := None; r_updatedAt := None;
             r_cancelReason := None |}]>) ;;
    ret requestId
  else throw "invalid-argument".

Module Firestore.

(** [export async function updateCollectorLocation(collectorId, location)]
    of lib/firestore.ts: the Realtime Database first, then the document of
    [users]. [now] is [Date.now()]. The state is the presence tree and the
    world. *)
Definition updateCollectorLocation (collectorId : string)
    (location : GeoLocation) (now : Z) (s : Presence * World)
    : Outcome unit * (Presence * World) :=
  if validNumber (lat location) && validNumber (lng location) then
    let p' :=
      {| rt_location :=
           <[collectorId :=
               {| loc_lat := lat location; loc_lng := lng location;
                  loc_formattedAddress := None; loc_timestamp := now |}]>
             (rt_location s.1);
         rt_status := rt_status s.1 |} in
    if validGeoPoint (lat location) (lng location) then
      let r :=
        (let* t := serverTimestamp in
         firestore_updateUser collectorId (fun u =>
           {| u_role := u_role u; u_name := u_name u; u_phone := u_phone u;
              u_wasteTypesHandled := u_wasteTypesHandled u;
              u_isAvailable := u_isAvailable u;
              u_currentLocation :=
                Some {| latitude := lat location;
                        longitude := lng location |};
              u_currentRequestId := u_currentRequestId u;
              u_updatedAt := Some t |})) s.2 in
      (r.1, (p', r.2))
    else (Rejected "invalid-argument", (p', s.2))
  else (Rejected "set failed: value argument contains an invalid number", s).

End Firestore.

(** ** Numbers: [Math.round], [Math.min], [Math.max] *)

(** The number an integer of magnitude below 2^63 denotes. *)
Definition Z2Num (k : Z) : float :=
  if (k <? 0)%Z then (- of_uint63 (Uint63.of_Z (- k)))%float
  else of_uint63 (Uint63.of_Z k).

(** [Math.round(x)]: NaN, the infinities and the integral numbers are
    returned as they are; otherwise the integer closest to [x], the larger
    one in a tie, with the sign of [x] when it is zero. A finite number
    [m * 2^e] with [0 <= e] is integral; for [e < 0] the integer is
    [floor (x + 1/2)], computed exactly. *)
Definition Math_round (x : float) : float :=
  match Prim2SF x with
  | S754_finite s m e =>
      if (0 <=? e)%Z then x
      else
        let d := (2 ^ (- e))%Z in
        let n := (if s then Z.neg m else Z.pos m) in
        let k := ((2 * n + d) / (2 * d))%Z in
        if (k =? 0)%Z then (if s then (- 0)%float else 0%float) else Z2Num k
  | _ => x
  end.

(** [x] is [-0]. *)
Definition isNegativeZero (x : float) : bool := is_zero x && get_sign x.

(** [Math.min(a, b)]: NaN if either is NaN; [-0] is smaller than [+0]. *)
Definition Math_min (a b : float) : float :=
  if is_nan a || is_nan b then nan
  else if (a <? b)%float then a
  else if (b <? a)%float then b
  else if isNegativeZero a then a else b.

(** [Math.max(a, b)]: NaN if either is NaN; [+0] is larger than [-0]. *)
Definition Math_max (a b : float) : float :=
  if is_nan a || is_nan b then nan
  else if (a <? b)%float then b
  else if (b <? a)%float then a
  else if isNegativeZero a then b else a.

(** ** Prices (lib/waste-config.ts) *)

(** [WasteTypeInfo]; the icon and the colour, which are display only, are
    left out. *)
Record WasteTypeInfo := {
  wti_id : WasteType;
  wti_name : string;
  wti_description : string;
  wti_priceMultiplier : float;
}.

(** [export const WASTE_TYPES]; the multipliers are the binary64 values of
    1.0, 1.2, 2.0, 1.5, 1.8, 0.8, 2.5 and 0.7. *)
Definition WASTE_TYPES : list WasteTypeInfo :=
  [ {| wti_id := household; wti_name := "Household Waste";
       wti_description := "General household items, furniture, appliances";
       wti_priceMultiplier := 0x1p+0 |};
    {| wti_id := kitchen; wti_name := "Kitchen Waste";
       wti_description := "Food waste, organic materials, kitchen scraps";
       wti_priceMultiplier := 0x1.3333333333333p+0 |};
    {| wti_id := chemical; wti_name := "Chemical Waste";
       wti_description := "Paints, solvents, cleaning products";
       wti_priceMultiplier := 0x1p+1 |};
    {| wti_id := electronic; wti_name := "Electronic Waste";
       wti_description := "Computers, phones, TVs, electronic devices";
       wti_priceMultiplier := 0x1.8p+0 |};
    {| wti_id := construction; wti_name := "Construction Waste";
       wti_description := "Building materials, debris, renovation waste";
       wti_priceMultiplier := 0x1.ccccccccccccdp+0 |};
    {| wti_id := garden; wti_name := "Garden Waste";
       wti_description := "Leaves, branches, grass clippings";
       wti_priceMultiplier := 0x1.999999999999ap-1 |};
    {| wti_id := medical; wti_name := "Medical Waste";
       wti_description := "Medical supplies, equipment (non-hazardous)";
       wti_priceMultiplier := 0x1.4p+1 |};
    {| wti_id := recyclable; wti_name := "Recyclable Waste";
       wti_description := "Paper, cardboard, plastics, glass, metals";
       wti_priceMultiplier := 0x1.6666666666666p-1 |} ].

(** [WasteSizeInfo] *)
Record WasteSizeInfo := {
  wsi_id : WasteSize;
  wsi_name : string;
  wsi_description : string;
  wsi_estimatedWeight : string;
  wsi_priceMultiplier : float;
}.

(** [export const WASTE_SIZES]; the multipliers are 1.0, 1.5, 2.5, 4.0. *)
Definition WASTE_SIZES : list WasteSizeInfo :=
  [ {| wsi_id := size_small; wsi_name := "Small";
       wsi_description := "A few bags or small items";
       wsi_estimatedWeight := "Up to 10 kg";
       wsi_priceMultiplier := 0x1p+0 |};
    {| wsi_id := size_medium; wsi_name := "Medium";
       wsi_description := "Several bags or medium-sized items";
       wsi_estimatedWeight := "10 - 50 kg";
       wsi_priceMultiplier := 0x1.8p+0 |};
    {| wsi_id := size_large; wsi_name := "Large";
       wsi_description := "Many bags or large items";
       wsi_estimatedWeight := "50 - 150 kg";
       wsi_priceMultiplier := 0x1.4p+1 |};
    {| wsi_id := size_extra_large; wsi_name := "Extra Large";
       wsi_description := "Full room cleanup or very large items";
       wsi_estimatedWeight := "150+ kg";
       wsi_priceMultiplier := 0x1p+2 |} ].

(** [export const PRICING], in GMD. *)
Module PRICING.
Definition baseFee : float := 50.
Definition perKmRate : float := 10.
Definition minPrice : float := 75.
Definition maxPrice : float := 5000.
End PRICING.

(** [export const getWasteType = (id) => WASTE_TYPES.find(...)] *)
Definition getWasteType (id : WasteType) : option WasteTypeInfo :=
  List.find (fun type => bool_decide (wti_id type = id)) WASTE_TYPES.

(** [export const getWasteSize = (id) => WASTE_SIZES.find(...)] *)
Definition getWasteSize (id : WasteSize) : option WasteSizeInfo :=
  List.find (fun size => bool_decide (wsi_id size = id)) WASTE_SIZES.

(** [export const calculatePrice = (wasteType, wasteSize, distanceKm)] *)
Definition calculatePrice (wasteType : WasteType) (wasteSize : WasteSize)
    (distanceKm : float) : float :=
  match getWasteType wasteType, getWasteSize wasteSize with
  | Some typeInfo, Some sizeInfo =>
      let typeMultiplier := wti_priceMultiplier typeInfo in
      let sizeMultiplier := wsi_priceMultiplier sizeInfo in
      let distanceCost := (distanceKm * PRICING.perKmRate)%float in
      let totalPrice :=
        Math_round ((PRICING.baseFee + distanceCost) * typeMultiplier
                    * sizeMultiplier)%float in
      Math_max PRICING.minPrice (Math_min PRICING.maxPrice totalPrice)
  | _, _ => PRICING.minPrice
  end.

(** ** Payments (lib/firestore.ts) *)

#[global] Instance PaymentStatus_eq_dec : EqDecision PaymentStatus.
Proof. solve_decision. Defined.

(** The [method] of a payment. *)
Inductive PaymentMethod := method_modernpay | method_wave | method_card.

(** [x || 0] on a number: NaN and both zeros are falsy. *)
Definition orZero (x : float) : float :=
  if is_nan x || is_zero x then 0%float else x.

(** [export async function createPayment(requestId, customerId,
    collectorId, amount, method)]. The fields [currency], [method] and
    [createdAt] of the document are not among those a [PaymentDoc]
    carries. *)
Definition createPayment (requestId customerId collectorId : string)
    (amount : float) (method : PaymentMethod) : Async string :=
  let* paymentId := reads (fun w => autoId (fs_payments w)) in
  writes (set_payments (fun payments =>
    payments ++ [(paymentId,
                  {| p_requestId := requestId; p_customerId := customerId;
                     p_collectorId := collectorId; p_amount := amount;
                     p_status := payment_pending |})])) ;;
  ret paymentId.

(** [export async function getCollectorEarnings(collectorId)]: the sum,
    from 0, of [amount || 0] over the collector's completed payments, in
    the order the query returns them. *)
Definition getCollectorEarnings (collectorId : string) : Async float :=
  reads (fun w =>
    fold_left (fun total doc => (total + orZero (p_amount doc.2))%float)
      (filter (fun doc => p_collectorId doc.2 = collectorId
                          /\ p_status doc.2 = payment_completed)
              (fs_payments w))
      0%float).

(** ** Notifications (lib/firestore.ts, the dashboard) *)

(** The [type] of a notification. *)
Inductive NotificationType :=
  | notif_info | notif_success | notif_warning | notif_error.

(** A document of the Firestore collection [notifications]; its free-form
    [data] is left out. *)
Record NotificationDoc := {
  nd_userId : string;
  nd_title : string;
  nd_message : string;
  nd_type : NotificationType;
  nd_read : bool;
  nd_readAt : option Z;
  nd_createdAt : Z;
}.


(** [{ read: true, readAt: serverTimestamp() }] merged into a document. *)
Definition markRead (now : Z) (n : NotificationDoc) : NotificationDoc :=
  {| nd_userId := nd_userId n; nd_title := nd_title n;
     nd_message := nd_message n; nd_type := nd_type n;
     nd_read := true; nd_readAt := Some now;
     nd_createdAt := nd_createdAt n |}.

(** [export async function markNotificationAsRead(notificationId)];
    [updateDoc] rejects when the document does not exist. *)
Definition markNotificationAsRead (notificationId : string) (now : Z)
    (store : gmap string NotificationDoc)
    : Outcome unit * gmap string NotificationDoc :=
  match store !! notificationId with
  | Some n => (Resolved tt, <[notificationId := markRead now n]> store)
  | None => (Rejected "not-found", store)
  end.

(** [export async function markAllNotificationsAsRead(collectorId)]: every
    document the query [userId == collectorId, read == false] returns is
    updated. *)
Definition markAllNotificationsAsRead (collectorId : string) (now : Z)
    (store : gmap string NotificationDoc)
    : Outcome unit * gmap string NotificationDoc :=
  (Resolved tt,
   (fun n =>
      if decide (nd_userId n = collectorId /\ nd_read n = false)
      then markRead now n else n) <$> store).

(** A notification as the dashboard holds it in its component state (the
    texts it displays are left out). *)
Record Notification := {
  notification_id : string;
  notification_userId : string;
  notification_read : bool;
}.

(** [const handleMarkNotificationRead = async (id) => ...]: the dashboard's
    list follows the store only if the store accepted the update. *)
Definition handleMarkNotificationRead (id : string) (now : Z)
    (s : list Notification * gmap string NotificationDoc)
    : list Notification * gmap string NotificationDoc :=
  match markNotificationAsRead id now s.2 with
  | (Resolved _, store') =>
      (map (fun n =>
              if bool_decide (notification_id n = id) then
                {| notification_id := notification_id n;
                   notification_userId := notification_userId n;
                   notification_read := true |}
              else n) s.1,
       store')
  | (Rejected _, store') => (s.1, store')
  end.

(** [const handleMarkAllRead = async () => ...] *)
Definition handleMarkAllRead (collectorId : string) (now : Z)
    (s : list Notification * gmap string NotificationDoc)
    : list Notification * gmap string NotificationDoc :=
  match markAllNotificationsAsRead collectorId now s.2 with
  | (Resolved _, store') =>
      (map (fun n =>
              {| notification_id := notification_id n;
                 notification_userId := notification_userId n;
                 notification_read := true |}) s.1,
       store')
  | (Rejected _, store') => (s.1, store')
  end.

(** The dashboard's list mirrors the store: each notification it holds is a
    document of the collector, with the same [read] flag. *)
Definition mirrorsStore (collectorId : string)
    (s : list Notification * gmap string NotificationDoc) : Prop :=
  forall n, n ∈ s.1 ->
    exists doc,
      s.2 !! notification_id n = Some doc /\
      nd_userId doc = collectorId /\
      notification_userId n = collectorId /\
      nd_read doc = notification_read n.

(** Two notifications of collector [c1], one of them read, and one of
    another user; the dashboard of [c1] holds the first two. *)
Definition exampleNotifications : gmap string NotificationDoc :=
  {[ "n1" := {| nd_userId := "c1"; nd_title := "New job";
                nd_message := "A pickup is waiting"; nd_type := notif_info;
                nd_read := false; nd_readAt := None; nd_createdAt := 10 |};
     "n2" := {| nd_userId := "c1"; nd_title := "Paid";
                nd_message := "150 GMD received"; nd_type := notif_success;
                nd_read := true; nd_readAt := Some 15; nd_createdAt := 12 |};
     "n3" := {| nd_userId := "c2"; nd_title := "New job";
                nd_message := "A pickup is waiting"; nd_type := notif_info;
                nd_read := false; nd_readAt := None; nd_createdAt := 11 |} ]}.

Definition exampleNotificationList : list Notification :=
  [ {| notification_id := "n2"; notification_userId := "c1";
       notification_read := true |};
    {| notification_id := "n1"; notification_userId := "c1";
       notification_read := false |} ].

(** ** Collector settings (lib/firestore.ts, the settings page) *)

(** The [language] of the interface. *)
Inductive Language := lang_en | lang_wo | lang_ff.

(** [CollectorSettings] *)
Record CollectorSettings := {
  notificationsEnabled : bool;
  soundEnabled : bool;
  autoAcceptJobs : bool;
  maxDistance : float;
  preferredWasteTypes : list WasteType;
  darkMode : bool;
  language : Language;
}.

(** [Partial<CollectorSettings>]: any of the fields may be absent. It is
    also the shape of a document of [collectorSettings], next to its
    timestamps. *)
Record PartialSettings := {
  ps_notificationsEnabled : option bool;
  ps_soundEnabled : option bool;
  ps_autoAcceptJobs : option bool;
  ps_maxDistance : option float;
  ps_preferredWasteTypes : option (list WasteType);
  ps_darkMode : option bool;
  ps_language : option Language;
}.

(** A document of the Firestore collection [collectorSettings]. *)
Record SettingsDoc := {
  sd_fields : PartialSettings;
  sd_createdAt : option Z;
  sd_updatedAt : option Z;
}.

(** The settings every collector starts with. *)
Definition defaultSettings : CollectorSettings :=
  {| notificationsEnabled := true; soundEnabled := true;
     autoAcceptJobs := false; maxDistance := 10%float;
     preferredWasteTypes := []; darkMode := false; language := lang_en |}.

(** [{ ...a, ...b }] on partial settings: the fields of [b] win. *)
Definition spreadSettings (a b : PartialSettings) : PartialSettings :=
  {| ps_notificationsEnabled :=
       from_option Some (ps_notificationsEnabled a) (ps_notificationsEnabled b);
     ps_soundEnabled :=
       from_option Some (ps_soundEnabled a) (ps_soundEnabled b);
     ps_autoAcceptJobs :=
       from_option Some (ps_autoAcceptJobs a) (ps_autoAcceptJobs b);
     ps_maxDistance := from_option Some (ps_maxDistance a) (ps_maxDistance b);
     ps_preferredWasteTypes :=
       from_option Some (ps_preferredWasteTypes a) (ps_preferredWasteTypes b);
     ps_darkMode := from_option Some (ps_darkMode a) (ps_darkMode b);
     ps_language := from_option Some (ps_language a) (ps_language b) |}.

(** All the fields of some settings, as a partial one. *)
Definition allSettings (s : CollectorSettings) : PartialSettings :=
  {| ps_notificationsEnabled := Some (notificationsEnabled s);
     ps_soundEnabled := Some (soundEnabled s);
     ps_autoAcceptJobs := Some (autoAcceptJobs s);
     ps_maxDistance := Some (maxDistance s);
     ps_preferredWasteTypes := Some (preferredWasteTypes s);
     ps_darkMode := Some (darkMode s);
     ps_language := Some (language s) |}.

(** [{ ...prev, ...partial }] on full settings, as the settings page
    updates its component state. *)
Definition overrideSettings (prev : CollectorSettings)
    (partial : PartialSettings) : CollectorSettings :=
  {| notificationsEnabled :=
       default (notificationsEnabled prev) (ps_notificationsEnabled partial);
     soundEnabled := default (soundEnabled prev) (ps_soundEnabled partial);
     autoAcceptJobs :=
       default (autoAcceptJobs prev) (ps_autoAcceptJobs partial);
     maxDistance := default (maxDistance prev) (ps_maxDistance partial);
     preferredWasteTypes :=
       default (preferredWasteTypes prev) (ps_preferredWasteTypes partial);
     darkMode := default (darkMode prev) (ps_darkMode partial);
     language := default (language prev) (ps_language partial) |}.

(** [export async function getCollectorSettings(collectorId)]: each field
    is [data.field ?? its default]. *)
Definition getCollectorSettings (collectorId : string)
    (store : gmap string SettingsDoc) : CollectorSettings :=
  match store !! collectorId with
  | Some data => overrideSettings defaultSettings (sd_fields data)
  | None => defaultSettings
  end.

(** [export async function updateCollectorSettings(collectorId, settings)];
    [now] is the server time. *)
Definition updateCollectorSettings (collectorId : string)
    (settings : PartialSettings) (now : Z) (store : gmap string SettingsDoc)
    : gmap string SettingsDoc :=
  match store !! collectorId with
  | Some data =>
      <[collectorId :=
          {| sd_fields := spreadSettings (sd_fields data) settings;
             sd_createdAt := sd_createdAt data;
             sd_updatedAt := Some now |}]> store
  | None =>
      <[collectorId :=
          {| sd_fields := spreadSettings (allSettings defaultSettings) settings;
             sd_createdAt := Some now;
             sd_updatedAt := Some now |}]> store
  end.

(** ** Creating and paying a job (lib/realtime.ts, the payment page) *)

(** [export async function createJob(jobData)]: [set] replaces the node
    [jobs/{jobId}], where [jobId] is the key [push(jobsRef)] draws, and
    throws on a number that is NaN or infinite: the amount, or a coordinate
    of [pickupLocation]. The fields [id], [createdAt], [pickupLocation]
    and the customer's contact and address are not among those a [JobNode]
    carries; [pickupLocation] is passed beside it. *)
Definition createJob (jobId : string) (jobData : JobNode)
    (pickupLocation : GeoLocation) : Async string :=
  if from_option validNumber true (jn_amount jobData)
     && validNumber (lat pickupLocation) && validNumber (lng pickupLocation)
  then
    writes (set_jobs <[jobId := jobData]>) ;;
    ret jobId
  else throw "set failed: value argument contains an invalid number".

(** [handlePaymentComplete] of the payment-success page: [order] is the id
    of the order kept in [localStorage], [status] the [status] parameter
    of the address. The job is marked paid; [transactionId] and [paidAt]
    are not among the fields a [JobNode] carries. Errors are caught. *)
Definition handlePaymentComplete (order : option string)
    (status : option string) : Async unit :=
  match order with
  | Some jobId =>
      if truthy (Some jobId) && bool_decide (status = Some "completed") then
        tryCatch
          (rtdb_updateJob jobId
             {| jn_customerId := None; jn_collectorId := None;
                jn_wasteType := None; jn_amount := None;
                jn_paymentStatus := Some pay_paid; jn_status := None;
                jn_assignedAt := None; jn_completedAt := None |})
          (fun _ => ret tt)
      else ret tt
  | None => ret tt
  end.

(** ** The tracking page (app/track/[orderId]) *)

(** The text of a job status. *)
Definition statusText (status : JobStatus) : string :=
  match status with
  | job_pending => "pending"
  | job_assigned => "assigned"
  | job_accepted => "accepted"
  | job_in_progress => "in_progress"
  | job_completed => "completed"
  | job_cancelled => "cancelled"
  end.

(** An entry of [statusConfig] (its icon is left out). *)
Record StatusInfo := {
  si_label : string;
  si_color : string;
  si_description : string;
}.

(** [const statusConfig: Record<OrderStatus, ...>], looked up by key; a
    key it does not hold gives [undefined]. *)
Definition statusConfig (key : string) : option StatusInfo :=
  if bool_decide (key = "pending") then
    Some {| si_label := "Finding Collector"; si_color := "bg-amber-500";
            si_description :=
              "Looking for an available collector near you..." |}
  else if bool_decide (key = "assigned") then
    Some {| si_label := "Collector Assigned"; si_color := "bg-blue-500";
            si_description := "A collector has accepted your request!" |}
  else if bool_decide (key = "en_route") then
    Some {| si_label := "On The Way"; si_color := "bg-emerald-500";
            si_description := "Your collector is heading to your location." |}
  else if bool_decide (key = "arrived") then
    Some {| si_label := "Collector Arrived"; si_color := "bg-purple-500";
            si_description :=
              "The collector has arrived at your location!" |}
  else if bool_decide (key = "completed") then
    Some {| si_label := "Completed"; si_color := "bg-emerald-600";
            si_description :=
              "Your pickup has been completed successfully." |}
  else if bool_decide (key = "cancelled") then
    Some {| si_label := "Cancelled"; si_color := "bg-red-500";
            si_description := "This pickup was cancelled." |}
  else None.

(** [const currentStatus = (job?.status as OrderStatus) || 'pending'] *)
Definition currentStatus (job : option JobNode) : string :=
  match job ≫= jn_status with
  | Some status => statusText status
  | None => "pending"
  end.

(** [const statusInfo = statusConfig[currentStatus]] *)
Definition statusInfo (job : option JobNode) : option StatusInfo :=
  statusConfig (currentStatus job).

(** The steps of the progress bar. *)
Definition progressSteps : list string :=
  ["pending"; "assigned"; "en_route"; "arrived"; "completed"].

(** [steps.indexOf(key)], -1 when the key is not a step. *)
Fixpoint indexOf (key : string) (steps : list string) (from : Z) : Z :=
  match steps with
  | [] => -1
  | step :: rest =>
      if bool_decide (step = key) then from else indexOf key rest (from + 1)
  end.

(** [const isActive = steps.indexOf(currentStatus) >= index], for the step
    at [index]. *)
Definition isActive (job : option JobNode) (index : Z) : bool :=
  index <=? indexOf (currentStatus job) progressSteps 0.

(** * Facts about binary64 arithmetic *)

Lemma SF_compare_nan_l y : SFcompare S754_nan y = None.
Proof. reflexivity. Qed.

Lemma SF_compare_nan_r x : SFcompare x S754_nan = None.
Proof. destruct x; reflexivity. Qed.

Lemma SF_compare_key x y :
  SF_is_nan x = false -> SF_is_nan y = false ->
  SFcompare x y = Some (SF_lex3 (SF_key x) (SF_key y)).
Proof.
  destruct x as [sx|sx| |sx mx ex], y as [sy|sy| |sy my ey];
    try discriminate; intros _ _;
    try (destruct sx; destruct sy; reflexivity);
    try (destruct sx; reflexivity); try (destruct sy; reflexivity).
  destruct sx, sy; cbn [SFcompare SF_key SF_lex3]; try reflexivity.
  rewrite Z.compare_opp, (Z.compare_antisym ey ex).
  destruct (ey ?= ex); reflexivity.
Qed.

Lemma SF_lex3_lt a b :
  SF_lex3 a b = Lt <->
  (a.1.1 < b.1.1 \/ (a.1.1 = b.1.1 /\
     (a.1.2 < b.1.2 \/ (a.1.2 = b.1.2 /\ a.2 < b.2)))).
Proof.
  destruct a as [[a1 a2] a3], b as [[b1 b2] b3]; cbn.
  destruct (Z.compare_spec a1 b1), (Z.compare_spec a2 b2);
    rewrite ?Z.compare_lt_iff; split; intros;
    try discriminate; try reflexivity; lia.
Qed.

Lemma SF_lex3_eq a b : SF_lex3 a b = Eq <-> a = b.
Proof.
  destruct a as [[a1 a2] a3], b as [[b1 b2] b3]; cbn.
  destruct (Z.compare_spec a1 b1), (Z.compare_spec a2 b2);
    rewrite ?Z.compare_eq_iff; split; intros H'; try discriminate;
    try (injection H'; intros); subst; try lia; reflexivity.
Qed.

Lemma SF_lex3_gt a b : SF_lex3 a b = Gt <-> SF_lex3 b a = Lt.
Proof.
  destruct a as [[a1 a2] a3], b as [[b1 b2] b3]; cbn.
  rewrite (Z.compare_antisym a1 b1), (Z.compare_antisym a2 b2),
    (Z.compare_antisym a3 b3).
  destruct (a1 ?= b1), (a2 ?= b2), (a3 ?= b3); cbn; split; congruence.
Qed.

(** [SFltb] is a strict order, compatible with [SFeqb]. *)
Lemma SF_ltb_nan x y : SFltb x y = true -> SF_is_nan x = false /\ SF_is_nan y = false.
Proof.
  unfold SFltb. destruct x, y; cbn; try discriminate; auto.
Qed.

Lemma SF_eqb_nan x y : SFeqb x y = true -> SF_is_nan x = false /\ SF_is_nan y = false.
Proof.
  unfold SFeqb. destruct x, y; cbn; try discriminate; auto.
Qed.

Lemma SF_ltb_key x y :
  SFltb x y = true <->
  SF_is_nan x = false /\ SF_is_nan y = false /\ SF_lex3 (SF_key x) (SF_key y) = Lt.
Proof.
  split.
  - intros H. destruct (SF_ltb_nan _ _ H) as [Hx Hy]. repeat split; auto.
    unfold SFltb in H. rewrite (SF_compare_key _ _ Hx Hy) in H.
    destruct (SF_lex3 (SF_key x) (SF_key y)); congruence.
  - intros (Hx & Hy & H). unfold SFltb. now rewrite (SF_compare_key _ _ Hx Hy), H.
Qed.

Lemma SF_eqb_key x y :
  SFeqb x y = true <->
  SF_is_nan x = false /\ SF_is_nan y = false /\ SF_key x = SF_key y.
Proof.
  split.
  - intros H. destruct (SF_eqb_nan _ _ H) as [Hx Hy]. repeat split; auto.
    unfold SFeqb in H. rewrite (SF_compare_key _ _ Hx Hy) in H.
    apply SF_lex3_eq. destruct (SF_lex3 (SF_key x) (SF_key y)); congruence.
  - intros (Hx & Hy & H). unfold SFeqb. rewrite (SF_compare_key _ _ Hx Hy).
    apply SF_lex3_eq in H. now rewrite H.
Qed.

Lemma SF_leb_key x y :
  SFleb x y = true <->
  SF_is_nan x = false /\ SF_is_nan y = false /\ SF_lex3 (SF_key x) (SF_key y) <> Gt.
Proof.
  split.
  - intros H.
    assert (Hn : SF_is_nan x = false /\ SF_is_nan y = false)
      by (unfold SFleb in H; destruct x, y; cbn in *; try discriminate; auto).
    destruct Hn as [Hx Hy]. repeat split; auto.
    unfold SFleb in H. rewrite (SF_compare_key _ _ Hx Hy) in H.
    destruct (SF_lex3 (SF_key x) (SF_key y)); congruence.
  - intros (Hx & Hy & H). unfold SFleb. rewrite (SF_compare_key _ _ Hx Hy).
    destruct (SF_lex3 (SF_key x) (SF_key y)); congruence.
Qed.

Lemma SF_ltb_irrefl x : SFltb x x = false.
Proof.
  destruct (SFltb x x) eqn:E; [|reflexivity].
  apply SF_ltb_key in E as (_ & _ & E). apply SF_lex3_lt in E. lia.
Qed.

Lemma SF_ltb_trans x y z :
  SFltb x y = true -> SFltb y z = true -> SFltb x z = true.
Proof.
  rewrite !SF_ltb_key, !SF_lex3_lt. intros (? & ? & ?) (? & ? & ?).
  repeat split; auto. lia.
Qed.

Lemma SF_eqb_ltb_trans x y z :
  SFeqb x y = true -> SFltb y z = true -> SFltb x z = true.
Proof.
  rewrite SF_eqb_key, !SF_ltb_key. intros (? & ? & E) (? & ? & ?).
  rewrite E. auto.
Qed.

Lemma SF_ltb_eqb_trans x y z :
  SFltb x y = true -> SFeqb y z = true -> SFltb x z = true.
Proof.
  rewrite SF_eqb_key, !SF_ltb_key. intros (? & ? & ?) (? & ? & E).
  rewrite <- E. auto.
Qed.

Lemma SF_nlt_leb x y :
  SF_is_nan x = false -> SF_is_nan y = false ->
  SFltb x y = false -> SFleb y x = true.
Proof.
  intros Hx Hy H. apply SF_leb_key. repeat split; auto.
  intros G. apply SF_lex3_gt in G.
  assert (SFltb x y = true) by (apply SF_ltb_key; auto). congruence.
Qed.

Lemma SF_leb_nlt x y : SFleb y x = true -> SFltb x y = false.
Proof.
  rewrite SF_leb_key. intros (Hy & Hx & H).
  destruct (SFltb x y) eqn:E; [|reflexivity].
  apply SF_ltb_key in E as (_ & _ & E). apply SF_lex3_gt in E. congruence.
Qed.

(** The sign of a result is carried through rounding unchanged, so negating
    an operand negates a product, a quotient and a (non-zero) difference. *)
Lemma SF_opp_involutive x : SFopp (SFopp x) = x.
Proof.
  destruct x as [s|s| |s m e]; cbn; rewrite ?negb_involutive; reflexivity.
Qed.

Section Rounding.
Variables prec emax : Z.

Lemma SF_binary_round_aux_opp s m e l :
  binary_round_aux prec emax (negb s) m e l
  = SFopp (binary_round_aux prec emax s m e l).
Proof.
  unfold binary_round_aux.
  destruct (shr_fexp prec emax m e l) as [mrs' e'].
  destruct (shr_fexp prec emax _ e' loc_Exact) as [mrs'' e''].
  destruct (shr_m mrs''); try reflexivity.
  destruct (_ <=? _); reflexivity.
Qed.

Lemma SF_binary_round_opp s m e :
  binary_round prec emax (negb s) m e = SFopp (binary_round prec emax s m e).
Proof.
  unfold binary_round. destruct (shl_align _ _ _) as [mz ez].
  apply SF_binary_round_aux_opp.
Qed.

Lemma SF_binary_normalize_opp m e :
  m <> 0 ->
  binary_normalize prec emax (- m) e false
  = SFopp (binary_normalize prec emax m e false).
Proof.
  destruct m as [|p|p]; cbn [binary_normalize Z.opp]; intros H.
  - congruence.
  - apply (SF_binary_round_opp false).
  - rewrite (SF_binary_round_opp false), SF_opp_involutive. reflexivity.
Qed.

Lemma SF_mul_comm x y : SFmul prec emax x y = SFmul prec emax y x.
Proof.
  destruct x as [sx|sx| |sx mx ex], y as [sy|sy| |sy my ey]; cbn;
    rewrite ?(xorb_comm sx sy); try reflexivity.
  now rewrite Pos.mul_comm, Z.add_comm.
Qed.

Lemma SF_mul_opp_l x y :
  SFmul prec emax (SFopp x) y = SFopp (SFmul prec emax x y).
Proof.
  destruct x as [sx|sx| |sx mx ex], y as [sy|sy| |sy my ey]; cbn;
    rewrite <- ?negb_xorb_l; try reflexivity.
  apply SF_binary_round_aux_opp.
Qed.

Lemma SF_div_opp_l x y :
  SFdiv prec emax (SFopp x) y = SFopp (SFdiv prec emax x y).
Proof.
  destruct x as [sx|sx| |sx mx ex], y as [sy|sy| |sy my ey];
    cbn [SFdiv SFopp]; rewrite <- ?negb_xorb_l; try reflexivity.
  destruct (SFdiv_core_binary _ _ _ _ _ _) as [[mz ez] lz].
  apply SF_binary_round_aux_opp.
Qed.

(** [y - x] is the opposite of [x - y], except that both are [+0] when the
    operands cancel. *)
Lemma SF_sub_swap x y :
  SFsub prec emax y x = SFopp (SFsub prec emax x y) \/
  (SFsub prec emax x y = S754_zero false /\
   SFsub prec emax y x = S754_zero false).
Proof.
  destruct x as [sx|sx| |sx mx ex], y as [sy|sy| |sy my ey];
    try (destruct sx, sy; cbn; auto; fail);
    try (destruct sx; cbn; auto; fail);
    try (destruct sy; cbn; auto; fail);
    try (cbn; rewrite ?negb_involutive; auto; fail).
  cbn [SFsub]. rewrite (Z.min_comm ey ex).
  set (a := cond_Zopp sx _). set (b := cond_Zopp sy _).
  destruct (Z.eq_dec (a - b) 0) as [E|E].
  - right. replace (b - a) with 0 by lia. rewrite E. auto.
  - left. replace (b - a) with (- (a - b)) by lia.
    now apply SF_binary_normalize_opp.
Qed.

Lemma SF_sub_diag_finite s m e :
  SFsub prec emax (S754_finite s m e) (S754_finite s m e) = S754_zero false.
Proof. cbn [SFsub]. now rewrite Z.sub_diag. Qed.

End Rounding.

Lemma SF_digits2_pos_gt p : Z.pos p < 2 ^ Z.pos (digits2_pos p).
Proof.
  induction p as [p IH|p IH|]; cbn [digits2_pos];
    rewrite ?Pos2Z.inj_succ, ?Z.pow_succ_r by lia; lia.
Qed.

Lemma SF_digits2_pos_le p k :
  0 <= k -> Z.pos p < 2 ^ k -> Z.pos (digits2_pos p) <= k.
Proof.
  revert k. induction p as [p IH|p IH|]; intros k Hk H; cbn [digits2_pos];
    (destruct (Z.eq_dec k 0) as [->|]; [cbn in H; lia|]); [| |lia];
    rewrite Pos2Z.inj_succ; replace k with (Z.succ (k - 1)) in H by lia;
    rewrite Z.pow_succ_r in H by lia; specialize (IH (k - 1)); lia.
Qed.

Lemma SF_Zdigits2_le m k : 0 <= k -> 0 <= m < 2 ^ k -> Zdigits2 m <= k.
Proof.
  intros Hk [H0 H]. destruct m as [|p|p]; cbn; try lia.
  now apply SF_digits2_pos_le.
Qed.

Lemma SF_shr_1_m mrs : 0 <= shr_m mrs -> 0 <= shr_m (shr_1 mrs) <= shr_m mrs.
Proof.
  destruct mrs as [m r s]. cbn [shr_m]. intros H.
  destruct m as [|[p|p|]|p]; cbn; lia.
Qed.

Lemma SF_iter_shr_1_m p mrs :
  0 <= shr_m mrs ->
  0 <= shr_m (SpecFloat.iter_pos shr_1 p mrs) <= shr_m mrs.
Proof.
  revert mrs. induction p as [p IH|p IH|]; intros mrs H;
    cbn [SpecFloat.iter_pos].
  - pose proof (SF_shr_1_m mrs H) as H1.
    pose proof (IH _ (proj1 H1)) as H2.
    pose proof (IH _ (proj1 H2)) as H3. lia.
  - pose proof (IH _ H) as H2.
    pose proof (IH _ (proj1 H2)) as H3. lia.
  - now apply SF_shr_1_m.
Qed.

Lemma SF_shr_fexp_m prec emax m e l :
  0 <= m -> 0 <= shr_m (fst (shr_fexp prec emax m e l)) <= m.
Proof.
  intros H. unfold shr_fexp, shr.
  assert (E : shr_m (shr_record_of_loc m l) = m)
    by (destruct l as [|[]]; reflexivity).
  destruct (_ - e) as [|p|p]; cbn [fst]; rewrite ?E; try lia.
  rewrite <- E at 3. apply SF_iter_shr_1_m. now rewrite E.
Qed.

Lemma SF_shr_fexp_e prec emax m e l :
  snd (shr_fexp prec emax m e l) = Z.max e (fexp prec emax (Zdigits2 m + e)).
Proof.
  unfold shr_fexp, shr.
  destruct (_ - e) as [|p|p] eqn:E; cbn [snd]; lia.
Qed.

Lemma SF_round_nearest_even_bound m l : m <= round_nearest_even m l <= m + 1.
Proof.
  destruct l as [|[]]; cbn; try lia. destruct (Z.even m); lia.
Qed.

Lemma SF_binary_round_aux_small s m e l :
  0 <= m < 2 ^ 106 -> e <= -104 ->
  SF_is_finite (binary_round_aux prec emax s m e l) = true.
Proof.
  intros Hm He. unfold binary_round_aux.
  pose proof (SF_shr_fexp_m prec emax m e l (proj1 Hm)) as Hm1.
  pose proof (SF_shr_fexp_e prec emax m e l) as He1.
  destruct (shr_fexp prec emax m e l) as [mrs' e']. cbn [fst snd] in *.
  set (m1 := round_nearest_even _ _).
  pose proof (SF_round_nearest_even_bound (shr_m mrs') (loc_of_shr_record mrs'))
    as Hr.
  fold m1 in Hr.
  assert (H1 : 0 <= m1) by lia.
  pose proof (SF_shr_fexp_m prec emax m1 e' loc_Exact H1) as Hm2.
  pose proof (SF_shr_fexp_e prec emax m1 e' loc_Exact) as He2.
  destruct (shr_fexp prec emax m1 e' loc_Exact) as [mrs'' e''].
  cbn [fst snd] in *.
  assert (Hd : Zdigits2 m <= 106) by (apply SF_Zdigits2_le; lia).
  assert (Hd1 : Zdigits2 m1 <= 107).
  { apply SF_Zdigits2_le; [lia|]. split; [lia|].
    change (2 ^ 107) with (2 * 2 ^ 106). lia. }
  unfold fexp, SpecFloat.emin in *. unfold prec, emax in *.
  destruct (shr_m mrs'') as [|p|p]; [reflexivity| |lia].
  destruct (Z.leb_spec e'' (1024 - 53)); [reflexivity|lia].
Qed.

Lemma SF_mul_small x y :
  valid_binary x = true -> valid_binary y = true ->
  SFleb (SFabs x) SF_one = true -> SFleb (SFabs y) SF_one = true ->
  SF_is_finite (SF64mul x y) = true.
Proof.
  intros Vx Vy Lx Ly.
  destruct x as [sx|sx| |sx mx ex];
    [|cbv in Lx; discriminate Lx|cbv in Lx; discriminate Lx|];
    (destruct y as [sy|sy| |sy my ey];
     [|cbv in Ly; discriminate Ly|cbv in Ly; discriminate Ly|]);
    [reflexivity|reflexivity|reflexivity|].
  unfold valid_binary, SpecFloat.valid_binary, bounded, canonical_mantissa in Vx, Vy.
  unfold SFleb in Lx, Ly. cbn [SFabs SFcompare SF_one] in Lx, Ly.
  apply andb_true_iff in Vx as [Vx _]. apply andb_true_iff in Vy as [Vy _].
  apply Z.eqb_eq in Vx, Vy. unfold fexp, SpecFloat.emin, prec, emax in Vx, Vy.
  assert (ex <= -52)
    by (destruct (Z.compare_spec ex (-52)); [lia|lia|discriminate]).
  assert (ey <= -52)
    by (destruct (Z.compare_spec ey (-52)); [lia|lia|discriminate]).
  pose proof (SF_digits2_pos_gt mx). pose proof (SF_digits2_pos_gt my).
  assert (Z.pos mx < 2 ^ 53).
  { eapply Z.lt_le_trans; [eassumption|]. apply Z.pow_le_mono_r; lia. }
  assert (Z.pos my < 2 ^ 53).
  { eapply Z.lt_le_trans; [eassumption|]. apply Z.pow_le_mono_r; lia. }
  unfold SF64mul, SFmul. apply SF_binary_round_aux_small; [|lia].
  rewrite Pos2Z.inj_mul. change (2 ^ 106) with (2 ^ 53 * 2 ^ 53).
  split; [lia|]. apply Z.mul_lt_mono_nonneg; lia.
Qed.

Lemma SF_mul_zero_r x :
  SF_is_finite x = true ->
  exists s, SF64mul x (S754_zero false) = S754_zero s.
Proof. destruct x as [s|s| |s m e]; cbn; try discriminate; eauto. Qed.

(** *** Order and subtraction *)

Lemma SF_lex3_le_trans a b c :
  SF_lex3 a b <> Gt -> SF_lex3 b c <> Gt -> SF_lex3 a c <> Gt.
Proof.
  rewrite !SF_lex3_gt, !SF_lex3_lt. lia.
Qed.

Lemma SF_leb_trans x y z :
  SFleb x y = true -> SFleb y z = true -> SFleb x z = true.
Proof.
  rewrite !SF_leb_key. intros (? & ? & ?) (? & ? & ?).
  repeat split; auto. eapply SF_lex3_le_trans; eauto.
Qed.

Lemma SF_iter_xO_double m d : 2 * Z.pos m <= Z.pos (Pos.iter xO m d).
Proof.
  induction d as [|d IH] using Pos.peano_ind.
  - cbn. lia.
  - rewrite Pos.iter_succ. lia.
Qed.

Lemma SF_digits2_pos_lb p : 2 ^ (Z.pos (digits2_pos p) - 1) <= Z.pos p.
Proof.
  induction p as [p IH|p IH|]; cbn [digits2_pos]; [| |cbn; lia];
    rewrite Pos2Z.inj_succ;
    replace (Z.succ (Z.pos (digits2_pos p)) - 1)
      with (Z.succ (Z.pos (digits2_pos p) - 1)) by lia;
    rewrite Z.pow_succ_r by lia; lia.
Qed.

Lemma SF_binary_round_aux_nonneg m e l :
  SFltb (binary_round_aux prec emax false m e l) (S754_zero false) = false.
Proof.
  unfold binary_round_aux.
  destruct (shr_fexp prec emax m e l) as [mrs' e'].
  destruct (shr_fexp prec emax _ e' loc_Exact) as [mrs'' e''].
  destruct (shr_m mrs''); try reflexivity.
  destruct (_ <=? _); reflexivity.
Qed.

Lemma SF_binary_normalize_nonneg k e :
  0 <= k ->
  SFltb (binary_normalize prec emax k e false) (S754_zero false) = false.
Proof.
  destruct k as [|p|p]; intros H; [reflexivity| |lia].
  cbn [binary_normalize]. unfold binary_round.
  destruct (shl_align _ _ _) as [mz ez]. apply SF_binary_round_aux_nonneg.
Qed.

(** The difference of two positive numbers, the larger first, is not
    negative. *)
Lemma SF_sub_nonneg_finite mx ex my ey :
  valid_binary (S754_finite false mx ex) = true ->
  valid_binary (S754_finite false my ey) = true ->
  SFleb (S754_finite false my ey) (S754_finite false mx ex) = true ->
  SFltb (SF64sub (S754_finite false mx ex) (S754_finite false my ey))
        (S754_zero false) = false.
Proof.
  unfold valid_binary, SpecFloat.valid_binary, bounded, canonical_mantissa.
  intros Vx Vy L.
  apply andb_true_iff in Vx as [Vx _]. apply andb_true_iff in Vy as [Vy _].
  apply Z.eqb_eq in Vx, Vy. unfold fexp, SpecFloat.emin, prec, emax in Vx, Vy.
  unfold SFleb in L. cbn [SFcompare] in L.
  unfold SF64sub, SFsub. apply SF_binary_normalize_nonneg.
  cbn [cond_Zopp].
  destruct (Z.compare_spec ey ex) as [E|E|E]; [| |discriminate L].
  - subst ey. rewrite Z.min_id. unfold shl_align. rewrite Z.sub_diag. cbn [fst].
    change (PosDef.Pos.compare_cont Eq my mx) with (Pos.compare my mx) in L.
    destruct (Pos.compare_spec my mx); [lia|lia|discriminate L].
  - rewrite Z.min_r by lia. unfold shl_align. rewrite Z.sub_diag.
    destruct (ey - ex) as [|d|d] eqn:Ed; [lia|lia|]. cbn [fst].
    pose proof (SF_iter_xO_double mx d).
    pose proof (SF_digits2_pos_gt my). pose proof (SF_digits2_pos_lb mx).
    assert (Hdx : Z.pos (digits2_pos mx) = 53) by lia.
    assert (Hdy : Z.pos (digits2_pos my) <= 53) by lia.
    rewrite Hdx in *.
    assert (Z.pos my < 2 ^ 53).
    { eapply Z.lt_le_trans; [eassumption|]. apply Z.pow_le_mono_r; lia. }
    change (2 ^ (53 - 1)) with (2 ^ 52) in *.
    change (2 ^ 53) with (2 * 2 ^ 52) in *. lia.
Qed.

(** ** The same facts on the primitive [float] *)

Section NumberFacts.
Local Open Scope float_scope.

Lemma Num_Prim2SF_zero : Prim2SF 0 = S754_zero false.
Proof. reflexivity. Qed.

Lemma Num_Prim2SF_infinity : Prim2SF infinity = S754_infinity false.
Proof. reflexivity. Qed.

Lemma Num_is_nan_spec x : is_nan x = SF_is_nan (Prim2SF x).
Proof.
  unfold is_nan. rewrite FloatAxioms.eqb_spec. unfold SFeqb.
  destruct (Prim2SF x) as [s|s| |s m e]; cbn;
    try reflexivity; destruct s; try reflexivity;
    rewrite Z.compare_refl, Pos.compare_cont_refl; reflexivity.
Qed.

(** A finite number is a zero or a signed mantissa and exponent. *)
Lemma Num_is_finite_spec x :
  is_finite x = true ->
  (exists s, Prim2SF x = S754_zero s) \/
  (exists s m e, Prim2SF x = S754_finite s m e).
Proof.
  unfold is_finite, is_infinity. rewrite Num_is_nan_spec, FloatAxioms.eqb_spec, abs_spec.
  rewrite Num_Prim2SF_infinity.
  destruct (Prim2SF x) as [s|s| |s m e]; cbn; try discriminate; eauto.
Qed.

Lemma Num_opp_involutive x : - - x = x.
Proof. apply Prim2SF_inj. rewrite !opp_spec. apply SF_opp_involutive. Qed.

Lemma Num_mul_comm x y : x * y = y * x.
Proof. apply Prim2SF_inj. rewrite !mul_spec. apply SF_mul_comm. Qed.

Lemma Num_mul_opp_l x y : - x * y = - (x * y).
Proof.
  apply Prim2SF_inj. rewrite opp_spec, !mul_spec, opp_spec. apply SF_mul_opp_l.
Qed.

Lemma Num_mul_opp_r x y : x * - y = - (x * y).
Proof. rewrite (Num_mul_comm x (- y)), Num_mul_opp_l, (Num_mul_comm y x). reflexivity. Qed.

Lemma Num_mul_opp_opp x y : - x * - y = x * y.
Proof. rewrite Num_mul_opp_l, Num_mul_opp_r. apply Num_opp_involutive. Qed.

Lemma Num_div_opp_l x y : - x / y = - (x / y).
Proof.
  apply Prim2SF_inj. rewrite opp_spec, !div_spec, opp_spec. apply SF_div_opp_l.
Qed.

Lemma Num_sub_swap x y : y - x = - (x - y) \/ (x - y = 0 /\ y - x = 0).
Proof.
  destruct (SF_sub_swap prec emax (Prim2SF x) (Prim2SF y)) as [H|[H1 H2]].
  - left. apply Prim2SF_inj. now rewrite opp_spec, !sub_spec.
  - right. split; apply Prim2SF_inj; now rewrite sub_spec, Num_Prim2SF_zero.
Qed.

Lemma Num_sub_diag x : is_finite x = true -> x - x = 0.
Proof.
  intros H. apply Prim2SF_inj. rewrite sub_spec, Num_Prim2SF_zero.
  destruct (Num_is_finite_spec x H) as [[s E]|(s & m & e & E)]; rewrite E.
  - destruct s; reflexivity.
  - apply SF_sub_diag_finite.
Qed.

(** The order of numbers. *)
Lemma Num_ltb_irrefl x : (x <? x) = false.
Proof. rewrite FloatAxioms.ltb_spec. apply SF_ltb_irrefl. Qed.

Lemma Num_ltb_trans x y z : (x <? y) = true -> (y <? z) = true -> (x <? z) = true.
Proof. rewrite !FloatAxioms.ltb_spec. apply SF_ltb_trans. Qed.

Lemma Num_eqb_ltb_trans x y z :
  (x =? y) = true -> (y <? z) = true -> (x <? z) = true.
Proof. rewrite FloatAxioms.eqb_spec, !FloatAxioms.ltb_spec. apply SF_eqb_ltb_trans. Qed.

Lemma Num_nlt_leb x y :
  is_nan x = false -> is_nan y = false -> (x <? y) = false -> (y <=? x) = true.
Proof. rewrite !Num_is_nan_spec, FloatAxioms.ltb_spec, FloatAxioms.leb_spec. apply SF_nlt_leb. Qed.

Lemma Num_leb_nlt x y : (y <=? x) = true -> (x <? y) = false.
Proof. rewrite FloatAxioms.ltb_spec, FloatAxioms.leb_spec. apply SF_leb_nlt. Qed.

Lemma Num_eqb_refl x : is_nan x = false -> (x =? x) = true.
Proof. unfold is_nan. now destruct (x =? x). Qed.

Lemma Num_Prim2SF_one : Prim2SF 1 = SF_one.
Proof. reflexivity. Qed.

Lemma Num_is_finite_SF x : is_finite x = SF_is_finite (Prim2SF x).
Proof.
  unfold is_finite, is_infinity.
  rewrite Num_is_nan_spec, FloatAxioms.eqb_spec, abs_spec, Num_Prim2SF_infinity.
  destruct (Prim2SF x) as [s|s| |s m e]; reflexivity.
Qed.

(** Numbers of magnitude at most one multiply without overflow. *)
Lemma Num_mul_small x y :
  (abs x <=? 1) = true -> (abs y <=? 1) = true -> is_finite (x * y) = true.
Proof.
  rewrite !FloatAxioms.leb_spec, !abs_spec, Num_Prim2SF_one, Num_is_finite_SF, mul_spec.
  apply SF_mul_small; apply Prim2SF_valid.
Qed.

Lemma Num_mul_zero_r x : is_finite x = true -> x * 0 = 0 \/ x * 0 = - 0.
Proof.
  rewrite Num_is_finite_SF. intros H.
  destruct (SF_mul_zero_r _ H) as [[|] E]; [right|left];
    apply Prim2SF_inj; rewrite mul_spec, Num_Prim2SF_zero, E; reflexivity.
Qed.

Lemma Num_leb_trans x y z :
  (x <=? y) = true -> (y <=? z) = true -> (x <=? z) = true.
Proof. rewrite !FloatAxioms.leb_spec. apply SF_leb_trans. Qed.

Lemma Num_leb_not_nan x y :
  (x <=? y) = true -> is_nan x = false /\ is_nan y = false.
Proof.
  rewrite FloatAxioms.leb_spec, !Num_is_nan_spec, SF_leb_key. tauto.
Qed.

Lemma Num_eqb_leb x y : (x =? y) = true -> (x <=? y) = true.
Proof.
  rewrite FloatAxioms.eqb_spec, FloatAxioms.leb_spec, SF_eqb_key, SF_leb_key.
  intros (? & ? & E). repeat split; auto. rewrite E.
  intros G. apply SF_lex3_gt, SF_lex3_lt in G. lia.
Qed.

Lemma Num_Prim2SF_50 : Prim2SF 50 = S754_finite false 7036874417766400 (-47).
Proof. reflexivity. Qed.

(** A withdrawal of at least 50 that does not exceed the balance leaves a
    balance that is not negative. *)
Lemma Num_sub_nonneg a b :
  (50 <=? a) = true -> (a <=? b) = true -> (b - a <? 0) = false.
Proof.
  rewrite !FloatAxioms.leb_spec, FloatAxioms.ltb_spec, sub_spec,
    Num_Prim2SF_zero, Num_Prim2SF_50.
  pose proof (Prim2SF_valid a) as Va. pose proof (Prim2SF_valid b) as Vb.
  unfold SFleb.
  destruct (Prim2SF a) as [sa|sa| |sa ma ea]; try destruct sa;
    cbn [SFcompare]; intros H50; try discriminate H50;
    (destruct (Prim2SF b) as [sb|sb| |sb mb eb]; try destruct sb;
     cbn [SFcompare]; intros Hab; try discriminate Hab);
    try reflexivity.
  apply SF_sub_nonneg_finite; assumption.
Qed.

End NumberFacts.

(** * The distance estimator *)

Lemma smallAngleMath_laws : MathLaws smallAngleMath.
Proof. split; reflexivity. Qed.

Lemma roundedMath_laws : MathLaws roundedMath.
Proof.
  assert (Hopp : forall x c : float, (- x)%float = c -> x = (- c)%float)
    by (intros x c <-; symmetry; apply Num_opp_involutive).
  split; [|vm_compute; reflexivity..].
  intros x. cbn [Math_sin roundedMath].
  destruct (decide (x = 0x1.1df46a2529d39p-3%float)) as [->|H1];
    [vm_compute; reflexivity|].
  destruct (decide (x = (-0x1.1df46a2529d39p-3)%float)) as [->|H2];
    [vm_compute; reflexivity|].
  destruct (decide (x = 0x1.921fb54442d18p+0%float)) as [->|H3];
    [vm_compute; reflexivity|].
  destruct (decide (x = (-0x1.921fb54442d18p+0)%float)) as [->|H4];
    [vm_compute; reflexivity|].
  rewrite !(bool_decide_eq_false_2 (x = _)) by assumption.
  rewrite !bool_decide_eq_false_2; [reflexivity|..];
    intros E; apply Hopp in E; vm_compute in E; contradiction.
Qed.

Section MapsFacts.
Context {M : MathLib} {L : MathLaws M}.
Local Open Scope float_scope.
Import Maps.

Lemma calculateDistance_unfold lat1 lng1 lat2 lng2 :
  calculateDistance lat1 lng1 lat2 lng2 =
  let a := halfSin (lat2 - lat1) * halfSin (lat2 - lat1) +
           Math_cos (toRad lat1) * Math_cos (toRad lat2) *
           halfSin (lng2 - lng1) * halfSin (lng2 - lng1) in
  6371 * (2 * Math_atan2 (sqrt a) (sqrt (1 - a))).
Proof. reflexivity. Qed.

Lemma halfSin_opp d : halfSin (- d) = - halfSin d.
Proof.
  unfold halfSin, toRad.
  now rewrite Num_mul_opp_l, Num_div_opp_l, Math_sin_odd.
Qed.

(** Swapping the operands of a difference changes at most the sign of its
    half-angle sine. *)
Lemma halfSin_swap x y :
  halfSin (y - x) = - halfSin (x - y) \/ halfSin (y - x) = halfSin (x - y).
Proof.
  destruct (Num_sub_swap x y) as [E|[E1 E2]].
  - left. now rewrite E, halfSin_opp.
  - right. now rewrite E1, E2.
Qed.

Lemma halfSin_sq_swap x y :
  halfSin (y - x) * halfSin (y - x) = halfSin (x - y) * halfSin (x - y).
Proof.
  destruct (halfSin_swap x y) as [E|E]; rewrite E; [|reflexivity].
  apply Num_mul_opp_opp.
Qed.

Lemma halfSin_mul2_swap c x y :
  c * halfSin (y - x) * halfSin (y - x) = c * halfSin (x - y) * halfSin (x - y).
Proof.
  destruct (halfSin_swap x y) as [E|E]; rewrite E; [|reflexivity].
  now rewrite !Num_mul_opp_r, Num_mul_opp_l, Num_opp_involutive.
Qed.

Lemma calculateDistance_sym lat1 lng1 lat2 lng2 :
  calculateDistance lat1 lng1 lat2 lng2 = calculateDistance lat2 lng2 lat1 lng1.
Proof.
  rewrite !calculateDistance_unfold. cbv zeta.
  rewrite (halfSin_sq_swap lat1 lat2).
  rewrite (halfSin_mul2_swap _ lng1 lng2).
  rewrite (Num_mul_comm (Math_cos (toRad lat2)) (Math_cos (toRad lat1))).
  reflexivity.
Qed.

Lemma halfSin_zero : halfSin 0 = 0.
Proof.
  unfold halfSin. change (toRad 0 / 2) with 0. apply Math_sin_zero.
Qed.

Lemma calculateDistance_same lat lng :
  is_finite lat = true -> is_finite lng = true ->
  (abs (Math_cos (toRad lat)) <=? 1) = true ->
  calculateDistance lat lng lat lng = 0.
Proof.
  intros Hlat Hlng Hcos. rewrite calculateDistance_unfold. cbv zeta.
  rewrite (Num_sub_diag lat Hlat), (Num_sub_diag lng Hlng).
  rewrite halfSin_zero.
  pose proof (Num_mul_small _ _ Hcos Hcos) as Hfin.
  assert (Ha : 0 * 0 + Math_cos (toRad lat) * Math_cos (toRad lat) * 0 * 0 = 0).
  { destruct (Num_mul_zero_r _ Hfin) as [E|E]; rewrite E; reflexivity. }
  rewrite Ha. change (sqrt 0) with 0. change (sqrt (1 - 0)) with 1.
  rewrite Math_atan2_zero_one. reflexivity.
Qed.

End MapsFacts.




(** * The order of query results *)

Lemma String_leb_refl (s : string) : String.leb s s = true.
Proof.
  unfold String.leb.
  destruct (String.compare s s) eqn:E; try reflexivity.
  pose proof (String.compare_antisym s s) as H. rewrite E in H. discriminate H.
Qed.

Lemma String_leb_trans (s1 s2 s3 : string) :
  String.leb s1 s2 = true -> String.leb s2 s3 = true ->
  String.leb s1 s3 = true.
Proof.
  unfold String.leb. revert s2 s3.
  induction s1 as [|c1 s1 IH]; intros [|c2 s2] [|c3 s3]; cbn;
    try congruence.
  unfold Ascii.compare.
  destruct (N.compare_spec (Ascii.N_of_ascii c1) (Ascii.N_of_ascii c2)) as [E12|L12|G12];
    destruct (N.compare_spec (Ascii.N_of_ascii c2) (Ascii.N_of_ascii c3))
      as [E23|L23|G23];
    try congruence;
    destruct (N.compare_spec (Ascii.N_of_ascii c1) (Ascii.N_of_ascii c3))
      as [E13|L13|G13];
    try congruence; try lia.
  apply IH.
Qed.

#[global] Instance idLe_trans {A} : Transitive (@idLe A).
Proof. intros x y z. apply String_leb_trans. Qed.

#[global] Instance idLe_total {A} : Total (@idLe A).
Proof. intros x y. apply String.leb_total. Qed.

Lemma elem_of_queryOrder {A} (x : string * A) docs :
  x ∈ queryOrder docs <-> x ∈ docs.
Proof. unfold queryOrder. now rewrite merge_sort_Permutation. Qed.

Lemma queryOrder_sorted {A} (docs : list (string * A)) :
  StronglySorted idLe (queryOrder docs).
Proof. apply StronglySorted_merge_sort; apply _. Qed.

Lemma StronglySorted_filter_list {A} (R : relation A) (P : A -> Prop)
    `{forall x, Decision (P x)} (l : list A) :
  StronglySorted R l -> StronglySorted R (filter P l).
Proof.
  induction 1 as [|x l Hs IH Hall]; [constructor|].
  rewrite filter_cons. destruct (decide (P x)); [|exact IH].
  constructor; [exact IH|].
  apply Forall_forall. intros y Hy. apply list_elem_of_filter in Hy as [_ Hy].
  rewrite Forall_forall in Hall. now apply Hall.
Qed.

Lemma StronglySorted_lookup_lt {A} (R : relation A) (l : list A) i j a b :
  StronglySorted R l -> l !! i = Some a -> l !! j = Some b ->
  (i < j)%nat -> R a b.
Proof.
  intros Hs. revert i j. induction Hs as [|x l Hs IH Hall]; intros i j Hi Hj Hlt.
  - discriminate Hi.
  - destruct j as [|j]; [lia|]. cbn in Hj. destruct i as [|i].
    + injection Hi as <-. rewrite Forall_forall in Hall.
      apply Hall. eapply list_elem_of_lookup_2, Hj.
    + cbn in Hi. apply (IH i j Hi Hj). lia.
Qed.

(** The candidates [getAvailableCollectors] returns are in ascending order
    of id. *)
Lemma availableCollectors_ascending wasteType w (i j : nat) ci cj :
  availableCollectors wasteType w !! i = Some ci ->
  availableCollectors wasteType w !! j = Some cj ->
  (i <= j)%nat -> String.leb (c_id ci) (c_id cj) = true.
Proof.
  intros Hi Hj Hle.
  destruct (decide (i = j)) as [->|Hne].
  - rewrite Hi in Hj. injection Hj as <-. apply String_leb_refl.
  - refine (StronglySorted_lookup_lt
              (fun a b => String.leb (c_id a) (c_id b) = true)
              _ i j ci cj _ Hi Hj ltac:(lia)).
    unfold availableCollectors.
    apply (StronglySorted_fmap _ idLe); [intros x y Hxy; exact Hxy|].
    apply StronglySorted_filter_list, queryOrder_sorted.
Qed.

(** * Job status writes (C5) *)

Lemma spreadJobNode_status a b :
  jn_status (spreadJobNode a b) = from_option Some (jn_status a) (jn_status b).
Proof. reflexivity. Qed.

Lemma updateJobStatus_run jobId status additionalData w :
  exists patch,
    updateJobStatus jobId status additionalData w
    = (Resolved tt,
       set_jobs <[jobId :=
         spreadJobNode (default emptyJobNode (rt_jobs w !! jobId)) patch]> w)
    /\ jn_status patch
       = Some (default status (additionalData ≫= jn_status)).
Proof.
  eexists. split; [reflexivity|].
  rewrite !spreadJobNode_status.
  destruct additionalData as [[? ? ? ? ? [s|] ? ?]|];
    destruct (decide (status = job_completed)); reflexivity.
Qed.

(** C5 (as stated, refuted): job [j1] is [completed], a terminal state, and
    [updateJobStatus(j1, 'pending')] succeeds and moves it back to
    [pending]; job [j2] is [pending] and [updateJobStatus(j2, 'in_progress')]
    succeeds and moves it to [in_progress], skipping [assigned] and
    [accepted]. No InvalidTransition is raised and the state changes. *)
Lemma updateJobStatus_leaves_terminal_state :
  jn_status <$> rt_jobs completedJobWorld !! "j1" = Some (Some job_completed) /\
  fst (updateJobStatus "j1" job_pending None completedJobWorld) = Resolved tt /\
  jn_status <$>
    rt_jobs (snd (updateJobStatus "j1" job_pending None completedJobWorld)) !! "j1"
  = Some (Some job_pending) /\
  jn_status <$> rt_jobs busyCollectorWorld !! "j2" = Some (Some job_pending) /\
  fst (updateJobStatus "j2" job_in_progress None busyCollectorWorld)
  = Resolved tt /\
  jn_status <$>
    rt_jobs (snd (updateJobStatus "j2" job_in_progress None busyCollectorWorld))
      !! "j2"
  = Some (Some job_in_progress).
Proof. repeat split; vm_compute; reflexivity. Qed.

(** C5 (amended): [updateJobStatus] checks no transition. From every state
    of the job (terminal or absent included) and for every requested status
    it resolves, and the stored status becomes the requested one (or the
    status [additionalData] carries, which the spread lets win); no other
    job and no other store changes. *)
Theorem updateJobStatus_writes_any_status
    (w : World) (jobId : string) (status : JobStatus)
    (additionalData : option JobNode) :
  let r := updateJobStatus jobId status additionalData w in
  fst r = Resolved tt /\
  jn_status <$> rt_jobs (snd r) !! jobId
    = Some (Some (default status (additionalData ≫= jn_status))) /\
  (forall other, other <> jobId ->
     rt_jobs (snd r) !! other = rt_jobs w !! other) /\
  rt_activeJob (snd r) = rt_activeJob w /\
  fs_requests (snd r) = fs_requests w /\
  fs_users (snd r) = fs_users w /\
  fs_wallets (snd r) = fs_wallets w.
Proof.
  destruct (updateJobStatus_run jobId status additionalData w)
    as (patch & -> & Hs).
  cbn [fst snd set_jobs rt_jobs rt_activeJob fs_requests fs_users fs_wallets].
  repeat split.
  - rewrite lookup_insert_eq. cbn [fmap option_fmap option_map].
    now rewrite spreadJobNode_status, Hs.
  - intros other Ho. now rewrite lookup_insert_ne.
Qed.

(** * Claiming a collector (C1) *)

Lemma assignCollectorToJob_run jobId collectorId w :
  assignCollectorToJob jobId collectorId w
  = (Resolved tt,
     set_activeJob <[collectorId := jobId]>
       (set_jobs <[jobId :=
          spreadJobNode (default emptyJobNode (rt_jobs w !! jobId))
            {| jn_customerId := None; jn_collectorId := Some collectorId;
               jn_wasteType := None; jn_amount := None;
               jn_paymentStatus := None; jn_status := Some job_assigned;
               jn_assignedAt := Some (clock w); jn_completedAt := None |}]> w)).
Proof. reflexivity. Qed.

(** A user document that [updateDoc] marked unavailable is no result of the
    query of [getAvailableCollectors]. *)
Lemma availableCollectors_excludes_updated wasteType userId
    (g : string * UserDoc -> string * UserDoc) users w :
  (forall iu, (g iu).1 = iu.1) ->
  (forall iu, iu.1 = userId -> u_isAvailable (g iu).2 = false) ->
  fs_users w = map g users ->
  forall c, c ∈ availableCollectors wasteType w -> c_id c <> userId.
Proof.
  intros Hid Hf Hw c Hc. unfold availableCollectors in Hc. rewrite Hw in Hc.
  apply list_elem_of_fmap in Hc as ([i u] & -> & Hin).
  apply list_elem_of_filter in Hin as [Hq Hin].
  apply (proj1 (elem_of_queryOrder _ _)) in Hin.
  apply list_elem_of_fmap in Hin as (iu0 & E & _).
  cbn [fst snd toCollector c_id] in *. intros Ei.
  assert (E1 : iu0.1 = userId) by (rewrite <- Ei, <- Hid, <- E; reflexivity).
  assert (E2 : u = (g iu0).2) by (rewrite <- E; reflexivity).
  unfold matchesQuery in Hq. rewrite E2, (Hf iu0 E1) in Hq.
  now rewrite andb_false_r in Hq.
Qed.

(** C1 (as stated, refuted): collector [c1] already has the active job
    [j1]; [assignCollectorToJob(j2, c1)] nevertheless resolves, changes the
    state, and leaves both [j1] and [j2] assigned to [c1]. Likewise, when
    two dispatches both select the available collector [c1] before either
    assigns it, both [assignCollectorToRequest] calls resolve and requests
    [r1] and [r2] are both assigned to [c1], whatever the Math library. *)
Lemma assignCollectorToJob_claims_busy_collector :
  rt_activeJob busyCollectorWorld !! "c1" = Some "j1" /\
  fst (assignCollectorToJob "j2" "c1" busyCollectorWorld) = Resolved tt /\
  snd (assignCollectorToJob "j2" "c1" busyCollectorWorld) <> busyCollectorWorld /\
  (let w' := snd (assignCollectorToJob "j2" "c1" busyCollectorWorld) in
   rt_activeJob w' !! "c1" = Some "j2" /\
   (fun n => (jn_collectorId n, jn_status n)) <$> rt_jobs w' !! "j1"
     = Some (Some "c1", Some job_assigned) /\
   (fun n => (jn_collectorId n, jn_status n)) <$> rt_jobs w' !! "j2"
     = Some (Some "c1", Some job_assigned)) /\
  (forall M : MathLib,
     exists n1 n2 w1 w2 w3 w4,
       findNearestCollector pickupLocation household twoRequestsWorld
       = (Resolved (Some n1), w1) /\
       findNearestCollector pickupLocation household w1
       = (Resolved (Some n2), w2) /\
       c_id (n_collector n1) = "c1" /\ c_id (n_collector n2) = "c1" /\
       assignCollectorToRequest "r1" "c1" (n_distance n1) w2
       = (Resolved tt, w3) /\
       assignCollectorToRequest "r2" "c1" (n_distance n2) w3
       = (Resolved tt, w4) /\
       (fun d => (r_collectorId d, r_status d)) <$> fs_requests w4 !! "r1"
       = Some (Some "c1", req_assigned) /\
       (fun d => (r_collectorId d, r_status d)) <$> fs_requests w4 !! "r2"
       = Some (Some "c1", req_assigned)).
Proof.
  split; [reflexivity|]. split; [reflexivity|]. split; [|split].
  - intros E. apply (f_equal (fun w => rt_activeJob w !! "c1")) in E.
    vm_compute in E. discriminate E.
  - repeat split; vm_compute; reflexivity.
  - intros M. do 6 eexists.
    split; [vm_compute; reflexivity|]. split; [vm_compute; reflexivity|].
    split; [reflexivity|]. split; [reflexivity|].
    split; [vm_compute; reflexivity|]. split; [vm_compute; reflexivity|].
    split; vm_compute; reflexivity.
Qed.

(** C1 (amended): the assignment operations have no busy check. In every
    state, whatever the collector's [activeJob] holds and whether or not
    Firestore knows the collector, [assignCollectorToJob] resolves and
    writes the job as [assigned] to the collector and the job as the
    collector's [activeJob]; [assignCollectorToRequest], on an existing
    request and collector document, resolves and writes the request as
    [assigned] to the collector. Busy collectors are kept out when
    candidates are selected: after [assignCollectorToRequest] no
    [getAvailableCollectors] query returns the collector. *)
Theorem assignment_unconditional_selection_excludes
    (w : World) (jobId requestId collectorId : string) (distance : float) :
  (let r := assignCollectorToJob jobId collectorId w in
   fst r = Resolved tt /\
   rt_activeJob (snd r) !! collectorId = Some jobId /\
   (fun n => (jn_collectorId n, jn_status n)) <$> rt_jobs (snd r) !! jobId
     = Some (Some collectorId, Some job_assigned)) /\
  (forall request : RequestDoc,
     fs_requests w !! requestId = Some request ->
     hasUser collectorId (fs_users w) = true ->
     let r := assignCollectorToRequest requestId collectorId distance w in
     fst r = Resolved tt /\
     (fun d => (r_collectorId d, r_status d))
       <$> fs_requests (snd r) !! requestId
     = Some (Some collectorId, req_assigned) /\
     forall wasteType c,
       c ∈ availableCollectors wasteType (snd r) -> c_id c <> collectorId).
Proof.
  split.
  - rewrite assignCollectorToJob_run.
    cbn [fst snd set_activeJob set_jobs rt_activeJob rt_jobs].
    rewrite !lookup_insert_eq. repeat split.
  - intros request Hreq Huser.
    unfold assignCollectorToRequest, bind, serverTimestamp, reads,
      firestore_updateRequest, firestore_updateUser.
    rewrite Hreq. cbn [set_requests fs_users]. rewrite Huser.
    cbn [fst snd set_users set_requests fs_requests fs_users].
    split; [reflexivity|]. split.
    + now rewrite lookup_insert_eq.
    + intros wasteType c.
      eapply availableCollectors_excludes_updated; [| |reflexivity].
      * intros iu. cbn beta.
        destruct (bool_decide (iu.1 = collectorId)); reflexivity.
      * intros iu Hiu. cbn beta.
        rewrite (bool_decide_eq_true_2 _ Hiu). reflexivity.
Qed.

(** On the world whose collector [c1] is busy with job [j1], and on the
    world whose collector [c1] already serves request [r1]. *)
Lemma assignment_unconditional_selection_excludes_witness :
  (rt_activeJob busyCollectorWorld !! "c1" = Some "j1" /\
   fs_users busyCollectorWorld = [] /\
   let r := assignCollectorToJob "j2" "c1" busyCollectorWorld in
   fst r = Resolved tt /\
   rt_activeJob (snd r) !! "c1" = Some "j2" /\
   (fun n => (jn_collectorId n, jn_status n)) <$> rt_jobs (snd r) !! "j2"
     = Some (Some "c1", Some job_assigned)) /\
  (let r := assignCollectorToRequest "r2" "c1" 0x1p+0 assignedRequestWorld in
   fst r = Resolved tt /\
   (fun d => (r_collectorId d, r_status d)) <$> fs_requests (snd r) !! "r2"
     = Some (Some "c1", req_assigned) /\
   forall wasteType c,
     c ∈ availableCollectors wasteType (snd r) -> c_id c <> "c1").
Proof.
  split.
  - split; [reflexivity|]. split; [reflexivity|].
    exact (proj1 (assignment_unconditional_selection_excludes
                    busyCollectorWorld "j2" "r2" "c1" 0x1p+0)).
  - apply (proj2 (assignment_unconditional_selection_excludes
                    assignedRequestWorld "j2" "r2" "c1" 0x1p+0)
             (exampleRequestDoc household req_pending None));
      vm_compute; reflexivity.
Defined.

(** * The matcher (C2, C7) *)

Section Matcher.
Context {M : MathLib}.
Variable customerLocation : GeoLocation.

Lemma nearestStep_no_location nearest c :
  currentLocation c = None -> nearestStep customerLocation nearest c = nearest.
Proof. unfold nearestStep. now intros ->. Qed.

Lemma nearestStep_location nearest c d :
  distanceTo customerLocation c = Some d ->
  nearestStep customerLocation nearest c =
  match nearest with
  | None => Some {| n_collector := c; n_distance := d |}
  | Some n =>
      if (d <? n_distance n)%float
      then Some {| n_collector := c; n_distance := d |}
      else nearest
  end.
Proof.
  unfold nearestStep, distanceTo. destruct (currentLocation c); [|discriminate].
  now intros [= <-].
Qed.

Lemma lookup_snoc_inv (processed : list Collector) c (j : nat) c' :
  (processed ++ [c]) !! j = Some c' ->
  processed !! j = Some c' \/ (j = length processed /\ c' = c).
Proof.
  intros H. destruct (decide (j < length processed)%nat) as [Hlt|Hge].
  - left. now rewrite lookup_app_l in H.
  - right. rewrite lookup_app_r in H by lia.
    destruct (j - length processed)%nat as [|k] eqn:E; cbn in H; [|discriminate].
    split; [lia|congruence].
Qed.

Lemma nearestInv_step processed nearest c :
  nearestInv customerLocation processed nearest ->
  nearestInv customerLocation (processed ++ [c])
    (nearestStep customerLocation nearest c).
Proof.
  intros Inv.
  destruct (distanceTo customerLocation c) as [d|] eqn:Ed.
  - rewrite (nearestStep_location _ _ _ Ed).
    assert (Hnew : (processed ++ [c]) !! length processed = Some c)
      by (rewrite lookup_app_r, Nat.sub_diag by lia; reflexivity).
    assert (Hloc : forall c', currentLocation c' = None ->
              forall d', distanceTo customerLocation c' = Some d' -> False)
      by (unfold distanceTo; intros c' -> d'; discriminate).
    destruct nearest as [n|].
    + destruct Inv as (i & Hi & Hdi & Hmin).
      pose proof (lookup_lt_Some _ _ _ Hi) as Hlt.
      destruct (d <? n_distance n)%float eqn:Hd.
      * exists (length processed). split; [exact Hnew|]. split; [exact Ed|].
        intros j c' d' Hj Hd'. cbn [n_distance].
        destruct (lookup_snoc_inv _ _ _ _ Hj) as [Hold|[-> ->]].
        -- destruct (Hmin j c' d' Hold Hd') as [Hnlt _]. split.
           ++ destruct (d' <? d)%float eqn:E; [|reflexivity].
              now rewrite (Num_ltb_trans _ _ _ E Hd) in Hnlt.
           ++ intros [E|E].
              ** now rewrite (Num_eqb_ltb_trans _ _ _ E Hd) in Hnlt.
              ** rewrite E, Hd in Hnlt. discriminate Hnlt.
        -- assert (d' = d) by congruence. subst d'.
           split; [apply Num_ltb_irrefl|lia].
      * exists i. split; [now rewrite lookup_app_l|]. split; [exact Hdi|].
        intros j c' d' Hj Hd'.
        destruct (lookup_snoc_inv _ _ _ _ Hj) as [Hold|[-> ->]].
        -- exact (Hmin j c' d' Hold Hd').
        -- assert (d' = d) by congruence. subst d'. split; [exact Hd|lia].
    + exists (length processed). split; [exact Hnew|]. split; [exact Ed|].
      intros j c' d' Hj Hd'. cbn [n_distance].
      destruct (lookup_snoc_inv _ _ _ _ Hj) as [Hold|[-> ->]].
      * exfalso. refine (Hloc c' _ d' Hd').
        apply Inv. eapply list_elem_of_lookup_2. exact Hold.
      * assert (d' = d) by congruence. subst d'.
        split; [apply Num_ltb_irrefl|lia].
  - assert (Hc : currentLocation c = None)
      by (unfold distanceTo in Ed; destruct (currentLocation c); congruence).
    rewrite (nearestStep_no_location _ _ Hc).
    destruct nearest as [n|].
    + destruct Inv as (i & Hi & Hdi & Hmin).
      pose proof (lookup_lt_Some _ _ _ Hi) as Hlt.
      exists i. split; [now rewrite lookup_app_l|]. split; [exact Hdi|].
      intros j c' d' Hj Hd'.
      destruct (lookup_snoc_inv _ _ _ _ Hj) as [Hold|[-> ->]].
      * exact (Hmin j c' d' Hold Hd').
      * congruence.
    + intros c' Hin. apply elem_of_app in Hin as [Hin|Hin].
      * now apply Inv.
      * apply list_elem_of_singleton in Hin. now subst.
Qed.

Lemma nearestInv_fold collectors processed nearest :
  nearestInv customerLocation processed nearest ->
  nearestInv customerLocation (processed ++ collectors)
    (fold_left (nearestStep customerLocation) collectors nearest).
Proof.
  revert processed nearest.
  induction collectors as [|c cs IH]; intros processed nearest Inv.
  - now rewrite app_nil_r.
  - cbn [fold_left]. rewrite (cons_middle c processed cs), app_assoc.
    apply IH. now apply nearestInv_step.
Qed.

Lemma nearestOf_fold collectors :
  nearestOf customerLocation collectors
  = fold_left (nearestStep customerLocation) collectors None.
Proof.
  unfold nearestOf. destruct collectors; reflexivity.
Qed.

Lemma nearestOf_inv collectors :
  nearestInv customerLocation collectors
    (nearestOf customerLocation collectors).
Proof.
  rewrite nearestOf_fold. apply (nearestInv_fold collectors [] None).
  intros c Hc. now apply not_elem_of_nil in Hc.
Qed.

End Matcher.

Lemma findNearestCollector_run {M : MathLib} customerLocation wasteType w :
  findNearestCollector customerLocation wasteType w
  = (Resolved (nearestOf customerLocation (availableCollectors wasteType w)),
     set_trace (fun t => t ++ [EvQueryAvailableCollectors wasteType]) w).
Proof. reflexivity. Qed.

Lemma availableCollectors_elem wasteType w c :
  c ∈ availableCollectors wasteType w <->
  exists docId data,
    (docId, data) ∈ fs_users w /\ matchesQuery wasteType data = true /\
    c = toCollector docId data.
Proof.
  unfold availableCollectors. rewrite list_elem_of_fmap. split.
  - intros ([docId data] & -> & Hin).
    apply list_elem_of_filter in Hin as [Hq Hin].
    apply (proj1 (elem_of_queryOrder _ _)) in Hin. eauto.
  - intros (docId & data & Hin & Hq & ->). exists (docId, data).
    split; [reflexivity|]. apply list_elem_of_filter.
    split; [exact Hq|]. now apply elem_of_queryOrder.
Qed.

Lemma distanceTo_toCollector {M : MathLib} customerLocation docId data :
  distanceTo customerLocation (toCollector docId data)
  = (fun g => Maps.calculateDistance (lat customerLocation)
                (lng customerLocation) (latitude g) (longitude g))
      <$> u_currentLocation data.
Proof.
  unfold distanceTo, toCollector. cbn [currentLocation].
  now destruct (u_currentLocation data).
Qed.

Lemma eligible_spec wasteType data :
  eligible wasteType data = true <->
  matchesQuery wasteType data = true /\ is_Some (u_currentLocation data).
Proof.
  unfold eligible. rewrite andb_true_iff, bool_decide_eq_true. reflexivity.
Qed.



Example scenario_selects_eligible_collector :
  (c_id ∘ n_collector) <$>
    nearestOf (M:=smallAngleMath) pickupLocation
      (availableCollectors electronic scenarioWorld)
  = Some "far-electronic" /\
  (exists dFar dNear,
     (fun c => (c_id c, distanceTo (M:=smallAngleMath) pickupLocation c)) <$>
       (availableCollectors household scenarioWorld)
     = [("far-electronic", Some dFar); ("near-household", Some dNear)] /\
     (dNear <? dFar)%float = true).
Proof.
  split; [vm_compute; reflexivity|].
  do 2 eexists. split; [vm_compute; reflexivity|]. vm_compute. reflexivity.
Qed.


(** Documents of one collection have distinct ids: two with the same id
    are the same document. *)
Lemma NoDup_ids_inj {A} (docs : list (string * A)) x y :
  NoDup docs.*1 -> x ∈ docs -> y ∈ docs -> x.1 = y.1 -> x = y.
Proof.
  induction docs as [|z docs IH]; intros Hnd Hx Hy E.
  - now apply not_elem_of_nil in Hx.
  - cbn in Hnd. apply NoDup_cons in Hnd as [Hz Hnd].
    apply elem_of_cons in Hx as [->|Hx]; apply elem_of_cons in Hy as [->|Hy].
    + reflexivity.
    + exfalso. apply Hz. rewrite E. apply list_elem_of_fmap. eauto.
    + exfalso. apply Hz. rewrite <- E. apply list_elem_of_fmap. eauto.
    + now apply IH.
Qed.

(** The query returns the same list whatever the order in which the store
    lists the documents. *)
Lemma queryOrder_Permutation {A} (docs docs' : list (string * A)) :
  NoDup docs.*1 -> docs' ≡ₚ docs -> queryOrder docs' = queryOrder docs.
Proof.
  intros Hnd Hp.
  apply (StronglySorted_unique_strong idLe); try apply queryOrder_sorted.
  - intros x y Hx Hy Hxy Hyx.
    apply (proj1 (elem_of_queryOrder _ _)) in Hx.
    apply (proj1 (elem_of_queryOrder _ _)) in Hy.
    rewrite Hp in Hx.
    apply (NoDup_ids_inj docs); try assumption.
    now apply String.leb_antisym.
  - unfold queryOrder. now rewrite !merge_sort_Permutation.
Qed.



(** * The dispatcher (C3, C4, C6) *)

Section DispatchFacts.
Context {M : MathLib}.

Lemma getPickupRequest_run requestId w :
  getPickupRequest requestId w
  = (Resolved
       (match fs_requests w !! requestId with
        | None => None
        | Some data =>
            Some {| pr_id := requestId;
                    pr_customerId := r_customerId data;
                    pr_collectorId := r_collectorId data;
                    pr_wasteType := r_wasteType data;
                    pr_pickupLocation :=
                      {| lat := latitude (r_pickupLocation data);
                         lng := longitude (r_pickupLocation data);
                         formattedAddress := Some (r_pickupAddress data) |};
                    pr_estimatedPrice := r_estimatedPrice data;
                    pr_distance := r_distance data;
                    pr_status := r_status data |}
        end), w).
Proof. reflexivity. Qed.

(** The gate of [retryMatch]: a request that is missing or not [pending]
    gets the failure result, and nothing is read further or written. *)
Lemma retryMatch_not_pending requestId maxRetries retryDelayMs w :
  (forall data, fs_requests w !! requestId = Some data ->
                r_status data <> req_pending) ->
  retryMatch requestId maxRetries retryDelayMs w
  = (Resolved (matchFailure "Request not found or already processed"), w).
Proof.
  intros H. unfold retryMatch, bind. rewrite getPickupRequest_run.
  destruct (fs_requests w !! requestId) as [data|]; [|reflexivity].
  cbn [pr_status]. specialize (H data eq_refl).
  destruct (decide (r_status data = req_pending)); [contradiction|reflexivity].
Qed.

Lemma retryMatch_pending requestId maxRetries retryDelayMs w data :
  fs_requests w !! requestId = Some data ->
  r_status data = req_pending ->
  exists request,
    pr_wasteType request = r_wasteType data /\
    pr_pickupLocation request
    = {| lat := latitude (r_pickupLocation data);
         lng := longitude (r_pickupLocation data);
         formattedAddress := Some (r_pickupAddress data) |} /\
    retryMatch requestId maxRetries retryDelayMs w
    = (let* matched :=
         retryLoop requestId request maxRetries retryDelayMs
           (Z.to_nat maxRetries) 0 in
       match matched with
       | Some result => ret result
       | None =>
           updateRequestStatus requestId req_cancelled
             (Some {| rp_collectorId := None; rp_distance := None;
                      rp_status := None; rp_assignedAt := None;
                      rp_completedAt := None; rp_updatedAt := None;
                      rp_cancelReason :=
                        Some "No collectors available after multiple attempts" |}) ;;
           ret (matchFailure
                  "No collectors available. Please try again later.")
       end)%async w.
Proof.
  intros Hd Hs. eexists. split; [|split]; [| |
    unfold retryMatch; unfold bind at 1; rewrite getPickupRequest_run, Hd;
    cbn [pr_status]; rewrite Hs;
    destruct (decide (req_pending = req_pending)); [reflexivity|contradiction]];
    reflexivity.
Qed.

(** With no located candidate, an attempt fails after its query and writes
    nothing. *)
Lemma autoMatchCollector_no_candidate requestId customerLocation wasteType w :
  nearestOf customerLocation (availableCollectors wasteType w) = None ->
  autoMatchCollector requestId customerLocation wasteType w
  = (Resolved (matchFailure
                 "No collectors available for this waste type right now"),
     set_trace (fun t => t ++ [EvQueryAvailableCollectors wasteType]) w).
Proof.
  intros H. unfold autoMatchCollector, tryCatch, bind.
  rewrite findNearestCollector_run, H. reflexivity.
Qed.

Lemma nearestOf_no_eligible customerLocation wasteType w :
  (forall docId data, (docId, data) ∈ fs_users w ->
                      eligible wasteType data = false) ->
  nearestOf customerLocation (availableCollectors wasteType w) = None.
Proof.
  intros H.
  pose proof (nearestOf_inv customerLocation (availableCollectors wasteType w))
    as Inv.
  destruct (nearestOf customerLocation (availableCollectors wasteType w))
    as [n|]; [|reflexivity].
  exfalso. destruct Inv as (i & Hi & Hdi & _).
  apply list_elem_of_lookup_2, availableCollectors_elem in Hi
    as (docId & data & Hin & Hq & Hn).
  rewrite Hn, distanceTo_toCollector in Hdi.
  destruct (u_currentLocation data) as [g|] eqn:Hg; [|discriminate].
  assert (eligible wasteType data = true)
    by (apply eligible_spec; rewrite Hg; eauto).
  rewrite (H docId data Hin) in *. discriminate.
Qed.

(** The loop of [retryMatch] when no collector is eligible: with [fuel]
    turns left at index [i = maxRetries - fuel] it makes [fuel] attempts,
    waits between consecutive ones, and falls through. *)
Lemma retryLoop_no_eligible requestId request maxRetries retryDelayMs fuel i w :
  (forall docId data, (docId, data) ∈ fs_users w ->
                      eligible (pr_wasteType request) data = false) ->
  Z.of_nat fuel = maxRetries - i ->
  retryLoop requestId request maxRetries retryDelayMs fuel i w
  = (Resolved None,
     set_trace (fun t => t ++ attemptsWithDelays (pr_wasteType request)
                                retryDelayMs fuel)
       (set_clock (fun c => c + Z.of_nat (pred fuel) * Z.max 0 retryDelayMs) w)).
Proof.
  revert i w. induction fuel as [|fuel IH]; intros i w Hno Hi.
  - cbn. unfold ret, set_trace, set_clock. destruct w; cbn.
    now rewrite app_nil_r, Z.add_0_r.
  - cbn [retryLoop]. unfold bind at 1.
    rewrite (autoMatchCollector_no_candidate _ _ _ _
               (nearestOf_no_eligible _ _ _ Hno)).
    cbn [success matchFailure]. unfold bind at 1.
    destruct fuel as [|fuel'].
    + assert (E : (i <? maxRetries - 1) = false) by (apply Z.ltb_ge; lia).
      rewrite E. cbn. unfold ret, set_trace, set_clock. destruct w; cbn.
      now rewrite Z.add_0_r.
    + assert (E : (i <? maxRetries - 1) = true) by (apply Z.ltb_lt; lia).
      rewrite E. unfold setTimeout at 1, writes at 1.
      rewrite IH; [|exact Hno|lia].
      f_equal. unfold set_trace, set_clock. destruct w; cbn.
      f_equal; [|rewrite <- !app_assoc; reflexivity].
      rewrite !Nat2Z.inj_succ. lia.
Qed.

End DispatchFacts.

Lemma attemptsWithDelays_succ wasteType delay n :
  attemptsWithDelays wasteType delay (S (S n))
  = EvQueryAvailableCollectors wasteType :: EvSetTimeout delay ::
    attemptsWithDelays wasteType delay (S n).
Proof. reflexivity. Qed.

Lemma attemptsWithDelays_counts wasteType delay n :
  countEvents isAttempt (attemptsWithDelays wasteType delay n) = n /\
  countEvents (isWait delay) (attemptsWithDelays wasteType delay n) = pred n /\
  length (attemptsWithDelays wasteType delay n) = (n + pred n)%nat.
Proof.
  induction n as [|[|n] IH]; [repeat split..|].
  rewrite attemptsWithDelays_succ. destruct IH as (IH1 & IH2 & IH3).
  unfold countEvents in *. cbn [List.filter isAttempt isWait length].
  rewrite bool_decide_eq_true_2 by reflexivity. cbn [length].
  rewrite IH1, IH2, IH3. cbn. repeat split; lia.
Qed.

Lemma updateRequestStatus_cancel requestId reason w data :
  fs_requests w !! requestId = Some data ->
  exists data',
    updateRequestStatus requestId req_cancelled
      (Some {| rp_collectorId := None; rp_distance := None;
               rp_status := None; rp_assignedAt := None;
               rp_completedAt := None; rp_updatedAt := None;
               rp_cancelReason := Some reason |}) w
    = (Resolved tt, set_requests <[requestId := data']> w) /\
    r_status data' = req_cancelled /\
    r_cancelReason data' = Some reason /\
    r_collectorId data' = r_collectorId data /\
    r_updatedAt data' = Some (clock w).
Proof.
  intros H. eexists. split.
  - unfold updateRequestStatus, bind, serverTimestamp, reads,
      firestore_updateRequest. rewrite H. reflexivity.
  - repeat split.
Qed.

(** C4: on a pending request for which no collector is eligible,
    [retryMatch] makes exactly [maxRetries] matching attempts (none when
    [maxRetries] is not positive), waits [retryDelayMs] between consecutive
    attempts and at no other time, so that the clock has advanced by
    [maxRetries - 1] delays when it returns; then, at that time, it writes
    the request as [cancelled] with the reason "No collectors available
    after multiple attempts", assigns no collector, and resolves to a
    failure. *)
Theorem retryMatch_exhausts_then_cancels
    (M : MathLib) (w : World) (requestId : string)
    (maxRetries retryDelayMs : Z) (data : RequestDoc) :
  fs_requests w !! requestId = Some data ->
  r_status data = req_pending ->
  (forall docId user, (docId, user) ∈ fs_users w ->
                      eligible (r_wasteType data) user = false) ->
  let r := retryMatch requestId maxRetries retryDelayMs w in
  let events :=
    attemptsWithDelays (r_wasteType data) retryDelayMs (Z.to_nat maxRetries) in
  fst r = Resolved
            (matchFailure "No collectors available. Please try again later.") /\
  trace (snd r) = trace w ++ events /\
  Z.of_nat (countEvents isAttempt events) = Z.max 0 maxRetries /\
  countEvents (isWait retryDelayMs) events = pred (Z.to_nat maxRetries) /\
  length events = (Z.to_nat maxRetries + pred (Z.to_nat maxRetries))%nat /\
  clock (snd r)
  = clock w + Z.max 0 (maxRetries - 1) * Z.max 0 retryDelayMs /\
  (exists data',
     fs_requests (snd r) !! requestId = Some data' /\
     r_status data' = req_cancelled /\
     r_cancelReason data'
     = Some "No collectors available after multiple attempts" /\
     r_collectorId data' = r_collectorId data /\
     r_updatedAt data' = Some (clock (snd r))) /\
  fs_users (snd r) = fs_users w.
Proof.
  intros Hd Hs Hno. cbv zeta.
  destruct (retryMatch_pending requestId maxRetries retryDelayMs w data Hd Hs)
    as (request & Hwt & _ & ->).
  assert (Hloop :
    retryLoop requestId request maxRetries retryDelayMs (Z.to_nat maxRetries) 0 w
    = (Resolved None,
       set_trace (fun t => t ++ attemptsWithDelays (pr_wasteType request)
                                  retryDelayMs (Z.to_nat maxRetries))
         (set_clock (fun c => c + Z.of_nat (pred (Z.to_nat maxRetries))
                                  * Z.max 0 retryDelayMs) w))).
  { destruct (Z.to_nat maxRetries) as [|k] eqn:Ek.
    - unfold retryLoop, ret, set_trace, set_clock. destruct w; cbn.
      now rewrite app_nil_r, Z.add_0_r.
    - rewrite <- Ek. apply retryLoop_no_eligible; [now rewrite Hwt|lia]. }
  unfold bind. rewrite Hloop, Hwt. clear Hloop.
  set (w1 := set_trace _ _).
  destruct (updateRequestStatus_cancel requestId
              "No collectors available after multiple attempts" w1 data Hd)
    as (data' & Hrun & H1 & H2 & H3 & H4).
  rewrite Hrun. cbn [fst snd ret].
  destruct (attemptsWithDelays_counts (r_wasteType data) retryDelayMs
              (Z.to_nat maxRetries)) as (C1 & C2 & C3).
  assert (Hclock : clock w1
                   = clock w + Z.max 0 (maxRetries - 1) * Z.max 0 retryDelayMs).
  { subst w1. cbn [set_trace set_clock clock]. f_equal. f_equal. lia. }
  split; [reflexivity|]. split; [reflexivity|]. split; [rewrite C1; lia|].
  split; [exact C2|]. split; [exact C3|]. split; [exact Hclock|].
  split; [|reflexivity].
  exists data'. cbn [set_requests fs_requests clock].
  now rewrite lookup_insert_eq.
Qed.

(** The reference configuration (3 attempts, 30 seconds) on a world whose
    collectors are unavailable, unlocated or handle another waste type. *)
Lemma retryMatch_exhausts_then_cancels_witness :
  let r := retryMatch (M:=smallAngleMath) "r1" defaultMaxRetries
             defaultRetryDelayMs noCollectorWorld in
  let events := attemptsWithDelays household defaultRetryDelayMs 3 in
  fst r = Resolved
            (matchFailure "No collectors available. Please try again later.") /\
  trace (snd r) = trace noCollectorWorld ++ events /\
  Z.of_nat (countEvents isAttempt events) = Z.max 0 defaultMaxRetries /\
  countEvents (isWait defaultRetryDelayMs) events = 2%nat /\
  length events = 5%nat /\
  clock (snd r) = clock noCollectorWorld + 2 * 30000 /\
  (exists data',
     fs_requests (snd r) !! "r1" = Some data' /\
     r_status data' = req_cancelled /\
     r_cancelReason data'
     = Some "No collectors available after multiple attempts" /\
     r_collectorId data' = None /\
     r_updatedAt data' = Some (clock (snd r))) /\
  fs_users (snd r) = fs_users noCollectorWorld.
Proof.
  apply (retryMatch_exhausts_then_cancels smallAngleMath noCollectorWorld "r1"
           defaultMaxRetries defaultRetryDelayMs
           (exampleRequestDoc household req_pending None)).
  - reflexivity.
  - reflexivity.
  - intros docId user Hin.
    repeat (apply elem_of_cons in Hin as [[= -> ->]|Hin]; [reflexivity|]).
    now apply not_elem_of_nil in Hin.
Defined.

(** ** Payment records are never consulted *)

Lemma ignoresPayments_ret {A} (a : A) : ignoresPayments (ret a).
Proof. intros p w. reflexivity. Qed.

Lemma ignoresPayments_bind {A B} (m : Async A) (k : A -> Async B) :
  ignoresPayments m -> (forall a, ignoresPayments (k a)) ->
  ignoresPayments (bind m k).
Proof.
  intros Hm Hk p w. unfold bind. rewrite Hm.
  destruct (m w) as [[a|e] w']; cbn [fst snd]; [apply Hk|reflexivity].
Qed.

Lemma ignoresPayments_tryCatch {A} (m : Async A) (h : string -> Async A) :
  ignoresPayments m -> (forall e, ignoresPayments (h e)) ->
  ignoresPayments (tryCatch m h).
Proof.
  intros Hm Hh p w. unfold tryCatch. rewrite Hm.
  destruct (m w) as [[a|e] w']; cbn [fst snd]; [reflexivity|apply Hh].
Qed.

Lemma ignoresPayments_updateRequest requestId patch :
  ignoresPayments (firestore_updateRequest requestId patch).
Proof.
  intros p w. unfold firestore_updateRequest. cbn [set_payments fs_requests].
  destruct (fs_requests w !! requestId); reflexivity.
Qed.

Lemma ignoresPayments_updateUser userId f :
  ignoresPayments (firestore_updateUser userId f).
Proof.
  intros p w. unfold firestore_updateUser. cbn [set_payments fs_users].
  destruct (hasUser userId (fs_users w)); reflexivity.
Qed.

Lemma ignoresPayments_updateRequestStatus requestId status additionalData :
  ignoresPayments (updateRequestStatus requestId status additionalData).
Proof.
  apply ignoresPayments_bind; [intros p w; reflexivity|].
  intros t. apply ignoresPayments_updateRequest.
Qed.

Section PaymentsFrame.
Context {M : MathLib}.

Lemma ignoresPayments_autoMatchCollector requestId customerLocation wasteType :
  ignoresPayments (autoMatchCollector requestId customerLocation wasteType).
Proof.
  apply ignoresPayments_tryCatch; [|intros e; apply ignoresPayments_ret].
  apply ignoresPayments_bind; [intros p w; reflexivity|].
  intros [[collector distance]|]; [|apply ignoresPayments_ret].
  apply ignoresPayments_bind; [|intros _; apply ignoresPayments_ret].
  apply ignoresPayments_bind; [intros p w; reflexivity|]. intros t.
  apply ignoresPayments_bind; [apply ignoresPayments_updateRequest|].
  intros _. apply ignoresPayments_updateUser.
Qed.

Lemma ignoresPayments_retryLoop requestId request maxRetries retryDelayMs fuel i :
  ignoresPayments
    (retryLoop requestId request maxRetries retryDelayMs fuel i).
Proof.
  revert i. induction fuel as [|fuel IH]; intros i; cbn [retryLoop].
  - apply ignoresPayments_ret.
  - apply ignoresPayments_bind; [apply ignoresPayments_autoMatchCollector|].
    intros result. destruct (success result); [apply ignoresPayments_ret|].
    apply ignoresPayments_bind; [|intros _; apply IH].
    destruct (i <? maxRetries - 1); intros p w; reflexivity.
Qed.

Lemma ignoresPayments_retryMatch requestId maxRetries retryDelayMs :
  ignoresPayments (retryMatch requestId maxRetries retryDelayMs).
Proof.
  apply ignoresPayments_bind; [intros p w; reflexivity|].
  intros [request|]; [|apply ignoresPayments_ret].
  destruct (decide (pr_status request = req_pending));
    [|apply ignoresPayments_ret].
  apply ignoresPayments_bind; [apply ignoresPayments_retryLoop|].
  intros [result|]; [apply ignoresPayments_ret|].
  apply ignoresPayments_bind; [apply ignoresPayments_updateRequestStatus|].
  intros _. apply ignoresPayments_ret.
Qed.

(** ** Every attempt leaves its query in the trace *)

Lemma assignCollectorToRequest_trace requestId collectorId distance w :
  trace (snd (assignCollectorToRequest requestId collectorId distance w))
  = trace w.
Proof.
  unfold assignCollectorToRequest, bind, serverTimestamp, reads,
    firestore_updateRequest, firestore_updateUser.
  destruct (fs_requests w !! requestId); [|reflexivity].
  cbn [set_requests fs_users].
  destruct (hasUser collectorId (fs_users w)); reflexivity.
Qed.

Lemma autoMatchCollector_trace requestId customerLocation wasteType w :
  trace (snd (autoMatchCollector requestId customerLocation wasteType w))
  = trace w ++ [EvQueryAvailableCollectors wasteType].
Proof.
  unfold autoMatchCollector, tryCatch. unfold bind at 1.
  rewrite findNearestCollector_run.
  destruct (nearestOf customerLocation (availableCollectors wasteType w))
    as [[collector distance]|]; [|reflexivity].
  unfold bind.
  pose proof (assignCollectorToRequest_trace requestId (c_id collector)
                distance
                (set_trace (fun t => t ++ [EvQueryAvailableCollectors wasteType])
                   w)) as Ht.
  destruct (assignCollectorToRequest _ _ _ _) as [[[]|e] w1]; exact Ht.
Qed.

Lemma retryLoop_S requestId request maxRetries retryDelayMs fuel i :
  retryLoop requestId request maxRetries retryDelayMs (S fuel) i
  = (let* result :=
       autoMatchCollector requestId (pr_pickupLocation request)
         (pr_wasteType request) in
     if success result then ret (Some result)
     else
       (if i <? maxRetries - 1 then setTimeout retryDelayMs else ret tt) ;;
       retryLoop requestId request maxRetries retryDelayMs fuel (i + 1))%async.
Proof. reflexivity. Qed.

Lemma retryLoop_trace requestId request maxRetries retryDelayMs fuel i w :
  exists rest,
    trace (snd (retryLoop requestId request maxRetries retryDelayMs (S fuel) i w))
    = trace w ++ EvQueryAvailableCollectors (pr_wasteType request) :: rest.
Proof.
  revert i w. induction fuel as [|fuel IH]; intros i w;
    rewrite retryLoop_S; unfold bind at 1;
    pose proof (autoMatchCollector_trace requestId
                  (pr_pickupLocation request) (pr_wasteType request) w) as Ht;
    destruct (autoMatchCollector requestId (pr_pickupLocation request)
                (pr_wasteType request) w) as [[result|e] w1];
    cbn [snd] in Ht |- *;
    try (exists []; exact Ht);
    (destruct (success result); [exists []; exact Ht|]);
    unfold bind at 1.
  - destruct (i <? maxRetries - 1); cbn; rewrite Ht, <- ?app_assoc; eauto.
  - destruct (i <? maxRetries - 1).
    + unfold setTimeout at 1, writes at 1.
      edestruct IH as [rest ->]. cbn [set_trace set_clock trace].
      rewrite Ht, <- !app_assoc. cbn [app]. eauto.
    + unfold ret at 1. edestruct IH as [rest ->].
      rewrite Ht, <- app_assoc. cbn [app]. eauto.
Qed.

End PaymentsFrame.

Lemma updateRequestStatus_trace requestId status additionalData w :
  trace (snd (updateRequestStatus requestId status additionalData w)) = trace w.
Proof.
  unfold updateRequestStatus, bind, serverTimestamp, reads,
    firestore_updateRequest.
  destruct (fs_requests w !! requestId); reflexivity.
Qed.

Lemma retryMatch_pending_attempts {M : MathLib}
    requestId maxRetries retryDelayMs w data :
  fs_requests w !! requestId = Some data ->
  r_status data = req_pending ->
  0 < maxRetries ->
  exists rest,
    trace (snd (retryMatch requestId maxRetries retryDelayMs w))
    = trace w ++ EvQueryAvailableCollectors (r_wasteType data) :: rest.
Proof.
  intros Hd Hs Hn.
  destruct (retryMatch_pending requestId maxRetries retryDelayMs w data Hd Hs)
    as (request & Hwt & _ & ->).
  destruct (Z.to_nat maxRetries) as [|fuel] eqn:E; [lia|].
  destruct (retryLoop_trace requestId request maxRetries retryDelayMs fuel 0 w)
    as [rest Ht].
  rewrite Hwt in Ht. exists rest. unfold bind at 1.
  destruct (retryLoop requestId request maxRetries retryDelayMs (S fuel) 0 w)
    as [[[result|]|e] w1]; cbn [snd] in Ht |- *; try exact Ht.
  unfold bind.
  pose proof (updateRequestStatus_trace requestId req_cancelled
    (Some {| rp_collectorId := None; rp_distance := None; rp_status := None;
             rp_assignedAt := None; rp_completedAt := None;
             rp_updatedAt := None;
             rp_cancelReason :=
               Some "No collectors available after multiple attempts" |}) w1)
    as Hu.
  destruct (updateRequestStatus _ _ _ w1) as [[[]|e] w2];
    cbn [snd ret] in Hu |- *; congruence.
Qed.

(** C6 (as stated, refuted): request [r1] is already assigned to collector
    [c1]; calling [retryMatch] on it changes nothing, but it resolves to the
    failure "Request not found or already processed", which carries no
    collector and no status: an error, not the request's current state. *)
Lemma retryMatch_assigned_request_returns_error :
  (fun d => (r_collectorId d, r_status d))
    <$> fs_requests assignedRequestWorld !! "r1"
  = Some (Some "c1", req_assigned) /\
  forall M : MathLib,
    retryMatch "r1" defaultMaxRetries defaultRetryDelayMs assignedRequestWorld
    = (Resolved {| success := false; mr_collector := None;
                   mr_distance := None;
                   error := Some "Request not found or already processed" |},
       assignedRequestWorld).
Proof. split; [reflexivity|]. intros M. reflexivity. Qed.

(** C6 (amended): calling [retryMatch] on a request that is no longer
    [pending] performs no mutation and creates no second assignment (the
    world is unchanged), and resolves to the failure result
    [{ success: false, error: 'Request not found or already processed' }],
    which carries neither a collector nor the request's state. *)
Theorem retryMatch_settled_request_is_noop_failure
    (M : MathLib) (w : World) (requestId : string)
    (maxRetries retryDelayMs : Z) (data : RequestDoc) :
  fs_requests w !! requestId = Some data ->
  r_status data <> req_pending ->
  fst (retryMatch requestId maxRetries retryDelayMs w)
  = Resolved {| success := false; mr_collector := None; mr_distance := None;
                error := Some "Request not found or already processed" |} /\
  snd (retryMatch requestId maxRetries retryDelayMs w) = w.
Proof.
  intros Hd Hs. rewrite retryMatch_not_pending; [split; reflexivity|].
  intros data' Hd'. congruence.
Qed.

Lemma retryMatch_settled_request_is_noop_failure_witness :
  fst (retryMatch (M:=smallAngleMath) "r1" defaultMaxRetries
         defaultRetryDelayMs assignedRequestWorld)
  = Resolved {| success := false; mr_collector := None; mr_distance := None;
                error := Some "Request not found or already processed" |} /\
  snd (retryMatch (M:=smallAngleMath) "r1" defaultMaxRetries
         defaultRetryDelayMs assignedRequestWorld) = assignedRequestWorld.
Proof.
  apply (retryMatch_settled_request_is_noop_failure smallAngleMath
           assignedRequestWorld "r1" defaultMaxRetries defaultRetryDelayMs
           (exampleRequestDoc household req_assigned (Some "c1")));
    [reflexivity|discriminate].
Defined.

(** C3 (as stated, refuted): the only payment recorded for request [r1] is
    still [pending], and [retryMatch] nevertheless matches [r1] and assigns
    it to collector [c1], whatever the Math library; likewise a dashboard
    accepts job [j1], whose payment status is [pending], and the job ends up
    [accepted] by collector [c1]. *)
Lemma retryMatch_dispatches_unpaid_request :
  (fun p => (p_requestId p.2, p_status p.2)) <$> fs_payments unpaidWorld
  = [("r1", payment_pending)] /\
  (forall M : MathLib,
     exists result w',
       retryMatch "r1" defaultMaxRetries defaultRetryDelayMs unpaidWorld
       = (Resolved result, w') /\
       success result = true /\
       c_id <$> mr_collector result = Some "c1" /\
       (fun d => (r_collectorId d, r_status d)) <$> fs_requests w' !! "r1"
       = Some (Some "c1", req_assigned)) /\
  jn_paymentStatus <$> rt_jobs unpaidJobWorld !! "j1"
  = Some (Some pay_pending) /\
  (let w' := snd (handleAcceptJob unpaidJobDashboard unpaidJobWorld) in
   (fun n => (jn_collectorId n, jn_status n, jn_paymentStatus n))
     <$> rt_jobs w' !! "j1"
   = Some (Some "c1", Some job_accepted, Some pay_pending) /\
   rt_activeJob w' !! "c1" = Some "j1").
Proof.
  split; [reflexivity|]. split.
  - intros M. eexists. eexists. split; [vm_compute; reflexivity|].
    repeat split.
  - split; [reflexivity|]. repeat split; vm_compute; reflexivity.
Qed.

(** A pending request and a retry count that is not positive: the loop
    body never runs. *)
Lemma retryMatch_pending_no_budget {M : MathLib}
    requestId maxRetries retryDelayMs w data :
  fs_requests w !! requestId = Some data ->
  r_status data = req_pending ->
  maxRetries <= 0 ->
  let r := retryMatch requestId maxRetries retryDelayMs w in
  fst r = Resolved
            (matchFailure "No collectors available. Please try again later.") /\
  trace (snd r) = trace w /\ fs_users (snd r) = fs_users w /\
  exists data',
    fs_requests (snd r) !! requestId = Some data' /\
    r_status data' = req_cancelled /\
    r_collectorId data' = r_collectorId data.
Proof.
  intros Hd Hs Hn. cbv zeta.
  destruct (retryMatch_pending requestId maxRetries retryDelayMs w data Hd Hs)
    as (request & _ & _ & ->).
  replace (Z.to_nat maxRetries) with 0%nat by lia.
  unfold bind. cbn [retryLoop ret].
  destruct (updateRequestStatus_cancel requestId
              "No collectors available after multiple attempts" w data Hd)
    as (data' & -> & H1 & H2 & H3 & _).
  unfold ret. cbn [fst snd]. repeat split.
  exists data'. cbn [set_requests fs_requests]. now rewrite lookup_insert_eq.
Qed.

(** C3 (amended): the gate of [retryMatch] is the request's own status and
    the retry count. It leaves the [payments] collection unread and
    unwritten (its outcome is the same whatever payments are recorded); on
    a request that is missing or not [pending] it resolves to the failure
    "Request not found or already processed" and changes nothing, so it
    assigns no collector; on a [pending] request with a retry count of at
    least one it proceeds to matching: the first thing it does is query the
    available collectors for the request's waste type; on a [pending]
    request with a retry count of zero or less it queries nothing, changes
    no collector and cancels the request. *)
Theorem retryMatch_gate_is_request_status
    (M : MathLib) (w : World) (requestId : string)
    (maxRetries retryDelayMs : Z) (payments : list (string * PaymentDoc)) :
  retryMatch requestId maxRetries retryDelayMs
    (set_payments (fun _ => payments) w)
  = (fst (retryMatch requestId maxRetries retryDelayMs w),
     set_payments (fun _ => payments)
       (snd (retryMatch requestId maxRetries retryDelayMs w))) /\
  ((forall data, fs_requests w !! requestId = Some data ->
                 r_status data <> req_pending) ->
   retryMatch requestId maxRetries retryDelayMs w
   = (Resolved (matchFailure "Request not found or already processed"), w)) /\
  (forall data,
     fs_requests w !! requestId = Some data ->
     r_status data = req_pending ->
     let r := retryMatch requestId maxRetries retryDelayMs w in
     (0 < maxRetries ->
      exists rest,
        trace (snd r)
        = trace w ++ EvQueryAvailableCollectors (r_wasteType data) :: rest) /\
     (maxRetries <= 0 ->
      fst r = Resolved
                (matchFailure
                   "No collectors available. Please try again later.") /\
      trace (snd r) = trace w /\ fs_users (snd r) = fs_users w /\
      exists data',
        fs_requests (snd r) !! requestId = Some data' /\
        r_status data' = req_cancelled /\
        r_collectorId data' = r_collectorId data)).
Proof.
  split; [apply ignoresPayments_retryMatch|]. split.
  - apply retryMatch_not_pending.
  - intros data Hd Hs. split.
    + now apply retryMatch_pending_attempts.
    + now apply retryMatch_pending_no_budget.
Qed.

(** On the unpaid request the attempt is made with the default three
    tries and none is made with zero tries; on the same world without any
    payment record the outcome is the same. *)
Lemma retryMatch_gate_is_request_status_witness :
  (exists rest,
     trace (snd (retryMatch (M:=smallAngleMath) "r1" defaultMaxRetries
                   defaultRetryDelayMs unpaidWorld))
     = trace unpaidWorld ++ EvQueryAvailableCollectors household :: rest) /\
  trace (snd (retryMatch (M:=smallAngleMath) "r1" 0 defaultRetryDelayMs
                unpaidWorld))
  = trace unpaidWorld /\
  retryMatch (M:=smallAngleMath) "r1" defaultMaxRetries defaultRetryDelayMs
    (set_payments (fun _ => []) unpaidWorld)
  = (fst (retryMatch (M:=smallAngleMath) "r1" defaultMaxRetries
            defaultRetryDelayMs unpaidWorld),
     set_payments (fun _ => [])
       (snd (retryMatch (M:=smallAngleMath) "r1" defaultMaxRetries
               defaultRetryDelayMs unpaidWorld))).
Proof.
  pose proof (retryMatch_gate_is_request_status smallAngleMath unpaidWorld "r1"
                defaultMaxRetries defaultRetryDelayMs []) as (H1 & _ & H3).
  pose proof (retryMatch_gate_is_request_status smallAngleMath unpaidWorld "r1"
                0 defaultRetryDelayMs []) as (_ & _ & H0).
  split; [|split; [|exact H1]].
  - apply (H3 (exampleRequestDoc household req_pending None));
      [reflexivity|reflexivity|reflexivity].
  - apply (H0 (exampleRequestDoc household req_pending None));
      [reflexivity|reflexivity|lia].
Defined.

(** * Completing a job (C9) *)

(** [handleCompleteJob] never writes a wallet or a wallet transaction:
    [creditWallet] is called by no handler. *)
Lemma handleCompleteJob_wallets_untouched d w :
  fs_wallets (snd (handleCompleteJob d w)) = fs_wallets w /\
  fs_walletTransactions (snd (handleCompleteJob d w)) = fs_walletTransactions w.
Proof.
  unfold handleCompleteJob. destruct (d_activeJob d); split; reflexivity.
Qed.

(** What completing the active job does. *)
Lemma handleCompleteJob_run d w job :
  d_activeJob d = Some job ->
  exists d' w',
    handleCompleteJob d w = (Resolved d', w') /\
    d_activeJob d' = None /\
    d_walletBalance d' = (d_walletBalance d + job_amount job)%float /\
    rt_activeJob w' !! d_collectorId d = None /\
    (fun n => (jn_status n, jn_completedAt n)) <$> rt_jobs w' !! job_id job
    = Some (Some job_completed, Some (clock w)).
Proof.
  intros H. unfold handleCompleteJob. rewrite H. do 2 eexists.
  split; [reflexivity|]. split; [reflexivity|]. split; [reflexivity|].
  cbn [set_activeJob set_jobs rt_activeJob rt_jobs].
  split; [apply lookup_delete_eq|]. now rewrite lookup_insert_eq.
Qed.

(** C9 (the code at the failing input): collector [c1] completes the paid
    job [j1] of 150 GMD. The job becomes [completed], the collector's
    [activeJob] is cleared and the balance shown on the dashboard goes from
    0 to 150; but the stored wallet of [c1] still holds 0 and no wallet
    transaction is recorded: the credit is never persisted. *)
Theorem handleCompleteJob_credits_display_only :
  let r := handleCompleteJob activeJobDashboard activeJobWorld in
  rt_activeJob activeJobWorld !! "c1" = Some "j1" /\
  (exists d', fst r = Resolved d' /\
     d_activeJob d' = None /\ d_walletBalance d' = 150%float) /\
  jn_status <$> rt_jobs (snd r) !! "j1" = Some (Some job_completed) /\
  rt_activeJob (snd r) !! "c1" = None /\
  w_balance <$> fs_wallets (snd r) !! "c1" = Some (Some 0%float) /\
  fs_walletTransactions (snd r) = [].
Proof.
  cbv zeta. split; [reflexivity|]. split.
  - eexists. split; [reflexivity|]. split; vm_compute; reflexivity.
  - repeat split; vm_compute; reflexivity.
Qed.

(** * Withdrawals (C10) *)

Section Withdrawals.
Local Open Scope float_scope.

Lemma balanceOrZero_not_nan balance : is_nan (balanceOrZero balance) = false.
Proof.
  destruct balance as [b|]; [|reflexivity]. cbn [balanceOrZero].
  destruct (is_nan b) eqn:E; [reflexivity|].
  destruct (is_zero b); [reflexivity|exact E].
Qed.

Lemma balanceOrZero_at_least_50 b :
  (50 <=? b) = true -> balanceOrZero (Some b) = b.
Proof.
  intros H. cbn [balanceOrZero].
  destruct (Num_leb_not_nan _ _ H) as [_ ->]. cbn [orb].
  destruct (is_zero b) eqn:E; [|reflexivity].
  unfold is_zero in E. apply Num_eqb_leb in E.
  pose proof (Num_leb_trans _ _ _ H E) as F. discriminate F.
Qed.

Lemma balanceOrZero_covers_50 balance :
  (50 <=? balanceOrZero balance) = true ->
  exists b, balance = Some b /\ balanceOrZero balance = b.
Proof.
  destruct balance as [b|]; [|discriminate]. cbn [balanceOrZero].
  destruct (is_nan b || is_zero b); [discriminate|eauto].
Qed.

Lemma withdrawFromWallet_no_wallet collectorId amount paymentMethod phoneNumber w :
  fs_wallets w !! collectorId = None ->
  withdrawFromWallet collectorId amount paymentMethod phoneNumber w
  = (Resolved {| wr_success := false; wr_error := Some "Wallet not found";
                 wr_transactionId := None |}, w).
Proof.
  intros H. unfold withdrawFromWallet, bind, reads. now rewrite H.
Qed.

Lemma withdrawFromWallet_insufficient
    collectorId amount paymentMethod phoneNumber w data :
  fs_wallets w !! collectorId = Some data ->
  (balanceOrZero (w_balance data) <? amount) = true ->
  withdrawFromWallet collectorId amount paymentMethod phoneNumber w
  = (Resolved {| wr_success := false; wr_error := Some "Insufficient balance";
                 wr_transactionId := None |}, w).
Proof.
  intros H E. unfold withdrawFromWallet, bind, reads. now rewrite H, E.
Qed.

Lemma withdrawFromWallet_below_minimum
    collectorId amount paymentMethod phoneNumber w data :
  fs_wallets w !! collectorId = Some data ->
  (balanceOrZero (w_balance data) <? amount) = false ->
  (amount <? 50) = true ->
  withdrawFromWallet collectorId amount paymentMethod phoneNumber w
  = (Resolved {| wr_success := false;
                 wr_error := Some "Minimum withdrawal is 50 GMD";
                 wr_transactionId := None |}, w).
Proof.
  intros H E1 E2. unfold withdrawFromWallet, bind, reads. now rewrite H, E1, E2.
Qed.

Lemma withdrawFromWallet_accepted
    collectorId amount paymentMethod phoneNumber w data :
  fs_wallets w !! collectorId = Some data ->
  (balanceOrZero (w_balance data) <? amount) = false ->
  (amount <? 50) = false ->
  withdrawFromWallet collectorId amount paymentMethod phoneNumber w
  = (Resolved {| wr_success := true; wr_error := None;
                 wr_transactionId := Some (autoId (fs_walletTransactions w)) |},
     set_walletTransactions (fun txs =>
       txs ++ [(autoId (fs_walletTransactions w),
                {| tx_walletId := collectorId; tx_type := tx_withdraw;
                   tx_amount := - amount;
                   tx_description :=
                     String.append "Withdrawal to "
                       (String.append paymentMethod
                          (String.append " (" (String.append phoneNumber ")")));
                   tx_transactionId := None;
                   tx_paymentMethod := Some paymentMethod;
                   tx_phoneNumber := Some phoneNumber;
                   tx_status := Some "pending"%string;
                   tx_balanceAfter := balanceOrZero (w_balance data) - amount;
                   tx_createdAt := clock w |})])
       (set_wallets
          <[collectorId :=
              {| w_balance := Some (balanceOrZero (w_balance data) - amount);
                 w_updatedAt := clock w |}]> w)).
Proof.
  intros H E1 E2. unfold withdrawFromWallet. unfold bind at 1, reads at 1.
  rewrite H, E1, E2. reflexivity.
Qed.

End Withdrawals.

(** C10 (as stated, refuted): with 200 GMD in the wallet, a withdrawal whose
    amount is NaN passes both comparisons ([NaN > 200] and [NaN < 50] are
    false), is reported as a success, and leaves NaN as the stored
    balance, although the amount is not at least 50. *)
Lemma withdrawFromWallet_nan_amount_succeeds :
  (50 <=? nan)%float = false /\
  w_balance <$> fs_wallets walletWorld !! "c1" = Some (Some 200%float) /\
  (let r := withdrawFromWallet "c1" nan "wave" "2207654321" walletWorld in
   fst r = Resolved {| wr_success := true; wr_error := None;
                       wr_transactionId := Some "auto-0" |} /\
   w_balance <$> fs_wallets (snd r) !! "c1" = Some (Some nan)).
Proof. repeat split; vm_compute; reflexivity. Qed.

(** C10 (amended): for every collector and every amount that is a number
    (not NaN), [withdrawFromWallet] succeeds if and only if a wallet exists
    for the collector, the amount does not exceed the stored balance and
    the amount is at least 50. A failure changes nothing and carries one of
    the three error messages. A success stores the old balance minus the
    amount, which is not negative, and records one [withdraw] transaction
    for the wallet with the negated amount and that balance as
    [balanceAfter]. *)
Theorem withdrawFromWallet_guards_balance
    (w : World) (collectorId : string) (amount : float)
    (paymentMethod phoneNumber : string) :
  is_nan amount = false ->
  exists result,
    let w' :=
      snd (withdrawFromWallet collectorId amount paymentMethod phoneNumber w) in
    fst (withdrawFromWallet collectorId amount paymentMethod phoneNumber w)
    = Resolved result /\
    (wr_success result = true <->
     exists wallet b,
       fs_wallets w !! collectorId = Some wallet /\
       w_balance wallet = Some b /\
       (amount <=? b)%float = true /\ (50 <=? amount)%float = true) /\
    (wr_success result = false ->
     w' = w /\
     (wr_error result = Some "Wallet not found" \/
      wr_error result = Some "Insufficient balance" \/
      wr_error result = Some "Minimum withdrawal is 50 GMD")) /\
    (wr_success result = true ->
     exists wallet b transactionId tx,
       fs_wallets w !! collectorId = Some wallet /\
       w_balance wallet = Some b /\
       w_balance <$> fs_wallets w' !! collectorId = Some (Some (b - amount)%float) /\
       ((b - amount) <? 0)%float = false /\
       wr_transactionId result = Some transactionId /\
       fs_walletTransactions w' = fs_walletTransactions w ++ [(transactionId, tx)] /\
       tx_type tx = tx_withdraw /\ tx_walletId tx = collectorId /\
       tx_amount tx = (- amount)%float /\
       tx_balanceAfter tx = (b - amount)%float).
Proof.
  intros Hnan. cbv zeta.
  destruct (fs_wallets w !! collectorId) as [data|] eqn:Hw.
  2:{ rewrite (withdrawFromWallet_no_wallet _ _ _ _ _ Hw).
      eexists. split; [reflexivity|]. cbn [fst snd wr_success wr_error].
      split; [|split]; [split| |]; try discriminate; auto.
      intros (wallet & b & [=] & _). }
  destruct (balanceOrZero (w_balance data) <? amount)%float eqn:E1.
  { rewrite (withdrawFromWallet_insufficient _ _ _ _ _ _ Hw E1).
    eexists. split; [reflexivity|]. cbn [fst snd wr_success wr_error].
    split; [|split]; [split| |]; try discriminate; auto.
    intros (wallet & b & [= <-] & Hb & Hle & H50). exfalso.
    rewrite Hb, (balanceOrZero_at_least_50 b (Num_leb_trans _ _ _ H50 Hle)) in E1.
    now rewrite (Num_leb_nlt _ _ Hle) in E1. }
  destruct (amount <? 50)%float eqn:E2.
  { rewrite (withdrawFromWallet_below_minimum _ _ _ _ _ _ Hw E1 E2).
    eexists. split; [reflexivity|]. cbn [fst snd wr_success wr_error].
    split; [|split]; [split| |]; try discriminate; auto.
    intros (wallet & b & _ & _ & _ & H50). exfalso.
    now rewrite (Num_leb_nlt _ _ H50) in E2. }
  rewrite (withdrawFromWallet_accepted _ _ _ _ _ _ Hw E1 E2).
  assert (Hle : (amount <=? balanceOrZero (w_balance data))%float = true)
    by (apply Num_nlt_leb; auto using balanceOrZero_not_nan).
  assert (H50 : (50 <=? amount)%float = true)
    by (apply Num_nlt_leb; auto).
  destruct (balanceOrZero_covers_50 _ (Num_leb_trans _ _ _ H50 Hle))
    as (b & Hb & Hcur).
  rewrite Hcur in *.
  eexists. split; [reflexivity|].
  cbn [fst snd wr_success wr_error wr_transactionId set_walletTransactions
       set_wallets fs_wallets fs_walletTransactions].
  split; [|split]; [split| |]; try discriminate.
  - intros _. exists data, b. auto.
  - reflexivity.
  - intros _. exists data, b. do 2 eexists.
    split; [reflexivity|]. split; [exact Hb|].
    split; [now rewrite lookup_insert_eq|].
    split; [now apply Num_sub_nonneg|]. repeat split.
Qed.

(** A withdrawal of 75 GMD from the wallet holding 200 GMD succeeds. *)
Lemma withdrawFromWallet_guards_balance_witness :
  exists result,
    fst (withdrawFromWallet "c1" 75 "wave" "2207654321" walletWorld)
    = Resolved result /\
    wr_success result = true /\
    w_balance <$>
      fs_wallets (snd (withdrawFromWallet "c1" 75 "wave" "2207654321"
                         walletWorld)) !! "c1"
    = Some (Some 125%float).
Proof.
  destruct (withdrawFromWallet_guards_balance walletWorld "c1" 75 "wave"
              "2207654321" eq_refl) as (result & Hrun & Hiff & _ & Hok).
  exists result. split; [exact Hrun|].
  assert (Hs : wr_success result = true).
  { apply Hiff. do 2 eexists. repeat split; reflexivity. }
  split; [exact Hs|].
  destruct (Hok Hs) as (wallet & b & _ & _ & Hw & Hb & Hnew & _).
  vm_compute in Hw. injection Hw as <-. injection Hb as <-. exact Hnew.
Defined.

(** * More of IEEE 754 binary64: when a result is a number *)

(** Rounding a non-negative mantissa never gives NaN. *)
Lemma SF_binary_round_aux_not_nan s m e l :
  0 <= m -> SF_is_nan (binary_round_aux prec emax s m e l) = false.
Proof.
  intros Hm. unfold binary_round_aux.
  pose proof (SF_shr_fexp_m prec emax m e l Hm) as Hm1.
  destruct (shr_fexp prec emax m e l) as [mrs' e']. cbn [fst] in Hm1.
  set (m1 := round_nearest_even _ _).
  pose proof (SF_round_nearest_even_bound (shr_m mrs') (loc_of_shr_record mrs'))
    as Hr.
  fold m1 in Hr.
  assert (H1 : 0 <= m1) by lia.
  pose proof (SF_shr_fexp_m prec emax m1 e' loc_Exact H1) as Hm2.
  destruct (shr_fexp prec emax m1 e' loc_Exact) as [mrs'' e''].
  cbn [fst] in Hm2.
  destruct (shr_m mrs'') as [|p|p]; [reflexivity| |lia].
  destruct (_ <=? _); reflexivity.
Qed.

Lemma SF_binary_normalize_not_nan k e szero :
  SF_is_nan (binary_normalize prec emax k e szero) = false.
Proof.
  destruct k as [|p|p]; [reflexivity| |];
    cbn [binary_normalize]; unfold binary_round;
    destruct (shl_align _ _ _) as [mz ez];
    apply SF_binary_round_aux_not_nan; lia.
Qed.

(** A sum is NaN only if a term is NaN or the terms are opposite
    infinities. *)
Lemma SF_add_not_nan x y :
  SF_is_finite x = true -> SF_is_nan y = false ->
  SF_is_nan (SF64add x y) = false.
Proof.
  destruct x as [sx|sx| |sx mx ex]; try discriminate;
    destruct y as [sy|sy| |sy my ey]; try discriminate; intros _ _;
    try reflexivity.
  - destruct sx, sy; reflexivity.
  - unfold SF64add, SFadd. apply SF_binary_normalize_not_nan.
Qed.

Lemma SF_sub_not_nan x y :
  SF_is_nan x = false -> SF_is_finite y = true ->
  SF_is_nan (SF64sub x y) = false.
Proof.
  destruct x as [sx|sx| |sx mx ex]; try discriminate;
    destruct y as [sy|sy| |sy my ey]; try discriminate; intros _ _;
    try reflexivity.
  - destruct sx, sy; reflexivity.
  - unfold SF64sub, SFsub. apply SF_binary_normalize_not_nan.
Qed.

(** A product is NaN only if a factor is NaN or the factors are zero and
    an infinity. *)
Lemma SF_mul_not_nan x y :
  SF_is_nan x = false ->
  (exists s m e, y = S754_finite s m e) ->
  SF_is_nan (SF64mul x y) = false.
Proof.
  intros Hx (sy & my & ey & ->).
  destruct x as [sx|sx| |sx mx ex]; try discriminate; try reflexivity.
  unfold SF64mul, SFmul. apply SF_binary_round_aux_not_nan. lia.
Qed.

Section MoreNumberFacts.
Local Open Scope float_scope.

Lemma Num_add_not_nan x y :
  is_finite x = true -> is_nan y = false -> is_nan (x + y) = false.
Proof.
  rewrite Num_is_finite_SF, !Num_is_nan_spec, add_spec. apply SF_add_not_nan.
Qed.

Lemma Num_sub_not_nan x y :
  is_nan x = false -> is_finite y = true -> is_nan (x - y) = false.
Proof.
  rewrite Num_is_finite_SF, !Num_is_nan_spec, sub_spec. apply SF_sub_not_nan.
Qed.

Lemma Num_mul_not_nan x y :
  is_nan x = false ->
  (exists s m e, Prim2SF y = S754_finite s m e) ->
  is_nan (x * y) = false.
Proof.
  rewrite !Num_is_nan_spec, mul_spec. apply SF_mul_not_nan.
Qed.

(** There is one NaN. *)
Lemma Num_is_nan_eq x : is_nan x = true -> x = nan.
Proof.
  rewrite Num_is_nan_spec. intros H. apply Prim2SF_inj.
  destruct (Prim2SF x); try discriminate H. reflexivity.
Qed.

(** A number that 50 does not exceed is a positive number or [+Infinity]. *)
Lemma Num_at_least_50 a :
  (50 <=? a) = true ->
  (exists m e, Prim2SF a = S754_finite false m e) \/
  Prim2SF a = S754_infinity false.
Proof.
  rewrite FloatAxioms.leb_spec, Num_Prim2SF_50. unfold SFleb.
  destruct (Prim2SF a) as [s|s| |s m e]; cbn [SFcompare];
    try discriminate; destruct s; try discriminate; eauto.
Qed.

(** Adding a number to 0 gives the number back, but for the zeros. *)
Lemma Num_add_zero_l a : (50 <=? 0 + a) = true -> 0 + a = a.
Proof.
  intros H. apply Prim2SF_inj.
  rewrite FloatAxioms.leb_spec, Num_Prim2SF_50 in H.
  rewrite add_spec, Num_Prim2SF_zero in *.
  destruct (Prim2SF a) as [s|s| |s m e]; try reflexivity;
    destruct s; discriminate H.
Qed.

(** Numbers between two finite numbers are finite. *)
Lemma Num_le_finite a b :
  (50 <=? a) = true -> (a <=? b) = true -> is_finite b = true ->
  is_finite a = true.
Proof.
  intros H50 Hab. rewrite !Num_is_finite_SF.
  rewrite FloatAxioms.leb_spec in Hab. unfold SFleb in Hab.
  destruct (Num_at_least_50 a H50) as [(m & e & E)|E]; rewrite E in *;
    [reflexivity|].
  destruct (Prim2SF b) as [s|s| |s mb eb]; cbn [SFcompare] in Hab;
    try discriminate; intros _; destruct s; discriminate.
Qed.

End MoreNumberFacts.

(** * More of the wallet: crediting, reading, and the dashboard's withdrawal *)

Section WalletFacts.
Local Open Scope float_scope.

Lemma creditWallet_run collectorId amount description
    (transactionId : string) w :
  creditWallet collectorId amount description (Some transactionId) w
  = (Resolved tt,
     let newBalance :=
       match fs_wallets w !! collectorId with
       | Some d => balanceOrZero (w_balance d)
       | None => 0
       end + amount in
     set_walletTransactions (fun txs =>
       txs ++ [(autoId txs,
                {| tx_walletId := collectorId; tx_type := tx_credit;
                   tx_amount := amount; tx_description := description;
                   tx_transactionId := Some transactionId;
                   tx_paymentMethod := None; tx_phoneNumber := None;
                   tx_status := None; tx_balanceAfter := newBalance;
                   tx_createdAt := clock w |})])
       (set_wallets
          <[collectorId := {| w_balance := Some newBalance;
                              w_updatedAt := clock w |}]> w)).
Proof. reflexivity. Qed.

(** Without a transaction id the balance is written and the call rejects
    at the transaction. *)
Lemma creditWallet_without_id collectorId amount description w :
  creditWallet collectorId amount description None w
  = (Rejected "invalid-argument",
     set_wallets
       <[collectorId :=
           {| w_balance :=
                Some (match fs_wallets w !! collectorId with
                      | Some d => balanceOrZero (w_balance d)
                      | None => 0
                      end + amount);
              w_updatedAt := clock w |}]> w).
Proof. reflexivity. Qed.

Lemma getWalletBalance_run collectorId w :
  getWalletBalance collectorId w
  = match fs_wallets w !! collectorId with
    | Some data => (Resolved (balanceOrZero (w_balance data)), w)
    | None =>
        (Resolved 0,
         set_wallets
           <[collectorId := {| w_balance := Some 0; w_updatedAt := clock w |}]> w)
    end.
Proof.
  unfold getWalletBalance, bind, reads.
  destruct (fs_wallets w !! collectorId); reflexivity.
Qed.

Lemma lastTransaction_snoc collectorId txs id tx :
  lastTransaction collectorId (txs ++ [(id, tx)])
  = if decide (tx_walletId tx = collectorId) then Some tx
    else lastTransaction collectorId txs.
Proof.
  unfold lastTransaction. rewrite filter_app, filter_cons, filter_nil.
  cbn [snd]. destruct (decide (tx_walletId tx = collectorId)).
  - now rewrite last_snoc.
  - now rewrite app_nil_r.
Qed.

(** Writing a wallet together with a transaction that carries the new
    balance keeps the ledger in agreement. *)
Lemma ledgerAgrees_record w collectorId balance t id tx :
  ledgerAgrees w ->
  tx_walletId tx = collectorId -> tx_balanceAfter tx = balance ->
  ledgerAgrees
    (set_walletTransactions (fun txs => txs ++ [(id, tx)])
       (set_wallets
          <[collectorId := {| w_balance := Some balance; w_updatedAt := t |}]>
          w)).
Proof.
  intros Hw Hid Hb c tx'.
  change (lastTransaction c (fs_walletTransactions w ++ [(id, tx)]) = Some tx' ->
          w_balance <$>
            <[collectorId := {| w_balance := Some balance; w_updatedAt := t |}]>
              (fs_wallets w) !! c
          = Some (Some (tx_balanceAfter tx'))).
  rewrite lastTransaction_snoc.
  destruct (decide (tx_walletId tx = c)) as [<-|Hne].
  - intros [= <-]. rewrite Hid, lookup_insert_eq. cbn. now rewrite Hb.
  - intros Hlast. rewrite lookup_insert_ne by congruence. now apply Hw.
Qed.

Lemma ledgerAgrees_frame w w' :
  fs_wallets w' = fs_wallets w ->
  fs_walletTransactions w' = fs_walletTransactions w ->
  ledgerAgrees w -> ledgerAgrees w'.
Proof. unfold ledgerAgrees. intros -> ->. auto. Qed.

Lemma ledgerAgrees_open w collectorId t :
  fs_wallets w !! collectorId = None ->
  ledgerAgrees w ->
  ledgerAgrees
    (set_wallets
       <[collectorId := {| w_balance := Some 0; w_updatedAt := t |}]> w).
Proof.
  intros Hnone Hw c tx Hlast.
  change (w_balance <$>
            <[collectorId := {| w_balance := Some 0; w_updatedAt := t |}]>
              (fs_wallets w) !! c
          = Some (Some (tx_balanceAfter tx))).
  change (lastTransaction c (fs_walletTransactions w) = Some tx) in Hlast.
  specialize (Hw c tx Hlast).
  destruct (decide (c = collectorId)) as [->|Hne].
  - rewrite Hnone in Hw. discriminate Hw.
  - now rewrite lookup_insert_ne by congruence.
Qed.

(** The three outcomes of [withdrawFromWallet] that leave the world as it
    was, and the one that does not. *)
Lemma withdrawFromWallet_cases collectorId amount paymentMethod phoneNumber w :
  (exists e,
     withdrawFromWallet collectorId amount paymentMethod phoneNumber w
     = (Resolved {| wr_success := false; wr_error := Some e;
                    wr_transactionId := None |}, w) /\
     (e = "Wallet not found" \/ e = "Insufficient balance" \/
      e = "Minimum withdrawal is 50 GMD")%string) \/
  (exists data tx,
     fs_wallets w !! collectorId = Some data /\
     (balanceOrZero (w_balance data) <? amount) = false /\
     (amount <? 50) = false /\
     tx_walletId tx = collectorId /\
     tx_type tx = tx_withdraw /\
     tx_amount tx = - amount /\
     tx_balanceAfter tx = balanceOrZero (w_balance data) - amount /\
     withdrawFromWallet collectorId amount paymentMethod phoneNumber w
     = (Resolved {| wr_success := true; wr_error := None;
                    wr_transactionId := Some (autoId (fs_walletTransactions w)) |},
        set_walletTransactions (fun txs =>
          txs ++ [(autoId (fs_walletTransactions w), tx)])
          (set_wallets
             <[collectorId :=
                 {| w_balance := Some (balanceOrZero (w_balance data) - amount);
                    w_updatedAt := clock w |}]> w))).
Proof.
  destruct (fs_wallets w !! collectorId) as [data|] eqn:Hw.
  - destruct (balanceOrZero (w_balance data) <? amount) eqn:Hlt.
    + left. eexists. split;
        [now apply (withdrawFromWallet_insufficient _ _ _ _ _ data)|auto].
    + destruct (amount <? 50) eqn:Hmin.
      * left. eexists. split;
          [now apply (withdrawFromWallet_below_minimum _ _ _ _ _ data)|auto].
      * right.
        exists data,
          {| tx_walletId := collectorId; tx_type := tx_withdraw;
             tx_amount := - amount;
             tx_description :=
               String.append "Withdrawal to "
                 (String.append paymentMethod
                    (String.append " (" (String.append phoneNumber ")")));
             tx_transactionId := None;
             tx_paymentMethod := Some paymentMethod;
             tx_phoneNumber := Some phoneNumber;
             tx_status := Some "pending"%string;
             tx_balanceAfter := balanceOrZero (w_balance data) - amount;
             tx_createdAt := clock w |}.
        rewrite (withdrawFromWallet_accepted _ _ _ _ _ data Hw Hlt Hmin).
        repeat split; first [reflexivity | assumption].
  - left. eexists. split; [now apply withdrawFromWallet_no_wallet|auto].
Qed.

(** X1. The wallet operations keep the ledger in agreement with the
    wallets: if, for every wallet, the stored balance is the [balanceAfter]
    of the latest transaction recorded for it, then the same holds after
    [creditWallet] called with a transaction id, after [withdrawFromWallet]
    (whether it succeeds or not) and after [getWalletBalance] (which may
    open the wallet). [creditWallet] called without a transaction id is
    the exception: it stores the credited balance and then rejects, and
    records no transaction. *)
Theorem wallet_operations_keep_ledger
    (w : World) (collectorId : string) (amount : float)
    (description paymentMethod phoneNumber transactionId : string) :
  ledgerAgrees w ->
  ledgerAgrees
    (snd (creditWallet collectorId amount description (Some transactionId) w)) /\
  ledgerAgrees
    (snd (withdrawFromWallet collectorId amount paymentMethod phoneNumber w)) /\
  ledgerAgrees (snd (getWalletBalance collectorId w)) /\
  (let r := creditWallet collectorId amount description None w in
   (exists e, fst r = Rejected e) /\
   w_balance <$> fs_wallets (snd r) !! collectorId
   = Some (Some (match fs_wallets w !! collectorId with
                 | Some d => balanceOrZero (w_balance d)
                 | None => 0
                 end + amount)) /\
   fs_walletTransactions (snd r) = fs_walletTransactions w /\
   forall other, other <> collectorId ->
     fs_wallets (snd r) !! other = fs_wallets w !! other).
Proof.
  intros Hw. split; [|split; [|split]].
  - rewrite creditWallet_run. cbn [snd].
    apply ledgerAgrees_record; [exact Hw|reflexivity|reflexivity].
  - destruct (withdrawFromWallet_cases collectorId amount paymentMethod
                phoneNumber w)
      as [(e & -> & _)|(data & tx & _ & _ & _ & Hid & _ & _ & Hb & ->)].
    + exact Hw.
    + cbn [snd]. now apply ledgerAgrees_record.
  - rewrite getWalletBalance_run.
    destruct (fs_wallets w !! collectorId) as [data|] eqn:E; cbn [snd].
    + exact Hw.
    + now apply ledgerAgrees_open.
  - cbv zeta. rewrite creditWallet_without_id.
    cbn [fst snd set_wallets fs_wallets fs_walletTransactions].
    split; [eauto|]. split; [now rewrite lookup_insert_eq|].
    split; [reflexivity|].
    intros other Hne. now rewrite lookup_insert_ne by congruence.
Qed.

(** On the wallet of [c1], which holds 200 GMD: with a transaction id the
    credit is recorded; without one the balance becomes 275 and nothing is
    recorded. *)
Lemma wallet_operations_keep_ledger_witness :
  ledgerAgrees
    (snd (creditWallet "c1" 75 "Pickup j1" (Some "tx-1") walletWorld)) /\
  ledgerAgrees (snd (withdrawFromWallet "c1" 75 "wave" "2207654321" walletWorld)) /\
  ledgerAgrees (snd (getWalletBalance "c1" walletWorld)) /\
  (let r := creditWallet "c1" 75 "Pickup j1" None walletWorld in
   (exists e, fst r = Rejected e) /\
   w_balance <$> fs_wallets (snd r) !! "c1" = Some (Some 275) /\
   fs_walletTransactions (snd r) = []).
Proof.
  destruct (wallet_operations_keep_ledger walletWorld "c1" 75 "Pickup j1"
              "wave" "2207654321" "tx-1") as (H1 & H2 & H3 & H4 & H5 & H6 & _).
  - intros c tx H. discriminate H.
  - split; [exact H1|]. split; [exact H2|]. split; [exact H3|].
    split; [exact H4|]. split; [|exact H6].
    rewrite H5. vm_compute. reflexivity.
Defined.

(** X2. What [creditWallet], called with a transaction id, leaves in a
    wallet can be withdrawn in full: when the balance [n] after the credit
    is a finite number of at least 50, [withdrawFromWallet] of [n] succeeds
    and leaves the balance 0, with the credit and the withdrawal recorded
    in this order; on a wallet that did not exist, [n] is the amount
    credited. *)
Theorem creditWallet_then_withdraw_all
    (w : World) (collectorId : string) (amount : float)
    (description paymentMethod phoneNumber transactionId : string) :
  let n :=
    match fs_wallets w !! collectorId with
    | Some d => balanceOrZero (w_balance d)
    | None => 0
    end + amount in
  (50 <=? n) = true -> is_finite n = true ->
  let w1 :=
    snd (creditWallet collectorId amount description (Some transactionId) w) in
  let r := withdrawFromWallet collectorId n paymentMethod phoneNumber w1 in
  w_balance <$> fs_wallets w1 !! collectorId = Some (Some n) /\
  (exists result, fst r = Resolved result /\ wr_success result = true) /\
  w_balance <$> fs_wallets (snd r) !! collectorId = Some (Some 0) /\
  (fun tx => (tx_walletId tx.2, tx_type tx.2, tx_amount tx.2, tx_balanceAfter tx.2))
    <$> fs_walletTransactions (snd r)
  = ((fun tx =>
        (tx_walletId tx.2, tx_type tx.2, tx_amount tx.2, tx_balanceAfter tx.2))
       <$> fs_walletTransactions w)
    ++ [(collectorId, tx_credit, amount, n);
        (collectorId, tx_withdraw, - n, 0)] /\
  (fs_wallets w !! collectorId = None -> n = amount).
Proof.
  intros n H50 Hfin w1 r.
  assert (Hw1 : fs_wallets w1 !! collectorId
                = Some {| w_balance := Some n; w_updatedAt := clock w |}).
  { subst w1. rewrite creditWallet_run. cbn [snd].
    apply lookup_insert_eq. }
  assert (Hlt : (balanceOrZero (Some n) <? n) = false).
  { rewrite (balanceOrZero_at_least_50 n H50). apply Num_ltb_irrefl. }
  assert (Hmin : (n <? 50) = false) by now apply Num_leb_nlt.
  pose proof (withdrawFromWallet_accepted collectorId n paymentMethod
                phoneNumber w1 _ Hw1 Hlt Hmin) as Hr.
  fold r in Hr. cbn [w_balance] in Hr.
  rewrite (balanceOrZero_at_least_50 n H50), (Num_sub_diag n Hfin) in Hr.
  assert (Htx1 : exists id tx,
            fs_walletTransactions w1 = fs_walletTransactions w ++ [(id, tx)] /\
            tx_walletId tx = collectorId /\ tx_type tx = tx_credit /\
            tx_amount tx = amount /\ tx_balanceAfter tx = n).
  { subst w1. rewrite creditWallet_run. cbn [snd].
    eexists _, _. split; [reflexivity|]. repeat split. }
  destruct Htx1 as (id1 & tx1 & Htx1 & Hid1 & Hty1 & Ham1 & Hb1).
  assert (Htx2 : exists id tx,
            fs_walletTransactions (snd r)
            = fs_walletTransactions w1 ++ [(id, tx)] /\
            tx_walletId tx = collectorId /\ tx_type tx = tx_withdraw /\
            tx_amount tx = - n /\ tx_balanceAfter tx = 0).
  { rewrite Hr. cbn [snd]. eexists _, _. split; [reflexivity|]. repeat split. }
  destruct Htx2 as (id2 & tx2 & Htx2 & Hid2 & Hty2 & Ham2 & Hb2).
  split; [now rewrite Hw1|].
  split; [rewrite Hr; eexists; split; reflexivity|].
  split.
  - rewrite Hr. cbn [snd].
    change (w_balance <$>
              <[collectorId := {| w_balance := Some 0;
                                  w_updatedAt := clock w1 |}]>
                (fs_wallets w1) !! collectorId = Some (Some 0)).
    now rewrite lookup_insert_eq.
  - split.
    + rewrite Htx2, Htx1, !fmap_app, <- app_assoc. cbn [fmap list_fmap snd app].
      now rewrite Hid1, Hty1, Ham1, Hb1, Hid2, Hty2, Ham2, Hb2.
    + intros Hnone. subst n. rewrite Hnone in *. now apply Num_add_zero_l.
Qed.

Lemma creditWallet_then_withdraw_all_witness :
  let w1 := snd (creditWallet "c2" 150 "Pickup j1" (Some "tx-1") walletWorld) in
  let r := withdrawFromWallet "c2" 150 "wave" "2207654321" w1 in
  w_balance <$> fs_wallets w1 !! "c2" = Some (Some 150) /\
  (exists result, fst r = Resolved result /\ wr_success result = true) /\
  w_balance <$> fs_wallets (snd r) !! "c2" = Some (Some 0).
Proof.
  pose proof (creditWallet_then_withdraw_all walletWorld "c2" 150 "Pickup j1"
                "wave" "2207654321" "tx-1") as H.
  assert (E : fs_wallets walletWorld !! "c2" = None)
    by (vm_compute; reflexivity).
  cbv zeta in H. rewrite E in H. change (0 + 150) with 150 in H.
  destruct (H eq_refl eq_refl) as (H1 & H2 & H3 & _).
  cbv zeta. auto.
Defined.

(** X3. [getWalletBalance] resolves to a number, never to NaN. It leaves an
    existing wallet, and every other wallet, as they are; it opens a
    missing wallet with balance 0. Asked again, it gives the same answer
    and changes nothing. No withdrawal that succeeds afterwards exceeds the
    balance it reported or is below 50. *)
Theorem getWalletBalance_reads_or_opens (w : World) (collectorId : string) :
  let r := getWalletBalance collectorId w in
  exists b,
    fst r = Resolved b /\ is_nan b = false /\
    (is_Some (fs_wallets w !! collectorId) -> snd r = w) /\
    (fs_wallets w !! collectorId = None ->
     b = 0 /\
     w_balance <$> fs_wallets (snd r) !! collectorId = Some (Some 0)) /\
    (forall other, other <> collectorId ->
       fs_wallets (snd r) !! other = fs_wallets w !! other) /\
    fs_walletTransactions (snd r) = fs_walletTransactions w /\
    getWalletBalance collectorId (snd r) = (Resolved b, snd r) /\
    (forall amount paymentMethod phoneNumber result w2,
       withdrawFromWallet collectorId amount paymentMethod phoneNumber (snd r)
       = (Resolved result, w2) ->
       wr_success result = true -> is_nan amount = false ->
       (amount <=? b) = true /\ (50 <=? amount) = true).
Proof.
  intros r. subst r. rewrite getWalletBalance_run.
  assert (Hbound : forall w1 data amount paymentMethod phoneNumber result w2,
            fs_wallets w1 !! collectorId = Some data ->
            withdrawFromWallet collectorId amount paymentMethod phoneNumber w1
            = (Resolved result, w2) ->
            wr_success result = true -> is_nan amount = false ->
            (amount <=? balanceOrZero (w_balance data)) = true /\
            (50 <=? amount) = true).
  { intros w1 data amount pm ph result w2 Hd Hrun Hok Hnan.
    destruct (withdrawFromWallet_cases collectorId amount pm ph w1)
      as [(e & E & _)|(data' & tx & Hd' & Hlt & Hmin & _ & _ & _ & _ & E)];
      rewrite E in Hrun; injection Hrun as <- <-; [discriminate Hok|].
    rewrite Hd in Hd'. injection Hd' as <-.
    split; apply Num_nlt_leb; auto using balanceOrZero_not_nan. }
  destruct (fs_wallets w !! collectorId) as [data|] eqn:E; cbn [fst snd].
  - exists (balanceOrZero (w_balance data)).
    split; [reflexivity|]. split; [apply balanceOrZero_not_nan|].
    split; [reflexivity|]. split; [discriminate|].
    split; [reflexivity|]. split; [reflexivity|].
    split; [now rewrite getWalletBalance_run, E|].
    intros amount pm ph result w2. now apply Hbound.
  - exists 0. split; [reflexivity|]. split; [reflexivity|].
    split; [intros [? [=]]|].
    assert (Hnew : fs_wallets
                     (set_wallets
                        <[collectorId := {| w_balance := Some 0;
                                            w_updatedAt := clock w |}]> w)
                     !! collectorId
                   = Some {| w_balance := Some 0; w_updatedAt := clock w |})
      by apply lookup_insert_eq.
    split; [intros _; split; [reflexivity|now rewrite Hnew]|].
    split; [intros other Hne; now apply lookup_insert_ne|].
    split; [reflexivity|].
    split; [now rewrite getWalletBalance_run, Hnew|].
    intros amount pm ph result w2 Hrun.
    exact (Hbound _ _ _ _ _ _ _ Hnew Hrun).
Qed.

(** The conditions under which [withdrawFromWallet] accepts an amount that
    is a number. *)
Lemma withdrawFromWallet_accepts_iff w collectorId amount :
  is_nan amount = false ->
  (exists data,
     fs_wallets w !! collectorId = Some data /\
     (balanceOrZero (w_balance data) <? amount) = false /\
     (amount <? 50) = false) <->
  (exists wallet b,
     fs_wallets w !! collectorId = Some wallet /\
     w_balance wallet = Some b /\
     (amount <=? b) = true /\ (50 <=? amount) = true).
Proof.
  intros Hnan. split.
  - intros (data & Hd & Hlt & Hmin).
    assert (H50 : (50 <=? amount) = true) by now apply Num_nlt_leb.
    assert (Hle : (amount <=? balanceOrZero (w_balance data)) = true)
      by (apply Num_nlt_leb; auto using balanceOrZero_not_nan).
    destruct (balanceOrZero_covers_50 (w_balance data)) as (b & Hb & E);
      [eapply Num_leb_trans; eassumption|].
    exists data, b. rewrite E in Hle. auto.
  - intros (wallet & b & Hd & Hb & Hle & H50).
    exists wallet. split; [exact Hd|]. rewrite Hb.
    rewrite (balanceOrZero_at_least_50 b)
      by (eapply Num_leb_trans; eassumption).
    split; now apply Num_leb_nlt.
Qed.

(** X4. The dashboard's [handleWithdraw] lets a withdrawal through exactly
    when the amount typed is a number of at least 50 that the stored balance
    covers, the phone number has at least 7 characters and the wallet
    exists. Otherwise nothing is stored or displayed differently. When it
    goes through, the stored balance drops by the amount, is not negative
    and, for a finite balance, is a number; the displayed balance drops by
    the same amount. *)
Theorem handleWithdraw_validates_before_withdrawing
    (w : World) (d : Dashboard) (amount : float) (withdrawPhone : string) :
  let r := handleWithdraw d amount withdrawPhone w in
  let submitted :=
    "Withdrawal request submitted! You will receive your funds shortly."%string in
  exists message d',
    fst r = Resolved (message, d') /\
    (message = submitted <->
     (7 <= String.length withdrawPhone)%nat /\
     exists wallet b,
       fs_wallets w !! d_collectorId d = Some wallet /\
       w_balance wallet = Some b /\
       (amount <=? b) = true /\ (50 <=? amount) = true) /\
    (message <> submitted -> snd r = w /\ d' = d) /\
    (message = submitted ->
     exists b,
       w_balance <$> fs_wallets w !! d_collectorId d = Some (Some b) /\
       w_balance <$> fs_wallets (snd r) !! d_collectorId d
       = Some (Some (b - amount)) /\
       (b - amount <? 0) = false /\
       (is_finite b = true -> is_nan (b - amount) = false) /\
       d_walletBalance d' = d_walletBalance d - amount /\
       d_activeJob d' = d_activeJob d /\ d_incomingJob d' = d_incomingJob d).
Proof.
  intros r submitted. subst r. unfold handleWithdraw.
  assert (Hcontra : forall P : Prop,
            (50 <=? amount) = true -> (amount <=? 0) = true -> P).
  { intros P H50 H0. pose proof (Num_leb_trans _ _ _ H50 H0) as H.
    vm_compute in H. discriminate H. }
  destruct (is_nan amount) eqn:Hnan; cbn [orb].
  { eexists _, d. split; [reflexivity|]. split; [|split].
    - split; [discriminate|]. intros (_ & wallet & b & _ & _ & _ & H50).
      apply Num_leb_not_nan in H50 as [_ H50]. congruence.
    - auto.
    - discriminate. }
  destruct (amount <=? 0) eqn:Hpos.
  { eexists _, d. split; [reflexivity|]. split; [|split].
    - split; [discriminate|]. intros (_ & wallet & b & _ & _ & _ & H50).
      now apply Hcontra.
    - auto.
    - discriminate. }
  destruct (bool_decide (withdrawPhone = "") || (String.length withdrawPhone <? 7)%nat)
    eqn:Hphone.
  { eexists _, d. split; [reflexivity|]. split; [|split].
    - split; [discriminate|]. intros (Hlen & _).
      apply orb_true_iff in Hphone as [Hphone|Hphone].
      + apply bool_decide_eq_true in Hphone. subst withdrawPhone.
        cbn in Hlen. lia.
      + apply Nat.ltb_lt in Hphone. lia.
    - auto.
    - discriminate. }
  apply orb_false_iff in Hphone as [_ Hlen]. apply Nat.ltb_ge in Hlen.
  pose proof (withdrawFromWallet_accepts_iff w (d_collectorId d) amount Hnan)
    as Hiff.
  unfold tryCatch, bind.
  destruct (withdrawFromWallet_cases (d_collectorId d) amount "wave"
              withdrawPhone w)
    as [(e & E & He)|(data & tx & Hd & Hlt & Hmin & _ & _ & _ & _ & E)];
    rewrite E; cbn [wr_success wr_error].
  - eexists _, d. split; [reflexivity|].
    assert (Hne : errorOr "Withdrawal failed" (Some e) <> submitted)
      by (destruct He as [->|[->| ->]]; discriminate).
    split; [|split].
    + split; [intros H; now destruct Hne|].
      intros (_ & Hok). apply Hiff in Hok as (data & Hd & Hlt & Hmin).
      rewrite (withdrawFromWallet_accepted _ _ _ _ _ data Hd Hlt Hmin) in E.
      discriminate E.
    + auto.
    + intros H; now destruct Hne.
  - eexists _, _. split; [reflexivity|].
    assert (Hok : exists wallet b,
              fs_wallets w !! d_collectorId d = Some wallet /\
              w_balance wallet = Some b /\
              (amount <=? b) = true /\ (50 <=? amount) = true)
      by (apply Hiff; eauto).
    split; [|split].
    + split; auto.
    + intros H; now destruct H.
    + intros _. destruct Hok as (wallet & b & Hw & Hb & Hle & H50).
      rewrite Hw in Hd. injection Hd as <-.
      assert (Hbal : balanceOrZero (w_balance wallet) = b).
      { rewrite Hb. apply balanceOrZero_at_least_50.
        eapply Num_leb_trans; eassumption. }
      exists b. rewrite Hw. cbn [fmap option_fmap option_map snd].
      rewrite Hbal, Hb. split; [reflexivity|].
      split.
      { change (w_balance <$>
                  <[d_collectorId d := {| w_balance := Some (b - amount);
                                          w_updatedAt := clock w |}]>
                    (fs_wallets w) !! d_collectorId d
                = Some (Some (b - amount))).
        now rewrite lookup_insert_eq. }
      split; [now apply Num_sub_nonneg|].
      split; [|repeat split].
      intros Hfin. apply Num_sub_not_nan.
      * now apply Num_leb_not_nan in Hle.
      * eapply Num_le_finite; eassumption.
Qed.

End WalletFacts.

(** * More of the dispatcher: what an attempt does, and the edges of the
      retry loop *)

Section MoreDispatchFacts.
Context {M : MathLib}.

Lemma hasUser_elem userId data (users : list (string * UserDoc)) :
  (userId, data) ∈ users -> hasUser userId users = true.
Proof.
  intros Hin. unfold hasUser. apply existsb_exists.
  exists (userId, data). split; [now apply list_elem_of_In|].
  now apply bool_decide_eq_true.
Qed.

(** The candidate [findNearestCollector] selects is built from an eligible
    document of [users]. *)
Lemma nearestOf_selected customerLocation wasteType w n :
  nearestOf customerLocation (availableCollectors wasteType w) = Some n ->
  exists docId data,
    (docId, data) ∈ fs_users w /\ eligible wasteType data = true /\
    n_collector n = toCollector docId data.
Proof.
  intros Hn.
  pose proof (nearestOf_inv customerLocation (availableCollectors wasteType w))
    as Inv.
  rewrite Hn in Inv. destruct Inv as (i & Hi & Hdi & _).
  apply list_elem_of_lookup_2, availableCollectors_elem in Hi
    as (docId & data & Hin & Hq & E).
  exists docId, data. split; [exact Hin|]. split; [|exact E].
  rewrite E, distanceTo_toCollector in Hdi.
  apply eligible_spec. split; [exact Hq|].
  destruct (u_currentLocation data); [eauto|discriminate].
Qed.

Lemma nearestOf_some_iff customerLocation wasteType w :
  is_Some (nearestOf customerLocation (availableCollectors wasteType w)) <->
  exists docId data,
    (docId, data) ∈ fs_users w /\ eligible wasteType data = true.
Proof.
  split.
  - intros [n Hn].
    destruct (nearestOf_selected _ _ _ _ Hn) as (docId & data & ? & ? & _).
    eauto.
  - intros (docId & data & Hin & He).
    destruct (nearestOf customerLocation (availableCollectors wasteType w))
      as [n|] eqn:Hn; [eauto|exfalso].
    pose proof (nearestOf_inv customerLocation
                  (availableCollectors wasteType w)) as Inv.
    rewrite Hn in Inv. apply eligible_spec in He as [Hq [g Hg]].
    assert (Hc : toCollector docId data ∈ availableCollectors wasteType w)
      by (apply availableCollectors_elem; eauto).
    specialize (Inv _ Hc). unfold toCollector in Inv. cbn in Inv.
    rewrite Hg in Inv. discriminate Inv.
Qed.

(** [assignCollectorToRequest] on a request that exists and a collector
    document that exists. *)
Lemma assignCollectorToRequest_run requestId collectorId distance w request :
  fs_requests w !! requestId = Some request ->
  hasUser collectorId (fs_users w) = true ->
  assignCollectorToRequest requestId collectorId distance w
  = (Resolved tt,
     set_users (map (fun iu : string * UserDoc =>
       if bool_decide (iu.1 = collectorId) then
         (iu.1,
          {| u_role := u_role iu.2; u_name := u_name iu.2;
             u_phone := u_phone iu.2;
             u_wasteTypesHandled := u_wasteTypesHandled iu.2;
             u_isAvailable := false;
             u_currentLocation := u_currentLocation iu.2;
             u_currentRequestId := Some requestId;
             u_updatedAt := Some (clock w) |})
       else iu))
       (set_requests
          <[requestId :=
              applyRequestPatch request
                {| rp_collectorId := Some collectorId;
                   rp_distance := Some distance;
                   rp_status := Some req_assigned;
                   rp_assignedAt := Some (clock w);
                   rp_completedAt := None; rp_updatedAt := Some (clock w);
                   rp_cancelReason := None |}]> w)).
Proof.
  intros Hreq Huser.
  unfold assignCollectorToRequest, bind, serverTimestamp, reads,
    firestore_updateRequest, firestore_updateUser.
  rewrite Hreq. cbn [set_requests fs_users]. rewrite Huser. reflexivity.
Qed.

(** On a request that does not exist the first [updateDoc] rejects and
    nothing is written. *)
Lemma assignCollectorToRequest_missing requestId collectorId distance w :
  fs_requests w !! requestId = None ->
  assignCollectorToRequest requestId collectorId distance w
  = (Rejected "not-found", w).
Proof.
  intros Hreq.
  unfold assignCollectorToRequest, bind, serverTimestamp, reads,
    firestore_updateRequest.
  now rewrite Hreq.
Qed.

(** The three ways an attempt ends. *)
Lemma autoMatchCollector_cases requestId customerLocation wasteType w :
  let w0 := set_trace (fun t => t ++ [EvQueryAvailableCollectors wasteType]) w in
  (nearestOf customerLocation (availableCollectors wasteType w) = None /\
   autoMatchCollector requestId customerLocation wasteType w
   = (Resolved (matchFailure
                  "No collectors available for this waste type right now"),
      w0)) \/
  (exists n,
     nearestOf customerLocation (availableCollectors wasteType w) = Some n /\
     fs_requests w !! requestId = None /\
     autoMatchCollector requestId customerLocation wasteType w
     = (Resolved (matchFailure "Failed to match with a collector"), w0)) \/
  (exists n request docId data,
     nearestOf customerLocation (availableCollectors wasteType w) = Some n /\
     fs_requests w !! requestId = Some request /\
     (docId, data) ∈ fs_users w /\ eligible wasteType data = true /\
     n_collector n = toCollector docId data /\
     autoMatchCollector requestId customerLocation wasteType w
     = (Resolved {| success := true; mr_collector := Some (n_collector n);
                    mr_distance := Some (n_distance n); error := None |},
        assignedWorld requestId docId (n_distance n) request w0)).
Proof.
  intros w0.
  destruct (nearestOf customerLocation (availableCollectors wasteType w))
    as [n|] eqn:Hn.
  - right.
    destruct (nearestOf_selected _ _ _ _ Hn) as (docId & data & Hin & He & E).
    assert (Huser : hasUser docId (fs_users w0) = true)
      by now apply (hasUser_elem _ data).
    assert (Eid : c_id (n_collector n) = docId) by now rewrite E.
    destruct (fs_requests w !! requestId) as [request|] eqn:Hreq.
    + right. exists n, request, docId, data.
      split; [reflexivity|]. split; [reflexivity|]. split; [exact Hin|].
      split; [exact He|]. split; [exact E|].
      unfold autoMatchCollector, tryCatch, bind.
      rewrite findNearestCollector_run, Hn. fold w0. destruct n as [c d].
      cbn [n_collector n_distance] in *. rewrite Eid.
      now rewrite (assignCollectorToRequest_run requestId docId d w0 request
                     Hreq Huser).
    + left. exists n. split; [reflexivity|]. split; [reflexivity|].
      unfold autoMatchCollector, tryCatch, bind.
      rewrite findNearestCollector_run, Hn. fold w0. destruct n as [c d].
      rewrite (assignCollectorToRequest_missing _ _ _ w0 Hreq). reflexivity.
  - left. split; [reflexivity|]. now apply autoMatchCollector_no_candidate.
Qed.

(** What [assignCollectorToRequest] leaves behind. *)
Lemma assignedWorld_facts requestId collectorId distance request w :
  exists request',
    fs_requests (assignedWorld requestId collectorId distance request w)
      !! requestId = Some request' /\
    r_status request' = req_assigned /\
    r_collectorId request' = Some collectorId /\
    r_distance request' = Some distance /\
    r_assignedAt request' = Some (clock w) /\
    (forall other, other <> requestId ->
       fs_requests (assignedWorld requestId collectorId distance request w)
         !! other = fs_requests w !! other) /\
    (forall wasteType c,
       c ∈ availableCollectors wasteType
             (assignedWorld requestId collectorId distance request w) ->
       c_id c <> collectorId) /\
    clock (assignedWorld requestId collectorId distance request w) = clock w /\
    trace (assignedWorld requestId collectorId distance request w) = trace w.
Proof.
  eexists. unfold assignedWorld. cbn [set_users set_requests fs_requests].
  split; [apply lookup_insert_eq|]. repeat split.
  - intros other Hne. now apply lookup_insert_ne.
  - intros wasteType c.
    eapply availableCollectors_excludes_updated; [| |reflexivity].
    + intros iu. cbn beta.
      destruct (bool_decide (iu.1 = collectorId)); reflexivity.
    + intros iu Hiu. cbn beta.
      rewrite (bool_decide_eq_true_2 _ Hiu). reflexivity.
Qed.

(** An attempt takes no time on the server clock. *)
Lemma autoMatchCollector_clock requestId customerLocation wasteType w :
  clock (snd (autoMatchCollector requestId customerLocation wasteType w))
  = clock w.
Proof.
  destruct (autoMatchCollector_cases requestId customerLocation wasteType w)
    as [[_ ->]|[(n & _ & _ & ->)|(n & request & docId & data & _ & _ & _ & _ &
                                   _ & ->)]];
    reflexivity.
Qed.

End MoreDispatchFacts.

(** X5. A matching attempt never rejects. It succeeds exactly when the
    request document exists and some collector is eligible for the waste
    type. On success it reports the collector [findNearestCollector]
    selected and the distance, stores them in the request with status
    [assigned], leaves every other request alone, and takes the collector
    out of every later availability query. On failure requests and users
    are as before, and the error tells the two causes apart. Either way
    the collectors are queried once. *)
Theorem autoMatchCollector_outcome
    (M : MathLib) (w : World) (requestId : string)
    (customerLocation : GeoLocation) (wasteType : WasteType) :
  let r := autoMatchCollector requestId customerLocation wasteType w in
  exists result,
    fst r = Resolved result /\
    trace (snd r) = trace w ++ [EvQueryAvailableCollectors wasteType] /\
    (success result = true <->
     is_Some (fs_requests w !! requestId) /\
     exists docId data,
       (docId, data) ∈ fs_users w /\ eligible wasteType data = true) /\
    (success result = false ->
     fs_requests (snd r) = fs_requests w /\ fs_users (snd r) = fs_users w /\
     ((forall docId data, (docId, data) ∈ fs_users w ->
                          eligible wasteType data = false) ->
      error result
      = Some "No collectors available for this waste type right now") /\
     ((exists docId data,
         (docId, data) ∈ fs_users w /\ eligible wasteType data = true) ->
      error result = Some "Failed to match with a collector")) /\
    (success result = true ->
     exists n docId data request',
       fst (findNearestCollector customerLocation wasteType w)
       = Resolved (Some n) /\
       mr_collector result = Some (n_collector n) /\
       mr_distance result = Some (n_distance n) /\
       (docId, data) ∈ fs_users w /\ eligible wasteType data = true /\
       n_collector n = toCollector docId data /\
       fs_requests (snd r) !! requestId = Some request' /\
       r_status request' = req_assigned /\
       r_collectorId request' = Some docId /\
       r_distance request' = Some (n_distance n) /\
       r_assignedAt request' = Some (clock w) /\
       (forall other, other <> requestId ->
          fs_requests (snd r) !! other = fs_requests w !! other) /\
       (forall wasteType' c,
          c ∈ availableCollectors wasteType' (snd r) -> c_id c <> docId)).
Proof.
  intros r. subst r.
  destruct (autoMatchCollector_cases requestId customerLocation wasteType w)
    as [[Hn ->]|[(n & Hn & Hreq & ->)|
                 (n & request & docId & data & Hn & Hreq & Hin & He & E & ->)]];
    cbn [fst snd]; eexists; (split; [reflexivity|]).
  - split; [reflexivity|]. split; [|split; [|discriminate]].
    + split; [discriminate|]. intros (_ & He).
      destruct (proj2 (nearestOf_some_iff customerLocation wasteType w) He)
        as [n' Hn'].
      rewrite Hn in Hn'. discriminate Hn'.
    + intros _. split; [reflexivity|]. split; [reflexivity|].
      split; [reflexivity|]. intros He.
      destruct (proj2 (nearestOf_some_iff customerLocation wasteType w) He)
        as [n' Hn'].
      rewrite Hn in Hn'. discriminate Hn'.
  - split; [reflexivity|]. split; [|split; [|discriminate]].
    + split; [discriminate|]. intros ([request E] & _).
      rewrite Hreq in E. discriminate E.
    + intros _. split; [reflexivity|]. split; [reflexivity|].
      split; [|reflexivity]. intros Hno.
      rewrite (nearestOf_no_eligible customerLocation wasteType w Hno) in Hn.
      discriminate Hn.
  - set (w0 := set_trace _ w).
    destruct (assignedWorld_facts requestId docId (n_distance n) request w0)
      as (request' & H1 & H2 & H3 & H4 & H5 & H6 & H7 & _ & H8).
    split; [exact H8|]. split; [|split; [discriminate|]].
    + split; [eauto|reflexivity].
    + intros _. exists n, docId, data, request'.
      split; [now rewrite findNearestCollector_run, Hn|].
      repeat (split; [first [reflexivity | assumption]|]). exact H7.
Qed.

(** X6. [retryMatch] called with a retry count of zero or less makes no
    matching attempt at all: a pending request is cancelled straight away,
    whether or not a collector is eligible, and no collector is queried,
    waited for or changed. *)
Theorem retryMatch_without_attempts_cancels
    (M : MathLib) (w : World) (requestId : string)
    (maxRetries retryDelayMs : Z) (data : RequestDoc) :
  fs_requests w !! requestId = Some data ->
  r_status data = req_pending ->
  maxRetries <= 0 ->
  let r := retryMatch requestId maxRetries retryDelayMs w in
  fst r = Resolved
            (matchFailure "No collectors available. Please try again later.") /\
  trace (snd r) = trace w /\ clock (snd r) = clock w /\
  fs_users (snd r) = fs_users w /\
  exists data',
    fs_requests (snd r) !! requestId = Some data' /\
    r_status data' = req_cancelled /\
    r_cancelReason data'
    = Some "No collectors available after multiple attempts" /\
    r_collectorId data' = r_collectorId data.
Proof.
  intros Hd Hs Hmax r. subst r.
  destruct (retryMatch_pending requestId maxRetries retryDelayMs w data Hd Hs)
    as (request & _ & _ & ->).
  replace (Z.to_nat maxRetries) with 0%nat by lia.
  unfold bind. cbn [retryLoop ret].
  destruct (updateRequestStatus_cancel requestId
              "No collectors available after multiple attempts" w data Hd)
    as (data' & -> & H1 & H2 & H3 & _).
  unfold ret. cbn [fst snd]. repeat split.
  exists data'. cbn [set_requests fs_requests]. now rewrite lookup_insert_eq.
Qed.

Lemma retryMatch_without_attempts_cancels_witness :
  (exists docId data,
     (docId, data) ∈ fs_users unpaidWorld /\ eligible household data = true) /\
  let r := retryMatch (M:=smallAngleMath) "r1" 0 defaultRetryDelayMs
             unpaidWorld in
  fst r = Resolved
            (matchFailure "No collectors available. Please try again later.") /\
  trace (snd r) = trace unpaidWorld /\
  exists data',
    fs_requests (snd r) !! "r1" = Some data' /\
    r_status data' = req_cancelled.
Proof.
  split.
  - eexists _, _. split; [apply list_elem_of_here|reflexivity].
  - destruct (retryMatch_without_attempts_cancels smallAngleMath unpaidWorld
                "r1" 0 defaultRetryDelayMs
                (exampleRequestDoc household req_pending None))
      as (H1 & H2 & _ & _ & data' & H3 & H4 & _);
      [reflexivity|reflexivity|lia|].
    cbv zeta. eauto.
Defined.

(** X7. With an eligible collector and a retry count of at least one,
    [retryMatch] on a pending request succeeds at its first attempt: the
    collectors are queried once, nothing is waited for, the request is
    assigned to the collector reported, who leaves every later
    availability query. Calling [retryMatch] again then fails with
    'Request not found or already processed' and changes nothing. *)
Theorem retryMatch_first_attempt_assigns
    (M : MathLib) (w : World) (requestId : string)
    (maxRetries retryDelayMs : Z) (data : RequestDoc) :
  fs_requests w !! requestId = Some data ->
  r_status data = req_pending ->
  0 < maxRetries ->
  (exists docId user,
     (docId, user) ∈ fs_users w /\ eligible (r_wasteType data) user = true) ->
  let r := retryMatch requestId maxRetries retryDelayMs w in
  exists result collector data',
    fst r = Resolved result /\ success result = true /\
    mr_collector result = Some collector /\
    trace (snd r) = trace w ++ [EvQueryAvailableCollectors (r_wasteType data)] /\
    clock (snd r) = clock w /\
    fs_requests (snd r) !! requestId = Some data' /\
    r_status data' = req_assigned /\
    r_collectorId data' = Some (c_id collector) /\
    (forall wasteType c,
       c ∈ availableCollectors wasteType (snd r) -> c_id c <> c_id collector) /\
    retryMatch requestId maxRetries retryDelayMs (snd r)
    = (Resolved (matchFailure "Request not found or already processed"), snd r).
Proof.
  intros Hd Hs Hmax He r.
  destruct (retryMatch_pending requestId maxRetries retryDelayMs w data Hd Hs)
    as (request & Hwt & _ & Hrun).
  destruct (Z.to_nat maxRetries) as [|fuel] eqn:Efuel; [lia|].
  rewrite retryLoop_S in Hrun. unfold bind at 1 2 in Hrun. rewrite Hwt in Hrun.
  destruct (autoMatchCollector_cases requestId (pr_pickupLocation request)
              (r_wasteType data) w)
    as [[Hn _]|[(n & _ & Hreq & _)|
                (n & request0 & docId & user & Hn & Hreq & Hin & _ & E & Eam)]].
  - destruct (proj2 (nearestOf_some_iff (pr_pickupLocation request)
                       (r_wasteType data) w) He) as [n' Hn'].
    rewrite Hn in Hn'. discriminate Hn'.
  - rewrite Hd in Hreq. discriminate Hreq.
  - rewrite Eam in Hrun. cbn [fst snd success] in Hrun. unfold ret in Hrun.
    subst r. rewrite Hrun. cbn [fst snd]. set (w0 := set_trace _ w).
    destruct (assignedWorld_facts requestId docId (n_distance n) request0 w0)
      as (data' & H1 & H2 & H3 & _ & _ & _ & H7 & H8 & H9).
    exists {| success := true; mr_collector := Some (n_collector n);
              mr_distance := Some (n_distance n); error := None |},
      (n_collector n), data'.
    assert (Eid : c_id (n_collector n) = docId) by now rewrite E.
    rewrite Eid.
    repeat (split; [first [reflexivity | assumption]|]).
    apply retryMatch_not_pending. intros d Hd'. rewrite H1 in Hd'.
    injection Hd' as <-. rewrite H2. discriminate.
Qed.

Lemma retryMatch_first_attempt_assigns_witness :
  let r := retryMatch (M:=smallAngleMath) "r1" defaultMaxRetries
             defaultRetryDelayMs unpaidWorld in
  exists result collector data',
    fst r = Resolved result /\ success result = true /\
    mr_collector result = Some collector /\
    trace (snd r) = trace unpaidWorld ++ [EvQueryAvailableCollectors household] /\
    fs_requests (snd r) !! "r1" = Some data' /\
    r_status data' = req_assigned /\
    r_collectorId data' = Some (c_id collector).
Proof.
  destruct (retryMatch_first_attempt_assigns smallAngleMath unpaidWorld "r1"
              defaultMaxRetries defaultRetryDelayMs
              (exampleRequestDoc household req_pending None))
    as (result & collector & data' & H1 & H2 & H3 & H4 & _ & H5 & H6 & H7 & _);
    [reflexivity|reflexivity|reflexivity| |].
  - eexists _, _. split; [apply list_elem_of_here|reflexivity].
  - cbv zeta. exists result, collector, data'. auto 10.
Defined.

(** * The life of a job on the collector dashboard *)

Section DashboardFacts.
Local Open Scope float_scope.

(** What accepting the incoming job does. *)
Lemma handleAcceptJob_run d w job :
  d_incomingJob d = Some job ->
  handleAcceptJob d w
  = (Resolved
       {| d_collectorId := d_collectorId d;
          d_activeJob :=
            Some {| job_id := job_id job;
                    job_customerId := job_customerId job;
                    job_collectorId := Some (d_collectorId d);
                    job_wasteType := job_wasteType job;
                    job_amount := job_amount job;
                    job_paymentStatus := job_paymentStatus job;
                    job_status := job_accepted |};
          d_incomingJob := None;
          d_walletBalance := d_walletBalance d;
          d_remainingCapacity := d_remainingCapacity d |},
     set_activeJob <[d_collectorId d := job_id job]>
       (set_jobs
          <[job_id job :=
              spreadJobNode (default emptyJobNode (rt_jobs w !! job_id job))
                {| jn_customerId := None;
                   jn_collectorId := Some (d_collectorId d);
                   jn_wasteType := None; jn_amount := None;
                   jn_paymentStatus := None; jn_status := Some job_accepted;
                   jn_assignedAt := Some (clock w);
                   jn_completedAt := None |}]> w)).
Proof.
  intros H. unfold handleAcceptJob. rewrite H.
  unfold tryCatch, bind. rewrite assignCollectorToJob_run.
  unfold updateJobStatus, bind, serverTimestamp, reads, rtdb_updateJob, writes,
    ret.
  unfold set_jobs, set_activeJob.
  cbn [rt_jobs rt_activeJob fs_requests fs_users fs_wallets
       fs_walletTransactions fs_payments clock trace].
  rewrite lookup_insert_eq, insert_insert_eq. reflexivity.
Qed.

(** What completing the active job does. *)
Lemma handleCompleteJob_world d w job :
  d_activeJob d = Some job ->
  handleCompleteJob d w
  = (Resolved
       {| d_collectorId := d_collectorId d;
          d_activeJob := None;
          d_incomingJob := d_incomingJob d;
          d_walletBalance := d_walletBalance d + job_amount job;
          d_remainingCapacity := Math_max0 (d_remainingCapacity d - 20) |},
     set_activeJob (delete (d_collectorId d))
       (set_jobs
          <[job_id job :=
              spreadJobNode (default emptyJobNode (rt_jobs w !! job_id job))
                {| jn_customerId := None; jn_collectorId := None;
                   jn_wasteType := None; jn_amount := None;
                   jn_paymentStatus := None;
                   jn_status := Some job_completed;
                   jn_assignedAt := None;
                   jn_completedAt := Some (clock w) |}]> w)).
Proof.
  intros H. unfold handleCompleteJob. rewrite H. reflexivity.
Qed.

(** X8. Accepting the incoming job and then completing it, on one
    dashboard. After [handleAcceptJob] the job is [accepted] and carries
    the collector and the time of assignment, the collector's [activeJob]
    names it, and the dashboard holds it as the active job. After
    [handleCompleteJob] the job is [completed] with its completion time,
    still carries the collector, and keeps its customer, waste type, amount
    and payment status; the collector's [activeJob] is empty again and the
    displayed balance has grown by the job's amount. No other job, no other
    collector's [activeJob] and nothing in Firestore (requests, users,
    wallets, transactions) is touched. *)
Theorem handleAcceptJob_then_handleCompleteJob
    (w : World) (d : Dashboard) (job : RealtimeJob) :
  d_incomingJob d = Some job ->
  let c := d_collectorId d in
  let j := job_id job in
  let node0 := default emptyJobNode (rt_jobs w !! j) in
  exists d1 w1 d2 w2,
    handleAcceptJob d w = (Resolved d1, w1) /\
    (fun a => (job_id a, job_collectorId a, job_status a, job_amount a))
      <$> d_activeJob d1
    = Some (j, Some c, job_accepted, job_amount job) /\
    d_incomingJob d1 = None /\
    rt_activeJob w1 !! c = Some j /\
    (fun n => (jn_collectorId n, jn_status n, jn_assignedAt n, jn_completedAt n))
      <$> rt_jobs w1 !! j
    = Some (Some c, Some job_accepted, Some (clock w), jn_completedAt node0) /\
    handleCompleteJob d1 w1 = (Resolved d2, w2) /\
    d_activeJob d2 = None /\ d_incomingJob d2 = None /\
    d_walletBalance d2 = d_walletBalance d + job_amount job /\
    rt_activeJob w2 !! c = None /\
    (fun n => (jn_collectorId n, jn_status n, jn_assignedAt n, jn_completedAt n))
      <$> rt_jobs w2 !! j
    = Some (Some c, Some job_completed, Some (clock w), Some (clock w)) /\
    (fun n => (jn_customerId n, jn_wasteType n, jn_amount n, jn_paymentStatus n))
      <$> rt_jobs w2 !! j
    = Some (jn_customerId node0, jn_wasteType node0, jn_amount node0,
            jn_paymentStatus node0) /\
    (forall other, other <> j -> rt_jobs w2 !! other = rt_jobs w !! other) /\
    (forall other, other <> c ->
       rt_activeJob w2 !! other = rt_activeJob w !! other) /\
    fs_requests w2 = fs_requests w /\ fs_users w2 = fs_users w /\
    fs_wallets w2 = fs_wallets w /\
    fs_walletTransactions w2 = fs_walletTransactions w.
Proof.
  intros H c j node0.
  rewrite (handleAcceptJob_run d w job H). fold c j node0.
  eexists _, _. eexists _, _. split; [reflexivity|].
  split; [reflexivity|]. split; [reflexivity|].
  cbn [set_activeJob set_jobs rt_activeJob rt_jobs].
  split; [apply lookup_insert_eq|].
  split; [now rewrite lookup_insert_eq|].
  split; [now apply handleCompleteJob_world|].
  cbn [set_activeJob set_jobs rt_activeJob rt_jobs fs_requests fs_users
       fs_wallets fs_walletTransactions clock d_collectorId d_activeJob
       d_incomingJob d_walletBalance job_id job_amount].
  fold c j. rewrite !lookup_insert_eq, insert_insert_eq.
  split; [reflexivity|]. split; [reflexivity|]. split; [reflexivity|].
  split; [apply lookup_delete_eq|].
  split; [reflexivity|]. split; [reflexivity|].
  split; [intros other Hne; now apply lookup_insert_ne|].
  split; [|repeat split].
  intros other Hne. rewrite lookup_delete_ne, lookup_insert_ne; congruence.
Qed.

Lemma handleAcceptJob_then_handleCompleteJob_witness :
  exists d1 w1 d2 w2,
    handleAcceptJob unpaidJobDashboard unpaidJobWorld = (Resolved d1, w1) /\
    rt_activeJob w1 !! "c1" = Some "j1" /\
    handleCompleteJob d1 w1 = (Resolved d2, w2) /\
    d_walletBalance d2 = 150 /\
    rt_activeJob w2 !! "c1" = None /\
    (fun n => (jn_collectorId n, jn_status n)) <$> rt_jobs w2 !! "j1"
    = Some (Some "c1", Some job_completed).
Proof.
  destruct (handleAcceptJob_then_handleCompleteJob unpaidJobWorld
              unpaidJobDashboard (exampleJob job_pending pay_pending None)
              eq_refl)
    as (d1 & w1 & d2 & w2 & H1 & _ & _ & H2 & _ & H3 & _ & _ & H4 & H5 & H6 & _).
  exists d1, w1, d2, w2. cbv zeta in *. cbn [d_collectorId unpaidJobDashboard
    job_id exampleJob] in *.
  split; [exact H1|]. split; [exact H2|]. split; [exact H3|].
  split; [exact H4|]. split; [exact H5|].
  destruct (rt_jobs w2 !! "j1") as [n|]; [|discriminate H6].
  cbn in H6 |- *. congruence.
Defined.

Lemma elem_of_subscribeToPendingJobs jobs jobId node :
  (jobId, node) ∈ subscribeToPendingJobs jobs <->
  jobs !! jobId = Some node /\
  (jn_status node = Some job_pending \/ jn_status node = Some job_assigned).
Proof.
  unfold subscribeToPendingJobs.
  rewrite list_elem_of_filter, elem_of_map_to_list. cbn [snd]. tauto.
Qed.

Lemma elem_of_pendingJobsEffect isOnline d jobs jobId node :
  (exists l, pendingJobsEffect isOnline d jobs = Some l /\ (jobId, node) ∈ l)
  <->
  isOnline = true /\ d_activeJob d = None /\
  jobs !! jobId = Some node /\
  (jn_status node = Some job_pending \/ jn_status node = Some job_assigned) /\
  (truthy (jn_collectorId node) = false \/
   jn_collectorId node = Some (d_collectorId d)).
Proof.
  unfold pendingJobsEffect. split.
  - intros (l & Hl & Hin).
    destruct isOnline; [|discriminate Hl].
    destruct (d_activeJob d); [discriminate Hl|].
    cbn [andb] in Hl. injection Hl as <-.
    apply list_elem_of_filter in Hin as [Hview Hin].
    apply elem_of_subscribeToPendingJobs in Hin. cbn [snd] in Hview. tauto.
  - intros (-> & -> & Hnode & Hst & Hview). cbn [andb].
    eexists. split; [reflexivity|].
    apply list_elem_of_filter. split; [exact Hview|].
    now apply elem_of_subscribeToPendingJobs.
Qed.

(** X9. What the dashboards are shown of a job. A job assigned with
    [assignCollectorToJob] to a collector (whose id is not empty) is listed
    by the pending-jobs effect of a dashboard exactly when this is the
    dashboard of the assigned collector, online and holding no active job;
    and the active-job subscription hands the assigned collector the job,
    in status [assigned], as the active one. Once a dashboard has accepted
    a job (whose id is not empty), no dashboard lists it, the accepting
    dashboard, which holds it as its active job, is not subscribed to the
    pending jobs, and the active-job subscription shows it to the
    accepting collector; once the job is completed it is shown to
    nobody. *)
Theorem dashboards_are_shown_claimed_jobs_only
    (w : World) (d : Dashboard) (job : RealtimeJob) :
  d_incomingJob d = Some job ->
  job_id job <> "" -> d_collectorId d <> "" ->
  let c := d_collectorId d in
  let j := job_id job in
  let listed (isOnline : bool) (viewer : Dashboard) (w' : World) :=
    exists l node,
      pendingJobsEffect isOnline viewer (rt_jobs w') = Some l /\
      (j, node) ∈ l in
  let wa := snd (assignCollectorToJob j c w) in
  let w1 := snd (handleAcceptJob d w) in
  (forall isOnline viewer,
     listed isOnline viewer wa <->
     isOnline = true /\ d_activeJob viewer = None /\
     d_collectorId viewer = c) /\
  (exists node,
     shownActiveJob (subscribeToCollectorActiveJob c wa) = Some node /\
     rt_jobs wa !! j = Some node /\ jn_status node = Some job_assigned /\
     jn_collectorId node = Some c) /\
  (forall isOnline viewer, ~ listed isOnline viewer w1) /\
  (exists node,
     shownActiveJob (subscribeToCollectorActiveJob c w1) = Some node /\
     rt_jobs w1 !! j = Some node /\ jn_status node = Some job_accepted /\
     jn_collectorId node = Some c) /\
  (forall d1 w2,
     fst (handleAcceptJob d w) = Resolved d1 ->
     w2 = snd (handleCompleteJob d1 w1) ->
     (forall isOnline jobs, pendingJobsEffect isOnline d1 jobs = None) /\
     shownActiveJob (subscribeToCollectorActiveJob c w2) = None /\
     forall isOnline viewer, ~ listed isOnline viewer w2).
Proof.
  intros H Hj Hc c j listed wa w1.
  assert (Htruthy : truthy (Some c) = true).
  { cbn. now rewrite bool_decide_eq_false_2. }
  assert (Hlisted : forall isOnline viewer w',
            listed isOnline viewer w' <->
            exists node,
              isOnline = true /\ d_activeJob viewer = None /\
              rt_jobs w' !! j = Some node /\
              (jn_status node = Some job_pending
               \/ jn_status node = Some job_assigned) /\
              (truthy (jn_collectorId node) = false \/
               jn_collectorId node = Some (d_collectorId viewer))).
  { intros isOnline viewer w'. subst listed. cbv beta. split.
    - intros (l & node & Hl & Hin). exists node.
      apply elem_of_pendingJobsEffect. eauto.
    - intros (node & Hnode).
      apply elem_of_pendingJobsEffect in Hnode as (l & Hl & Hin). eauto. }
  split; [|split; [|split; [|split]]].
  - intros isOnline viewer. rewrite Hlisted. subst wa.
    rewrite assignCollectorToJob_run.
    cbn [snd set_activeJob set_jobs rt_jobs]. split.
    + intros (node & Hon & Hact & Hnode & _ & Hview).
      rewrite lookup_insert_eq in Hnode. injection Hnode as <-.
      cbn [spreadJobNode jn_collectorId from_option] in Hview.
      split; [exact Hon|]. split; [exact Hact|].
      destruct Hview as [Hview|Hview]; congruence.
    + intros (Hon & Hact & Hview). eexists.
      rewrite lookup_insert_eq. split; [exact Hon|]. split; [exact Hact|].
      split; [reflexivity|].
      split; [right; reflexivity|right].
      cbn [spreadJobNode jn_collectorId from_option]. now rewrite Hview.
  - subst wa. rewrite assignCollectorToJob_run.
    unfold subscribeToCollectorActiveJob.
    cbn [snd set_activeJob set_jobs rt_jobs rt_activeJob].
    rewrite !lookup_insert_eq. cbn [truthy mbind option_bind].
    rewrite (bool_decide_eq_false_2 _ Hj). cbn [negb].
    rewrite lookup_insert_eq. eexists. split; [|repeat split].
    reflexivity.
  - intros isOnline viewer Hl. apply Hlisted in Hl
      as (node & _ & _ & Hnode & Hst & _). subst w1.
    rewrite (handleAcceptJob_run d w job H) in Hnode.
    cbn [snd set_activeJob set_jobs rt_jobs] in Hnode.
    fold j in Hnode. rewrite lookup_insert_eq in Hnode. injection Hnode as <-.
    cbn [spreadJobNode jn_status from_option] in Hst.
    destruct Hst; discriminate.
  - subst w1. rewrite (handleAcceptJob_run d w job H). fold c j.
    unfold subscribeToCollectorActiveJob.
    cbn [snd set_activeJob set_jobs rt_jobs rt_activeJob].
    rewrite !lookup_insert_eq. cbn [truthy mbind option_bind].
    rewrite (bool_decide_eq_false_2 _ Hj). cbn [negb].
    rewrite lookup_insert_eq. eexists. split; [|repeat split].
    reflexivity.
  - intros d1 w2 Hd1 ->. subst w1.
    assert (Hl2 : forall isOnline viewer,
              ~ listed isOnline viewer
                  (snd (handleCompleteJob d1 (snd (handleAcceptJob d w))))).
    { intros isOnline viewer Hl. apply Hlisted in Hl
        as (node & _ & _ & Hnode & Hst & _).
      rewrite (handleAcceptJob_run d w job H) in *. cbn [fst snd] in *.
      injection Hd1 as <-.
      erewrite handleCompleteJob_world in Hnode by reflexivity.
      cbn [snd d_collectorId job_id set_activeJob set_jobs rt_jobs] in Hnode.
      fold j in Hnode.
      rewrite lookup_insert_eq in Hnode. injection Hnode as <-.
      cbn [spreadJobNode jn_status from_option] in Hst.
      destruct Hst; discriminate. }
    split; [|split; [|exact Hl2]].
    + rewrite (handleAcceptJob_run d w job H) in Hd1. cbn [fst] in Hd1.
      injection Hd1 as <-. intros isOnline jobs.
      unfold pendingJobsEffect. cbn [d_activeJob].
      now rewrite andb_false_r.
    + rewrite (handleAcceptJob_run d w job H) in *. cbn [fst snd] in *.
      injection Hd1 as <-.
      erewrite handleCompleteJob_world by reflexivity.
      cbn [snd d_collectorId job_id]. fold c j.
      unfold subscribeToCollectorActiveJob.
      cbn [set_activeJob set_jobs rt_activeJob].
      now rewrite lookup_delete_eq.
Qed.

(** Job [j1] and the dashboard of collector [c1]; [c2] is the dashboard of
    another collector. *)
Lemma dashboards_are_shown_claimed_jobs_only_witness :
  let listed (isOnline : bool) (viewer : Dashboard) (w' : World) :=
    exists l node,
      pendingJobsEffect isOnline viewer (rt_jobs w') = Some l /\
      ("j1", node) ∈ l in
  let wa := snd (assignCollectorToJob "j1" "c1" unpaidJobWorld) in
  listed true unpaidJobDashboard wa /\
  ~ listed false unpaidJobDashboard wa /\
  ~ listed true activeJobDashboard wa /\
  (forall isOnline viewer,
     ~ listed isOnline viewer
         (snd (handleAcceptJob unpaidJobDashboard unpaidJobWorld))).
Proof.
  destruct (dashboards_are_shown_claimed_jobs_only unpaidJobWorld
              unpaidJobDashboard (exampleJob job_pending pay_pending None)
              eq_refl) as (H1 & _ & H2 & _); [discriminate|discriminate|].
  cbv zeta in *. split; [|split; [|split; [|exact H2]]].
  - apply H1. repeat split.
  - intros Hl. apply H1 in Hl as (Hon & _). discriminate Hon.
  - intros Hl. apply H1 in Hl as (_ & Hact & _). discriminate Hact.
Defined.

End DashboardFacts.

(** * The customer's side: creating a job, paying, tracking *)

Section CustomerFacts.

Lemma statusInfo_none_iff node :
  statusInfo (Some node) = None <->
  jn_status node = Some job_accepted \/ jn_status node = Some job_in_progress.
Proof.
  unfold statusInfo, currentStatus. cbn [mbind option_bind].
  destruct (jn_status node) as [[]|]; cbn; split; intros H;
    try discriminate; try reflexivity; auto;
    destruct H as [H|H]; discriminate H.
Qed.

Lemma isActive_off_track (node : JobNode) (index : Z) :
  0 <= index ->
  jn_status node = Some job_accepted \/ jn_status node = Some job_in_progress
  \/ jn_status node = Some job_cancelled ->
  isActive (Some node) index = false.
Proof.
  intros Hi H. unfold isActive, currentStatus. cbn [mbind option_bind].
  assert (E : forall status,
            status = job_accepted \/ status = job_in_progress
            \/ status = job_cancelled ->
            indexOf (statusText status) progressSteps 0 = -1)
    by (intros status [-> |[-> | ->]]; vm_compute; reflexivity).
  destruct H as [H|[H|H]]; rewrite H; rewrite E by auto;
    apply Z.leb_gt; lia.
Qed.

(** X17. The tracking page and the jobs a collector has accepted. The
    page's [statusConfig] holds an entry for the status of a job unless
    the status is [accepted] or [in_progress], for which the lookup gives
    [undefined]; for these two and for [cancelled] no step of the progress
    bar is active. So from [handleAcceptJob] on, the page has no status
    entry for the job and shows no active step, until [handleCompleteJob]:
    then the entry is 'Completed' and the five steps are active. *)
Theorem tracking_page_has_no_entry_for_accepted_job
    (w : World) (d : Dashboard) (job : RealtimeJob) :
  d_incomingJob d = Some job ->
  let j := job_id job in
  let w1 := snd (handleAcceptJob d w) in
  (forall node,
     statusInfo (Some node) = None <->
     jn_status node = Some job_accepted \/
     jn_status node = Some job_in_progress) /\
  (forall node index, 0 <= index ->
     jn_status node = Some job_accepted \/
     jn_status node = Some job_in_progress \/
     jn_status node = Some job_cancelled ->
     isActive (Some node) index = false) /\
  is_Some (rt_jobs w1 !! j) /\
  statusInfo (rt_jobs w1 !! j) = None /\
  (forall index, 0 <= index -> isActive (rt_jobs w1 !! j) index = false) /\
  (forall d1 w2,
     fst (handleAcceptJob d w) = Resolved d1 ->
     w2 = snd (handleCompleteJob d1 w1) ->
     si_label <$> statusInfo (rt_jobs w2 !! j) = Some "Completed"%string /\
     forall index, 0 <= index <= 4 -> isActive (rt_jobs w2 !! j) index = true).
Proof.
  intros H j w1.
  split; [exact statusInfo_none_iff|]. split; [exact isActive_off_track|].
  subst w1. rewrite (handleAcceptJob_run d w job H). fold j.
  cbn [fst snd set_activeJob set_jobs rt_jobs].
  rewrite lookup_insert_eq.
  split; [eauto|]. split; [reflexivity|].
  split; [intros index Hi; apply isActive_off_track; auto|].
  intros d1 w2 [= <-] ->.
  erewrite handleCompleteJob_world by reflexivity.
  cbn [snd set_activeJob set_jobs rt_jobs job_id]. fold j.
  rewrite !lookup_insert_eq. split; [reflexivity|].
  intros index Hi. unfold isActive, currentStatus.
  cbn [mbind option_bind spreadJobNode jn_status from_option].
  replace (indexOf (statusText job_completed) progressSteps 0) with 4
    by (vm_compute; reflexivity).
  apply Z.leb_le. lia.
Qed.

Lemma tracking_page_has_no_entry_for_accepted_job_witness :
  let w1 := snd (handleAcceptJob unpaidJobDashboard unpaidJobWorld) in
  si_label <$> statusInfo (rt_jobs unpaidJobWorld !! "j1")
  = Some "Finding Collector"%string /\
  is_Some (rt_jobs w1 !! "j1") /\
  statusInfo (rt_jobs w1 !! "j1") = None.
Proof.
  split; [vm_compute; reflexivity|].
  destruct (tracking_page_has_no_entry_for_accepted_job unpaidJobWorld
              unpaidJobDashboard (exampleJob job_pending pay_pending None)
              eq_refl) as (_ & _ & H1 & H2 & _).
  split; [exact H1|exact H2].
Defined.

(** X18. A job made with [createJob] is on offer before it is paid. With a
    [pending] status, no collector, an amount that is a finite number and
    a pickup location with finite coordinates, the job is stored under its
    key, no other job changes, and whatever its payment status the
    pending-jobs effect lists it on every dashboard that is online and
    holds no active job, and on no other. [handlePaymentComplete] with
    status 'completed' then marks it paid and changes nothing else of it,
    and with any other status, or no stored order, it does nothing. A job
    whose amount or pickup coordinates are NaN or infinite is rejected by
    [createJob] and nothing is stored. *)
Theorem createJob_is_offered_before_payment
    (w : World) (jobId : string) (jobData : JobNode)
    (pickupLocation : GeoLocation) :
  jobId <> "" ->
  jn_status jobData = Some job_pending ->
  jn_collectorId jobData = None ->
  from_option validNumber true (jn_amount jobData) = true ->
  validNumber (lat pickupLocation) = true ->
  validNumber (lng pickupLocation) = true ->
  let r := createJob jobId jobData pickupLocation w in
  let paid := snd (handlePaymentComplete (Some jobId) (Some "completed")
                     (snd r)) in
  fst r = Resolved jobId /\
  rt_jobs (snd r) !! jobId = Some jobData /\
  (forall other, other <> jobId ->
     rt_jobs (snd r) !! other = rt_jobs w !! other) /\
  (forall isOnline viewer,
     (exists l, pendingJobsEffect isOnline viewer (rt_jobs (snd r)) = Some l /\
                (jobId, jobData) ∈ l)
     <-> isOnline = true /\ d_activeJob viewer = None) /\
  rt_jobs paid !! jobId
  = Some {| jn_customerId := jn_customerId jobData;
            jn_collectorId := jn_collectorId jobData;
            jn_wasteType := jn_wasteType jobData;
            jn_amount := jn_amount jobData;
            jn_paymentStatus := Some pay_paid;
            jn_status := jn_status jobData;
            jn_assignedAt := jn_assignedAt jobData;
            jn_completedAt := jn_completedAt jobData |} /\
  (forall other, other <> jobId ->
     rt_jobs paid !! other = rt_jobs w !! other) /\
  (forall order status w',
     order = None \/ status <> Some "completed"%string ->
     handlePaymentComplete order status w' = (Resolved tt, w')) /\
  (forall jobData' location' w',
     from_option validNumber true (jn_amount jobData') = false
     \/ is_finite (lat location') = false
     \/ is_finite (lng location') = false ->
     exists e, createJob jobId jobData' location' w' = (Rejected e, w')).
Proof.
  intros Hj Hst Hc Hamount Hlat Hlng r paid.
  assert (Er : r = (Resolved jobId, set_jobs <[jobId := jobData]> w)).
  { subst r. unfold createJob. now rewrite Hamount, Hlat, Hlng. }
  subst paid. rewrite Er. cbn [fst snd set_jobs rt_jobs].
  split; [reflexivity|]. split; [apply lookup_insert_eq|].
  split; [intros other Hne; now apply lookup_insert_ne|].
  split.
  { intros isOnline viewer. rewrite elem_of_pendingJobsEffect.
    rewrite lookup_insert_eq, Hst, Hc. cbn [truthy]. intuition auto. }
  unfold handlePaymentComplete. cbn [truthy].
  rewrite (bool_decide_eq_false_2 _ Hj), bool_decide_eq_true_2 by reflexivity.
  cbn [negb andb]. unfold tryCatch, rtdb_updateJob, writes.
  cbn [snd set_jobs rt_jobs]. rewrite lookup_insert_eq, insert_insert_eq.
  split; [rewrite lookup_insert_eq; destruct jobData; reflexivity|].
  split; [intros other Hne; now apply lookup_insert_ne|].
  split.
  - intros order status w' [-> |Hs]; [reflexivity|].
    destruct order as [o|]; [|reflexivity].
    rewrite (bool_decide_eq_false_2 _ Hs). now rewrite andb_false_r.
  - intros jobData' location' w' Hbad. unfold createJob, validNumber in *.
    destruct Hbad as [-> |[-> | ->]]; rewrite ?andb_false_r; cbn [andb];
      eexists; reflexivity.
Qed.

Lemma createJob_is_offered_before_payment_witness :
  let job := exampleJobNode job_pending pay_pending None in
  let r := createJob "j7" job pickupLocation emptyWorld in
  fst r = Resolved "j7" /\
  (exists l, pendingJobsEffect true unpaidJobDashboard (rt_jobs (snd r))
             = Some l /\ ("j7", job) ∈ l) /\
  pendingJobsEffect true activeJobDashboard (rt_jobs (snd r)) = None /\
  jn_paymentStatus <$>
    rt_jobs (snd (handlePaymentComplete (Some "j7") (Some "completed") (snd r)))
      !! "j7"
  = Some (Some pay_paid).
Proof.
  destruct (createJob_is_offered_before_payment emptyWorld "j7"
              (exampleJobNode job_pending pay_pending None) pickupLocation)
    as (H1 & _ & _ & H2 & H3 & _);
    [discriminate|reflexivity|reflexivity|reflexivity|reflexivity|reflexivity|].
  cbv zeta in *. split; [exact H1|]. split; [apply H2; split; reflexivity|].
  split; [reflexivity|]. now rewrite H3.
Defined.

End CustomerFacts.

(** * Collector presence: who [getOnlineCollectors] lists *)

Section PresenceFacts.
Local Open Scope float_scope.

Lemma elem_of_getOnlineCollectors w p collectorId location :
  (collectorId, location) ∈ Realtime.getOnlineCollectors w p <->
  exists node,
    rt_location p !! collectorId = Some node /\
    st_online <$> rt_status p !! collectorId = Some true /\
    truthy (rt_activeJob w !! collectorId) = false /\
    location = {| lat := loc_lat node; lng := loc_lng node;
                  formattedAddress := loc_formattedAddress node |}.
Proof.
  unfold Realtime.getOnlineCollectors. rewrite list_elem_of_omap. split.
  - intros ([k node] & Hin & Hsome). apply elem_of_map_to_list in Hin.
    cbn [fst snd] in Hsome.
    destruct (rt_status p !! k) as [st|] eqn:Hst; cbn in Hsome;
      [|discriminate].
    destruct (st_online st) eqn:Hon; cbn in Hsome; [|discriminate].
    destruct (truthy (rt_activeJob w !! k)) eqn:Hact; cbn in Hsome;
      [discriminate|].
    injection Hsome as <- <-. exists node. rewrite Hst. cbn. rewrite Hon. auto.
  - intros (node & Hloc & Hon & Hact & ->).
    exists (collectorId, node). split; [now apply elem_of_map_to_list|].
    cbn [fst snd]. rewrite Hact.
    destruct (rt_status p !! collectorId) as [st|]; [|discriminate].
    cbn in Hon |- *. injection Hon as ->. reflexivity.
Qed.

(** X10. Who [getOnlineCollectors] lists. A collector who has switched
    online with [setCollectorOnlineStatus] and reported a location with
    finite coordinates through [updateCollectorLocation] is listed, with
    these coordinates, as long as no job is active for them. Once
    [assignCollectorToJob] has given them a job (whose id is not empty)
    they are not listed; after [clearCollectorActiveJob] they are listed
    again; after switching offline they are not. Whether another collector
    is listed does not change. A location holding a coordinate that is NaN
    or infinite is rejected and stores nothing. *)
Theorem getOnlineCollectors_follows_presence
    (w : World) (p : Presence) (collectorId jobId : string)
    (location : GeoLocation) :
  is_finite (lat location) = true -> is_finite (lng location) = true ->
  jobId <> "" ->
  let p1 := Realtime.setCollectorOnlineStatus collectorId true w p in
  let r := Realtime.updateCollectorLocation collectorId location w p1 in
  let p2 := snd r in
  let shown :=
    {| lat := lat location; lng := lng location;
       formattedAddress := Some (default "" (formattedAddress location)) |} in
  let busy := snd (assignCollectorToJob jobId collectorId w) in
  let free := snd (clearCollectorActiveJob collectorId busy) in
  fst r = Resolved tt /\
  (truthy (rt_activeJob w !! collectorId) = false ->
   (collectorId, shown) ∈ Realtime.getOnlineCollectors w p2) /\
  (forall l, (collectorId, l) ∉ Realtime.getOnlineCollectors busy p2) /\
  (collectorId, shown) ∈ Realtime.getOnlineCollectors free p2 /\
  (forall w' l,
     (collectorId, l) ∉ Realtime.getOnlineCollectors w'
        (Realtime.setCollectorOnlineStatus collectorId false w' p2)) /\
  (forall other w' l, other <> collectorId ->
     (other, l) ∈ Realtime.getOnlineCollectors w' p2 <->
     (other, l) ∈ Realtime.getOnlineCollectors w' p) /\
  (forall location' w' p',
     is_finite (lat location') = false \/ is_finite (lng location') = false ->
     exists e,
       Realtime.updateCollectorLocation collectorId location' w' p'
       = (Rejected e, p')).
Proof.
  intros Hlat Hlng Hj p1 r p2 shown busy free.
  assert (Er : r = (Resolved tt,
            {| rt_location :=
                 <[collectorId :=
                     {| loc_lat := lat location; loc_lng := lng location;
                        loc_formattedAddress :=
                          Some (default "" (formattedAddress location));
                        loc_timestamp := clock w |}]> (rt_location p);
               rt_status :=
                 <[collectorId := {| st_online := true;
                                     st_lastSeen := clock w |}]>
                   (rt_status p) |})).
  { subst r. unfold Realtime.updateCollectorLocation, validNumber.
    now rewrite Hlat, Hlng. }
  subst p2. rewrite Er. cbn [fst snd].
  split; [reflexivity|].
  assert (Hlisted : forall w',
            truthy (rt_activeJob w' !! collectorId) = false ->
            (collectorId, shown) ∈ Realtime.getOnlineCollectors w'
              {| rt_location :=
                   <[collectorId :=
                       {| loc_lat := lat location; loc_lng := lng location;
                          loc_formattedAddress :=
                            Some (default "" (formattedAddress location));
                          loc_timestamp := clock w |}]> (rt_location p);
                 rt_status :=
                   <[collectorId := {| st_online := true;
                                       st_lastSeen := clock w |}]>
                     (rt_status p) |}).
  { intros w' Hact. apply elem_of_getOnlineCollectors. eexists.
    cbn [rt_location rt_status]. rewrite !lookup_insert_eq.
    split; [reflexivity|]. split; [reflexivity|]. split; [exact Hact|].
    reflexivity. }
  split; [apply Hlisted|]. split; [|split; [|split; [|split]]].
  - intros l Hin. apply elem_of_getOnlineCollectors in Hin
      as (node & _ & _ & Hact & _).
    subst busy. rewrite assignCollectorToJob_run in Hact.
    cbn [snd set_activeJob set_jobs rt_activeJob] in Hact.
    rewrite lookup_insert_eq in Hact. cbn in Hact.
    now rewrite (bool_decide_eq_false_2 _ Hj) in Hact.
  - apply Hlisted. subst free. unfold clearCollectorActiveJob, rtdb_setActiveJob,
      writes. cbn [snd set_activeJob rt_activeJob].
    now rewrite lookup_delete_eq.
  - intros w' l Hin. apply elem_of_getOnlineCollectors in Hin
      as (node & _ & Hon & _).
    cbn [Realtime.setCollectorOnlineStatus rt_status] in Hon.
    rewrite lookup_insert_eq in Hon. discriminate Hon.
  - intros other w' l Hne. rewrite !elem_of_getOnlineCollectors.
    cbn [rt_location rt_status].
    now rewrite !lookup_insert_ne by congruence.
  - intros location' w' p' Hbad.
    unfold Realtime.updateCollectorLocation, validNumber.
    destruct Hbad as [-> | ->]; rewrite ?andb_false_r; cbn [andb]; eauto.
Qed.

Lemma getOnlineCollectors_follows_presence_witness :
  let p0 := {| rt_location := ∅; rt_status := ∅ |} in
  let p2 :=
    snd (Realtime.updateCollectorLocation "c1" pickupLocation emptyWorld
           (Realtime.setCollectorOnlineStatus "c1" true emptyWorld p0)) in
  (fst <$> Realtime.getOnlineCollectors emptyWorld p2 = ["c1"]) /\
  (forall l,
     ("c1", l) ∉ Realtime.getOnlineCollectors
                   (snd (assignCollectorToJob "j1" "c1" emptyWorld)) p2).
Proof.
  split; [vm_compute; reflexivity|].
  destruct (getOnlineCollectors_follows_presence emptyWorld
              {| rt_location := ∅; rt_status := ∅ |} "c1" "j1" pickupLocation)
    as (_ & _ & H & _); [reflexivity|reflexivity|discriminate|].
  exact H.
Defined.

End PresenceFacts.

(** * Creating a request and locating a collector in Firestore *)

Section RequestFacts.
Context {M : MathLib}.
Local Open Scope float_scope.

Lemma createPickupRequest_run requestId customerId wasteType wasteSize
    pickupLocation estimatedPrice w :
  validGeoPoint (lat pickupLocation) (lng pickupLocation) = true ->
  createPickupRequest requestId customerId wasteType wasteSize pickupLocation
    estimatedPrice w
  = (Resolved requestId,
     set_requests
       <[requestId :=
           {| r_customerId := customerId; r_collectorId := None;
              r_wasteType := wasteType;
              r_pickupLocation :=
                {| latitude := lat pickupLocation;
                   longitude := lng pickupLocation |};
              r_pickupAddress := default "" (formattedAddress pickupLocation);
              r_estimatedPrice := estimatedPrice; r_distance := None;
              r_status := req_pending; r_assignedAt := None;
              r_completedAt := None; r_updatedAt := None;
              r_cancelReason := None |}]> w).
Proof. intros H. unfold createPickupRequest. now rewrite H. Qed.

Lemma validGeoPoint_finite latitude longitude :
  validGeoPoint latitude longitude = true ->
  validNumber latitude = true /\ validNumber longitude = true.
Proof.
  unfold validGeoPoint, validNumber. rewrite !andb_true_iff. tauto.
Qed.

End RequestFacts.

(** X11. A request made with [createPickupRequest] at a valid position can
    be read back and dispatched: [getPickupRequest] on the id returned
    gives the customer, waste type, coordinates and price that were passed,
    the address (empty when none was given), status [pending] and no
    collector; every other request is as it was; and [retryMatch] on the
    id, with at least one try, does not turn it away but queries the
    collectors for its waste type. At a position whose latitude is not a
    finite number within -90..90 or whose longitude is not one within
    -180..180 it rejects and stores nothing. *)
Theorem createPickupRequest_reads_back
    (M : MathLib) (w : World) (requestId customerId : string)
    (wasteType : WasteType) (wasteSize : WasteSize)
    (pickupLocation : GeoLocation) (estimatedPrice : float) :
  validGeoPoint (lat pickupLocation) (lng pickupLocation) = true ->
  let r := createPickupRequest requestId customerId wasteType wasteSize
             pickupLocation estimatedPrice w in
  fst r = Resolved requestId /\
  getPickupRequest requestId (snd r)
  = (Resolved
       (Some {| pr_id := requestId; pr_customerId := customerId;
                pr_collectorId := None; pr_wasteType := wasteType;
                pr_pickupLocation :=
                  {| lat := lat pickupLocation; lng := lng pickupLocation;
                     formattedAddress :=
                       Some (default "" (formattedAddress pickupLocation)) |};
                pr_estimatedPrice := estimatedPrice; pr_distance := None;
                pr_status := req_pending |}),
     snd r) /\
  (forall other, other <> requestId ->
     fs_requests (snd r) !! other = fs_requests w !! other) /\
  fs_users (snd r) = fs_users w /\ trace (snd r) = trace w /\
  (forall maxRetries retryDelayMs, 0 < maxRetries ->
     exists rest,
       trace (snd (retryMatch requestId maxRetries retryDelayMs (snd r)))
       = trace w ++ EvQueryAvailableCollectors wasteType :: rest) /\
  (forall location',
     validGeoPoint (lat location') (lng location') = false ->
     exists e,
       createPickupRequest requestId customerId wasteType wasteSize location'
         estimatedPrice w
       = (Rejected e, w)).
Proof.
  intros Hvalid r. subst r.
  rewrite (createPickupRequest_run _ _ _ _ _ _ _ Hvalid). cbn [fst snd].
  split; [reflexivity|].
  split.
  { rewrite getPickupRequest_run. cbn [set_requests fs_requests].
    now rewrite lookup_insert_eq. }
  split; [intros other Hne; now apply lookup_insert_ne|].
  split; [reflexivity|]. split; [reflexivity|].
  split.
  - intros maxRetries retryDelayMs Hmax.
    match goal with
    | |- context [set_requests <[requestId := ?d]> w] => set (data := d)
    end.
    destruct (retryMatch_pending_attempts (M:=M) requestId maxRetries
                retryDelayMs (set_requests <[requestId := data]> w) data)
      as [rest Hrest]; [apply lookup_insert_eq|reflexivity|exact Hmax|].
    exists rest. exact Hrest.
  - intros location' Hbad. unfold createPickupRequest. rewrite Hbad.
    eexists. reflexivity.
Qed.

Lemma createPickupRequest_reads_back_witness :
  let r := createPickupRequest "r9" "awa@example.gm" kitchen size_medium
             pickupLocation 120 emptyWorld in
  fst r = Resolved "r9" /\
  exists request,
    getPickupRequest "r9" (snd r) = (Resolved (Some request), snd r) /\
    pr_status request = req_pending /\ pr_wasteType request = kitchen.
Proof.
  destruct (createPickupRequest_reads_back smallAngleMath emptyWorld "r9"
              "awa@example.gm" kitchen size_medium pickupLocation 120 eq_refl)
    as (H1 & H2 & _).
  cbv zeta. split; [exact H1|]. eexists. split; [exact H2|].
  split; reflexivity.
Defined.

(** X12. [updateCollectorLocation] of lib/firestore.ts, for a collector who
    has a document in [users] and a valid position: it resolves, the
    Realtime Database and the document both hold the position, and if the
    collector is available and handles a waste type, they are eligible for
    it from then on: [findNearestCollector] finds a collector for that
    waste type, wherever the customer is. When it rejects because the
    collector has no document, or because the position is finite but
    outside -90..90 by -180..180, the Realtime Database already holds the
    new position while Firestore is unchanged; a position that is NaN or
    infinite changes neither. *)
Theorem updateCollectorLocation_locates_collector
    (M : MathLib) (p : Presence) (w : World) (collectorId : string)
    (location : GeoLocation) (now : Z) (user : UserDoc) :
  validGeoPoint (lat location) (lng location) = true ->
  (collectorId, user) ∈ fs_users w ->
  let r := Firestore.updateCollectorLocation collectorId location now (p, w) in
  let written (latitude longitude : float) (p' : Presence) :=
    rt_location p' !! collectorId
    = Some {| loc_lat := latitude; loc_lng := longitude;
              loc_formattedAddress := None; loc_timestamp := now |} in
  fst r = Resolved tt /\
  written (lat location) (lng location) (snd r).1 /\
  (forall docId data, (docId, data) ∈ fs_users (snd r).2 ->
     docId = collectorId ->
     u_currentLocation data
     = Some {| latitude := lat location; longitude := lng location |}) /\
  (forall wasteType customerLocation,
     matchesQuery wasteType user = true ->
     exists n,
       fst (findNearestCollector customerLocation wasteType (snd r).2)
       = Resolved (Some n)) /\
  (forall p' w',
     hasUser collectorId (fs_users w') = false ->
     exists e p'',
       Firestore.updateCollectorLocation collectorId location now (p', w')
       = (Rejected e, (p'', w')) /\
       written (lat location) (lng location) p'') /\
  (forall location' p' w',
     validNumber (lat location') = true ->
     validNumber (lng location') = true ->
     validGeoPoint (lat location') (lng location') = false ->
     exists e p'',
       Firestore.updateCollectorLocation collectorId location' now (p', w')
       = (Rejected e, (p'', w')) /\
       written (lat location') (lng location') p'') /\
  (forall location' s,
     validNumber (lat location') && validNumber (lng location') = false ->
     exists e,
       Firestore.updateCollectorLocation collectorId location' now s
       = (Rejected e, s)).
Proof.
  intros Hvalid Hin r written. subst r.
  destruct (validGeoPoint_finite _ _ Hvalid) as [Hlat Hlng].
  pose proof (hasUser_elem _ _ _ Hin) as Huser.
  unfold Firestore.updateCollectorLocation.
  rewrite Hlat, Hlng, Hvalid. cbn [andb fst snd].
  unfold bind, serverTimestamp, reads, firestore_updateUser.
  rewrite Huser. cbn [fst snd set_users fs_users].
  split; [reflexivity|].
  split; [unfold written; cbn [rt_location]; apply lookup_insert_eq|].
  split; [|split; [|split; [|split]]].
  - intros docId data Hd ->.
    apply list_elem_of_fmap in Hd as ([k u] & E & _). cbn [fst snd] in E.
    destruct (bool_decide (k = collectorId)) eqn:Hk.
    + now injection E as _ ->.
    + injection E as -> ->. now apply bool_decide_eq_false in Hk.
  - intros wasteType customerLocation Hq.
    rewrite findNearestCollector_run. cbn [fst].
    match goal with
    | |- context [availableCollectors wasteType ?w1] => set (w1' := w1)
    end.
    destruct (proj2 (nearestOf_some_iff (M:=M) customerLocation wasteType w1'))
      as [n Hn]; [|exists n; now rewrite Hn].
    eexists collectorId, _. split.
    + subst w1'. cbn [set_users fs_users]. apply list_elem_of_fmap.
      exists (collectorId, user). split; [|exact Hin].
      cbn [fst snd]. now rewrite bool_decide_eq_true_2.
    + apply eligible_spec. cbn [u_currentLocation]. split; [|eauto].
      exact Hq.
  - intros p' w' Hno. rewrite Hno. eexists _, _. split; [reflexivity|].
    unfold written. cbn [rt_location fst]. apply lookup_insert_eq.
  - intros location' p' w' Hlat' Hlng' Hbad. rewrite Hlat', Hlng', Hbad.
    eexists _, _. split; [reflexivity|].
    unfold written. cbn [rt_location fst]. apply lookup_insert_eq.
  - intros location' s Hbad. rewrite Hbad. eauto.
Qed.

Lemma updateCollectorLocation_locates_collector_witness :
  let w :=
    set_users (fun _ =>
      [("c1", exampleCollectorDoc "Lamin" [household] true None)])
      emptyWorld in
  let r := Firestore.updateCollectorLocation "c1" pickupLocation 1700000000123
             ({| rt_location := ∅; rt_status := ∅ |}, w) in
  nearestOf (M:=smallAngleMath) pickupLocation (availableCollectors household w)
  = None /\
  fst r = Resolved tt /\
  exists n,
    fst (findNearestCollector (M:=smallAngleMath) pickupLocation household
           (snd r).2) = Resolved (Some n).
Proof.
  split; [reflexivity|].
  destruct (updateCollectorLocation_locates_collector smallAngleMath
              {| rt_location := ∅; rt_status := ∅ |}
              (set_users (fun _ =>
                 [("c1", exampleCollectorDoc "Lamin" [household] true None)])
                 emptyWorld)
              "c1" pickupLocation 1700000000123
              (exampleCollectorDoc "Lamin" [household] true None) eq_refl)
    as (H1 & _ & _ & H2 & _); [apply list_elem_of_here|].
  split; [exact H1|]. exact (H2 household pickupLocation eq_refl).
Defined.

(** X19. Completing a request does not free its collector. After
    [assignCollectorToRequest], [updateRequestStatus] to [completed]
    resolves and stamps the completion time; the request keeps its
    collector, distance and assignment time; but the collector's document
    is not touched: they stay unavailable, with the request as their
    current one, and no availability query returns them. On a request that
    does not exist [updateRequestStatus] rejects and changes nothing. *)
Theorem completed_request_keeps_collector_unavailable
    (w : World) (requestId collectorId : string) (distance : float)
    (request : RequestDoc) :
  fs_requests w !! requestId = Some request ->
  hasUser collectorId (fs_users w) = true ->
  let w1 := snd (assignCollectorToRequest requestId collectorId distance w) in
  let r := updateRequestStatus requestId req_completed None w1 in
  fst r = Resolved tt /\
  (exists completed,
     fs_requests (snd r) !! requestId = Some completed /\
     r_status completed = req_completed /\
     r_completedAt completed = Some (clock w) /\
     r_assignedAt completed = Some (clock w) /\
     r_collectorId completed = Some collectorId /\
     r_distance completed = Some distance /\
     r_customerId completed = r_customerId request /\
     r_wasteType completed = r_wasteType request) /\
  fs_users (snd r) = fs_users w1 /\
  (forall docId data, (docId, data) ∈ fs_users (snd r) ->
     docId = collectorId ->
     u_isAvailable data = false /\ u_currentRequestId data = Some requestId) /\
  (forall wasteType c,
     c ∈ availableCollectors wasteType (snd r) -> c_id c <> collectorId) /\
  (forall status additionalData w',
     fs_requests w' !! requestId = None ->
     updateRequestStatus requestId status additionalData w'
     = (Rejected "not-found", w')).
Proof.
  intros Hreq Huser w1 r. subst r w1.
  rewrite (assignCollectorToRequest_run _ _ _ _ _ Hreq Huser). cbn [snd].
  unfold updateRequestStatus, bind, serverTimestamp, reads,
    firestore_updateRequest.
  cbn [fst snd set_users set_requests fs_requests fs_users clock].
  rewrite lookup_insert_eq. cbn [fst snd set_requests fs_requests fs_users].
  split; [reflexivity|]. split.
  { eexists. rewrite lookup_insert_eq. split; [reflexivity|]. repeat split. }
  split; [reflexivity|]. split; [|split].
  - intros docId data Hd ->.
    apply list_elem_of_fmap in Hd as ([k u] & E & _). cbn [fst snd] in E.
    destruct (bool_decide (k = collectorId)) eqn:Hk.
    + injection E as _ ->. auto.
    + injection E as -> ->. now apply bool_decide_eq_false in Hk.
  - intros wasteType c.
    eapply availableCollectors_excludes_updated; [| |reflexivity].
    + intros iu. cbn beta.
      destruct (bool_decide (iu.1 = collectorId)); reflexivity.
    + intros iu Hiu. cbn beta.
      rewrite (bool_decide_eq_true_2 _ Hiu). reflexivity.
  - intros status additionalData w' Hnone.
    unfold updateRequestStatus, bind, serverTimestamp, reads,
      firestore_updateRequest.
    cbn [fst snd]. now rewrite Hnone.
Qed.

Lemma completed_request_keeps_collector_unavailable_witness :
  let w1 := snd (assignCollectorToRequest "r1" "c1" 0x1p+0 unpaidWorld) in
  let r := updateRequestStatus "r1" req_completed None w1 in
  (exists c, c ∈ availableCollectors household unpaidWorld /\ c_id c = "c1") /\
  fst r = Resolved tt /\
  (forall wasteType c,
     c ∈ availableCollectors wasteType (snd r) -> c_id c <> "c1").
Proof.
  split; [eexists; split; [apply list_elem_of_here|reflexivity]|].
  destruct (completed_request_keeps_collector_unavailable unpaidWorld "r1"
              "c1" 0x1p+0 (exampleRequestDoc household req_pending None)
              eq_refl eq_refl) as (H1 & _ & _ & _ & H2 & _).
  split; [exact H1|exact H2].
Defined.

(** * Prices: [calculatePrice] stays within the configured bounds *)

Lemma SF_ltb_leb x y : SFltb x y = true -> SFleb x y = true.
Proof.
  rewrite SF_ltb_key, SF_leb_key. intros (? & ? & H).
  repeat split; auto. rewrite H. discriminate.
Qed.

Lemma SF_opp_is_nan x : SF_is_nan (SFopp x) = SF_is_nan x.
Proof. destruct x; reflexivity. Qed.

Section PriceFacts.
Local Open Scope float_scope.

Lemma Num_ltb_leb x y : (x <? y) = true -> (x <=? y) = true.
Proof. rewrite FloatAxioms.ltb_spec, FloatAxioms.leb_spec. apply SF_ltb_leb. Qed.

Lemma Num_leb_refl x : is_nan x = false -> (x <=? x) = true.
Proof. intros H. now apply Num_eqb_leb, Num_eqb_refl. Qed.

Lemma Z2Num_not_nan k : is_nan (Z2Num k) = false.
Proof.
  unfold Z2Num. destruct (k <? 0)%Z;
    rewrite Num_is_nan_spec, ?opp_spec, ?SF_opp_is_nan, of_uint63_spec;
    apply SF_binary_normalize_not_nan.
Qed.

(** [Math.round] gives NaN for NaN only. *)
Lemma Math_round_is_nan x : is_nan (Math_round x) = is_nan x.
Proof.
  unfold Math_round. destruct (Prim2SF x) as [s|s| |s m e] eqn:E;
    try reflexivity.
  destruct (0 <=? e)%Z; [reflexivity|].
  rewrite (Num_is_nan_spec x), E. cbn [SF_is_nan].
  destruct (_ =? 0)%Z; [now destruct s|apply Z2Num_not_nan].
Qed.

Lemma Math_min_bound hi t :
  is_nan hi = false -> is_nan t = false ->
  is_nan (Math_min hi t) = false /\ (Math_min hi t <=? hi) = true.
Proof.
  intros Hhi Ht. unfold Math_min. rewrite Hhi, Ht. cbn [orb].
  destruct (hi <? t) eqn:H1; [auto using Num_leb_refl|].
  destruct (t <? hi) eqn:H2; [auto using Num_ltb_leb|].
  destruct (isNegativeZero hi); [auto using Num_leb_refl|].
  split; [exact Ht|]. now apply Num_nlt_leb.
Qed.

Lemma Math_max_bound lo hi m :
  (lo <=? hi) = true -> is_nan m = false -> (m <=? hi) = true ->
  (lo <=? Math_max lo m) = true /\ (Math_max lo m <=? hi) = true.
Proof.
  intros Hlh Hm Hmh.
  destruct (Num_leb_not_nan _ _ Hlh) as [Hlo _].
  unfold Math_max. rewrite Hlo, Hm. cbn [orb].
  destruct (lo <? m) eqn:H1; [auto using Num_ltb_leb|].
  destruct (m <? lo) eqn:H2; [auto using Num_leb_refl|].
  destruct (isNegativeZero lo); [|auto using Num_leb_refl].
  split; [|exact Hmh]. now apply Num_nlt_leb.
Qed.

(** Every waste type and every size has its entry in the tables, with a
    multiplier that is a finite number other than 0. *)
Lemma getWasteType_total wasteType :
  exists typeInfo s m e,
    getWasteType wasteType = Some typeInfo /\ wti_id typeInfo = wasteType /\
    Prim2SF (wti_priceMultiplier typeInfo) = S754_finite s m e.
Proof.
  destruct wasteType; eexists _, _, _, _;
    (split; [reflexivity|split; [reflexivity|vm_compute; reflexivity]]).
Qed.

Lemma getWasteSize_total wasteSize :
  exists sizeInfo s m e,
    getWasteSize wasteSize = Some sizeInfo /\ wsi_id sizeInfo = wasteSize /\
    Prim2SF (wsi_priceMultiplier sizeInfo) = S754_finite s m e.
Proof.
  destruct wasteSize; eexists _, _, _, _;
    (split; [reflexivity|split; [reflexivity|vm_compute; reflexivity]]).
Qed.

(** X13. [calculatePrice] always finds the waste type and the size in its
    tables, so its fallback is never taken, and for every distance that is
    a number, the infinities included, the price lies between [minPrice]
    (75) and [maxPrice] (5000), bounds included. For a distance that is NaN
    the price is NaN. *)
Theorem calculatePrice_within_bounds
    (wasteType : WasteType) (wasteSize : WasteSize) (distanceKm : float) :
  (exists typeInfo sizeInfo,
     getWasteType wasteType = Some typeInfo /\ wti_id typeInfo = wasteType /\
     getWasteSize wasteSize = Some sizeInfo /\ wsi_id sizeInfo = wasteSize /\
     calculatePrice wasteType wasteSize distanceKm
     = Math_max 75
         (Math_min 5000
            (Math_round ((50 + distanceKm * 10)
                         * wti_priceMultiplier typeInfo
                         * wsi_priceMultiplier sizeInfo)))) /\
  (is_nan distanceKm = false ->
   (PRICING.minPrice <=? calculatePrice wasteType wasteSize distanceKm) = true /\
   (calculatePrice wasteType wasteSize distanceKm <=? PRICING.maxPrice) = true) /\
  (is_nan distanceKm = true ->
   is_nan (calculatePrice wasteType wasteSize distanceKm) = true).
Proof.
  destruct (getWasteType_total wasteType)
    as (typeInfo & st & mt & et & Ht & Hti & Hmt).
  destruct (getWasteSize_total wasteSize)
    as (sizeInfo & ss & ms & es & Hs & Hsi & Hms).
  assert (E : calculatePrice wasteType wasteSize distanceKm
              = Math_max 75
                  (Math_min 5000
                     (Math_round ((50 + distanceKm * 10)
                                  * wti_priceMultiplier typeInfo
                                  * wsi_priceMultiplier sizeInfo)))).
  { unfold calculatePrice. now rewrite Ht, Hs. }
  split; [exists typeInfo, sizeInfo; auto|]. split.
  - intros Hd. rewrite E.
    set (t := Math_round _).
    assert (Hnan : is_nan t = false).
    { subst t. rewrite Math_round_is_nan.
      apply Num_mul_not_nan; [|eauto].
      apply Num_mul_not_nan; [|eauto].
      apply Num_add_not_nan; [reflexivity|].
      apply Num_mul_not_nan; [exact Hd|].
      eexists _, _, _. vm_compute. reflexivity. }
    destruct (Math_min_bound 5000 t eq_refl Hnan) as [Hm1 Hm2].
    now apply Math_max_bound.
  - intros Hd. apply Num_is_nan_eq in Hd. subst distanceKm.
    destruct wasteType, wasteSize; vm_compute; reflexivity.
Qed.

End PriceFacts.

(** * Payments: what counts as a collector's earnings *)

(** The numbers that 0 does not exceed: the zeros, the positive numbers
    and [+Infinity]. *)
Lemma SF_nonneg_cases x :
  SFleb (S754_zero false) x = true ->
  (exists s, x = S754_zero s) \/ (exists m e, x = S754_finite false m e) \/
  x = S754_infinity false.
Proof.
  destruct x as [s|s| |s m e]; cbn; try discriminate; destruct s;
    try discriminate; eauto.
Qed.

Lemma SF_add_nonneg x y :
  SFleb (S754_zero false) x = true -> SFleb (S754_zero false) y = true ->
  SFleb (S754_zero false) (SF64add x y) = true.
Proof.
  intros Hx Hy.
  destruct (SF_nonneg_cases x Hx) as [[sx ->]|[(mx & ex & ->)| ->]];
    destruct (SF_nonneg_cases y Hy) as [[sy ->]|[(my & ey & ->)| ->]];
    try reflexivity; try (destruct sx; reflexivity);
    try (destruct sy; reflexivity).
  - destruct sx, sy; reflexivity.
  - unfold SF64add, SFadd. cbn [cond_Zopp].
    apply SF_nlt_leb;
      [apply SF_binary_normalize_not_nan|reflexivity|].
    apply SF_binary_normalize_nonneg. lia.
Qed.

Section PaymentFacts.
Local Open Scope float_scope.

Lemma Num_add_nonneg x y :
  (0 <=? x) = true -> (0 <=? y) = true -> (0 <=? x + y) = true.
Proof.
  rewrite !FloatAxioms.leb_spec, add_spec, Num_Prim2SF_zero.
  apply SF_add_nonneg.
Qed.

Lemma orZero_nonneg a :
  is_nan a = true \/ (0 <=? a) = true -> (0 <=? orZero a) = true.
Proof.
  unfold orZero. intros [H|H].
  - now rewrite H.
  - destruct (is_nan a || is_zero a); [reflexivity|exact H].
Qed.

Lemma fold_earnings_nonneg (docs : list (string * PaymentDoc)) total :
  (0 <=? total) = true ->
  (forall doc, doc ∈ docs ->
     is_nan (p_amount doc.2) = true \/ (0 <=? p_amount doc.2) = true) ->
  (0 <=? fold_left (fun total doc => total + orZero (p_amount doc.2)) docs total)
  = true.
Proof.
  revert total. induction docs as [|doc docs IH]; intros total Ht Hall;
    [exact Ht|].
  cbn [fold_left]. apply IH.
  - apply Num_add_nonneg; [exact Ht|].
    apply orZero_nonneg, Hall, list_elem_of_here.
  - intros doc' Hin. apply Hall. now apply list_elem_of_further.
Qed.

(** X14. A payment counts towards a collector's earnings only once it is
    completed. [getCollectorEarnings] reads and changes nothing; a payment
    just made with [createPayment] is pending and leaves everybody's
    earnings as they were; a collector with no completed payment has earned
    0; and if the amounts of the collector's completed payments are numbers
    that are not negative (a NaN counts as 0), the earnings are a number
    that is not negative, and not NaN. *)
Theorem getCollectorEarnings_counts_completed_payments
    (w : World) (collectorId : string) :
  let earnings (w' : World) := fst (getCollectorEarnings collectorId w') in
  snd (getCollectorEarnings collectorId w) = w /\
  (forall requestId customerId payee amount method,
     let r := createPayment requestId customerId payee amount method w in
     (exists paymentId payment,
        fst r = Resolved paymentId /\
        fs_payments (snd r) = fs_payments w ++ [(paymentId, payment)] /\
        p_status payment = payment_pending /\ p_amount payment = amount /\
        p_collectorId payment = payee) /\
     earnings (snd r) = earnings w) /\
  ((forall id payment,
      (id, payment) ∈ fs_payments w -> p_collectorId payment = collectorId ->
      p_status payment <> payment_completed) ->
   earnings w = Resolved 0) /\
  ((forall id payment,
      (id, payment) ∈ fs_payments w -> p_collectorId payment = collectorId ->
      p_status payment = payment_completed ->
      is_nan (p_amount payment) = true \/ (0 <=? p_amount payment) = true) ->
   exists total,
     earnings w = Resolved total /\ (0 <=? total) = true /\
     is_nan total = false).
Proof.
  intros earnings. split; [reflexivity|]. split; [|split].
  - intros requestId customerId payee amount method r. split.
    + eexists _, _. split; [reflexivity|]. split; [reflexivity|].
      repeat split.
    + subst r earnings. cbv beta.
      unfold getCollectorEarnings, createPayment, reads, writes, bind, ret.
      cbn [fst snd set_payments fs_payments].
      rewrite filter_app, filter_cons, filter_nil. cbn [snd p_status].
      rewrite decide_False by (intros [_ [=]]). now rewrite app_nil_r.
  - intros Hnone. subst earnings. cbv beta.
    unfold getCollectorEarnings, reads. cbn [fst].
    destruct (filter _ (fs_payments w)) as [|[id payment] rest] eqn:E;
      [reflexivity|exfalso].
    assert (Hin : (id, payment) ∈ filter
              (fun doc : string * PaymentDoc =>
                 p_collectorId doc.2 = collectorId
                 /\ p_status doc.2 = payment_completed) (fs_payments w))
      by (rewrite E; apply list_elem_of_here).
    apply list_elem_of_filter in Hin as [[Hc Hs] Hin]. cbn [snd] in *.
    exact (Hnone id payment Hin Hc Hs).
  - intros Hall. subst earnings. cbv beta.
    unfold getCollectorEarnings, reads. cbn [fst]. eexists.
    split; [reflexivity|].
    assert (H0 : (0 <=? fold_left
                     (fun total doc => total + orZero (p_amount doc.2))
                     (filter (fun doc : string * PaymentDoc =>
                                p_collectorId doc.2 = collectorId
                                /\ p_status doc.2 = payment_completed)
                             (fs_payments w)) 0) = true).
    { apply fold_earnings_nonneg; [reflexivity|].
      intros [id payment] Hin.
      apply list_elem_of_filter in Hin as [[Hc Hs] Hin]. cbn [snd] in *.
      exact (Hall id payment Hin Hc Hs). }
    split; [exact H0|]. now apply Num_leb_not_nan in H0.
Qed.

End PaymentFacts.

(** * Notifications: marking as read, in the store and on the dashboard *)

Lemma markAllNotificationsAsRead_lookup collectorId now store id :
  (markAllNotificationsAsRead collectorId now store).2 !! id
  = (fun n =>
       if decide (nd_userId n = collectorId /\ nd_read n = false)
       then markRead now n else n) <$> store !! id.
Proof. unfold markAllNotificationsAsRead. cbn [snd]. apply lookup_fmap. Qed.

Lemma list_map_id_on {A} (f : A -> A) (l : list A) :
  (forall x, x ∈ l -> f x = x) -> map f l = l.
Proof.
  induction l as [|x l IH]; intros H; [reflexivity|].
  cbn [map]. rewrite (H x) by apply list_elem_of_here.
  rewrite IH; [reflexivity|]. intros y Hy. apply H.
  now apply list_elem_of_further.
Qed.

(** X15. Marking notifications as read. [markAllNotificationsAsRead]
    leaves the collector no unread notification, stamps the ones it
    changes, keeps every notification that was read already or belongs to
    somebody else exactly as it was, and creates or deletes none; run
    again, even later, it changes nothing. [markNotificationAsRead] on an
    id that does not exist rejects and changes nothing. The dashboard's
    handlers keep the list they display in step with the store: if the
    list mirrors the store before [handleMarkAllRead] or
    [handleMarkNotificationRead], it mirrors it afterwards, and after
    [handleMarkAllRead] everything listed is read. *)
Theorem notifications_marked_read_stay_in_step
    (store : gmap string NotificationDoc) (shown : list Notification)
    (collectorId : string) (now : Z) :
  mirrorsStore collectorId (shown, store) ->
  let s1 := handleMarkAllRead collectorId now (shown, store) in
  (forall id doc, s1.2 !! id = Some doc -> nd_userId doc = collectorId ->
     nd_read doc = true) /\
  (forall id doc, store !! id = Some doc ->
     nd_userId doc = collectorId -> nd_read doc = false ->
     s1.2 !! id = Some (markRead now doc)) /\
  (forall id doc, store !! id = Some doc ->
     nd_userId doc <> collectorId \/ nd_read doc = true ->
     s1.2 !! id = Some doc) /\
  (forall id, s1.2 !! id = None <-> store !! id = None) /\
  mirrorsStore collectorId s1 /\
  (forall n, n ∈ s1.1 -> notification_read n = true) /\
  (forall later, handleMarkAllRead collectorId later s1 = s1) /\
  (forall id,
     let s2 := handleMarkNotificationRead id now (shown, store) in
     mirrorsStore collectorId s2 /\
     (store !! id = None ->
      markNotificationAsRead id now store = (Rejected "not-found", store) /\
      s2 = (shown, store)) /\
     (forall doc, store !! id = Some doc ->
        s2.2 !! id = Some (markRead now doc) /\
        forall other, other <> id -> s2.2 !! other = store !! other)).
Proof.
  intros Hmirror s1.
  assert (Es1 : s1 = (map (fun n =>
                             {| notification_id := notification_id n;
                                notification_userId := notification_userId n;
                                notification_read := true |}) shown,
                      (markAllNotificationsAsRead collectorId now store).2))
    by reflexivity.
  assert (Hlook := markAllNotificationsAsRead_lookup collectorId now store).
  rewrite Es1. cbn [fst snd].
  split; [|split; [|split; [|split; [|split; [|split; [|split]]]]]].
  - intros id doc. rewrite Hlook.
    destruct (store !! id) as [n|]; [|discriminate]. cbn.
    intros [= <-] Hu.
    destruct (decide _) as [_|Hn]; [reflexivity|].
    cbn in Hu. destruct (nd_read n) eqn:E; [reflexivity|].
    destruct Hn. auto.
  - intros id doc Hd Hu Hr. rewrite Hlook, Hd. cbn.
    now rewrite decide_True.
  - intros id doc Hd Hor. rewrite Hlook, Hd. cbn.
    rewrite decide_False; [reflexivity|].
    intros [Hu Hr]. destruct Hor as [Hor|Hor]; congruence.
  - intros id. rewrite Hlook. destruct (store !! id); cbn; split; congruence.
  - intros n Hn. cbn [fst snd] in *.
    apply list_elem_of_fmap in Hn as (n0 & -> & Hn0).
    destruct (Hmirror n0 Hn0) as (doc & Hd & Hu & Hnu & Hr).
    cbn [fst snd notification_id notification_userId notification_read] in *.
    rewrite Hlook, Hd. cbn.
    destruct (decide _) as [_|Hne]; eexists; (split; [reflexivity|]).
    + cbn. auto.
    + repeat split; auto. destruct (nd_read doc) eqn:E; [reflexivity|].
      destruct Hne. auto.
  - intros n Hn. apply list_elem_of_fmap in Hn as (n0 & -> & _). reflexivity.
  - intros later. unfold handleMarkAllRead. cbn [fst snd].
    unfold markAllNotificationsAsRead at 1. cbn [fst snd]. f_equal.
    + rewrite map_map. reflexivity.
    + apply map_eq. intros id. rewrite lookup_fmap, Hlook.
      destruct (store !! id) as [n|]; [|reflexivity]. cbn. f_equal.
      destruct (decide (nd_userId n = collectorId /\ nd_read n = false))
        as [[Hu Hr]|Hne].
      * rewrite decide_False; [reflexivity|]. cbn. intros [_ [=]].
      * now rewrite decide_False.
  - intros id. unfold handleMarkNotificationRead, markNotificationAsRead.
    cbn [fst snd].
    destruct (store !! id) as [doc|] eqn:Hd.
    + split; [|split; [discriminate|]].
      * intros n Hn. cbn [fst snd] in *.
        apply list_elem_of_fmap in Hn as (n0 & -> & Hn0).
        destruct (Hmirror n0 Hn0) as (doc0 & Hd0 & Hu & Hnu & Hr).
        cbn [fst snd] in *.
        destruct (bool_decide (notification_id n0 = id)) eqn:Eb.
        -- apply bool_decide_eq_true in Eb.
           cbn [notification_id notification_userId notification_read].
           rewrite Eb in *. rewrite lookup_insert_eq.
           rewrite Hd in Hd0. injection Hd0 as <-.
           eexists. split; [reflexivity|]. cbn. auto.
        -- apply bool_decide_eq_false in Eb.
           rewrite lookup_insert_ne by congruence. eauto.
      * intros doc' [= <-]. split; [apply lookup_insert_eq|].
        intros other Hne. now apply lookup_insert_ne.
    + split; [exact Hmirror|]. split; [auto|discriminate].
Qed.

Lemma notifications_marked_read_stay_in_step_witness :
  mirrorsStore "c1" (exampleNotificationList, exampleNotifications) /\
  let s1 := handleMarkAllRead "c1" 20
              (exampleNotificationList, exampleNotifications) in
  (fun doc => (nd_read doc, nd_readAt doc)) <$> s1.2 !! "n1"
  = Some (true, Some 20) /\
  (fun doc => (nd_read doc, nd_readAt doc)) <$> s1.2 !! "n2"
  = Some (true, Some 15) /\
  (fun doc => (nd_read doc, nd_readAt doc)) <$> s1.2 !! "n3"
  = Some (false, None) /\
  mirrorsStore "c1" s1.
Proof.
  assert (Hm : mirrorsStore "c1" (exampleNotificationList, exampleNotifications)).
  { intros n Hn. cbn [fst snd] in *.
    apply elem_of_cons in Hn as [->|Hn];
      [|apply elem_of_cons in Hn as [->|Hn];
        [|now apply elem_of_nil in Hn]];
      eexists; (split; [vm_compute; reflexivity|repeat split]). }
  split; [exact Hm|].
  destruct (notifications_marked_read_stay_in_step exampleNotifications
              exampleNotificationList "c1" 20 Hm)
    as (_ & _ & _ & _ & H & _).
  cbv zeta. repeat split; [vm_compute; reflexivity..|exact H].
Defined.

(** * Collector settings: what is saved is what is read back *)

Section SettingsFacts.
Local Open Scope float_scope.

(** X16. Settings saved with [updateCollectorSettings] are read back by
    [getCollectorSettings]: every field that was passed has the value
    passed, every other field has the value that was read before (the
    default, for a collector whose settings were never saved), which is
    also what the settings page shows after the change. The settings of
    every other collector are as they were, and saving the same fields
    again changes nothing that is read. *)
Theorem updateCollectorSettings_reads_back
    (store : gmap string SettingsDoc) (collectorId : string)
    (settings : PartialSettings) (now : Z) :
  let store' := updateCollectorSettings collectorId settings now store in
  getCollectorSettings collectorId store'
  = overrideSettings (getCollectorSettings collectorId store) settings /\
  (forall other, other <> collectorId ->
     store' !! other = store !! other /\
     getCollectorSettings other store' = getCollectorSettings other store) /\
  (forall later,
     getCollectorSettings collectorId
       (updateCollectorSettings collectorId settings later store')
     = getCollectorSettings collectorId store') /\
  (store !! collectorId = None ->
   getCollectorSettings collectorId store = defaultSettings /\
   sd_createdAt <$> store' !! collectorId = Some (Some now)).
Proof.
  intros store'.
  assert (Hother : forall other, other <> collectorId ->
            store' !! other = store !! other).
  { intros other Hne. subst store'. unfold updateCollectorSettings.
    destruct (store !! collectorId); now apply lookup_insert_ne. }
  assert (Hread : forall s now',
            getCollectorSettings collectorId
              (updateCollectorSettings collectorId settings now' s)
            = overrideSettings (getCollectorSettings collectorId s) settings).
  { intros s now'. unfold getCollectorSettings, updateCollectorSettings.
    destruct (s !! collectorId) as [data|]; rewrite lookup_insert_eq;
      cbn [sd_fields]; [destruct data as [[] ? ?]|]; destruct settings as
        [[?|] [?|] [?|] [?|] [?|] [?|] [?|]]; reflexivity. }
  split; [apply Hread|]. split; [|split].
  - intros other Hne. split; [now apply Hother|].
    unfold getCollectorSettings. now rewrite Hother.
  - intros later. subst store'. rewrite !Hread.
    destruct settings as [[?|] [?|] [?|] [?|] [?|] [?|] [?|]]; reflexivity.
  - intros Hnone. unfold getCollectorSettings. rewrite Hnone.
    split; [reflexivity|]. subst store'. unfold updateCollectorSettings.
    rewrite Hnone. now rewrite lookup_insert_eq.
Qed.

End SettingsFacts.
